(** * STOMP / s2omp: angular bins, region maps and field unions

    A shallow embedding of
      - [src/s2omp/angular_bin-inl.h]   (class [angular_bin]),
      - [src/stomp/stomp_base_map.cc]   (class [RegionMap]),
      - [src/s2omp/field_union.h]       (class [field_union], declarations only),
    followed by the properties of the specification that concern them,
    and by further properties of the code of the first two.

    Conventions of the embedding.
      - A C++ [double] is a real number of [R]: arithmetic is exact, and
        there are no infinities or NaN.  A quotient by zero, an infinity or
        NaN in the source, is a real number here ([x / 0 = 0] in the
        Standard Library), so the statements on [angular_bin] and
        [RegionMap] are about runs whose divisors are not zero.
      - Fixed-width integers are numbers of [Z]; where a conversion or an
        increment can leave the range of its type the wrap-around is
        written out ([wrap_signed], [wrap_unsigned]).
      - [std::vector] is a [list]; indexing it outside its bounds is
        undefined behaviour in C++ and ends the run with [Undefined].
      - [std::map] is a [gmap]; a traversal by iterators visits the keys
        in increasing order.
      - [exit(c)] ends the run with [Exit c].
      - The bodies of the conversions of [field_union] are not among the
        sources; they follow the specification, and stop at a quotient by
        zero. *)

From Stdlib Require Import ZArith Reals Lra Lia.
From stdpp Require Import base option list gmap sorting.

Local Open Scope Z_scope.

(** ** Outcomes of a call *)

Inductive outcome (A : Type) : Type :=
| Ret (a : A)          (* the call returns [a] *)
| Exit (code : Z)      (* the process ends through [exit(code)] *)
| Undefined            (* undefined behaviour was reached *)
| Diverge.             (* the call does not return *)
Arguments Ret {A} a.
Arguments Exit {A} code.
Arguments Undefined {A}.
Arguments Diverge {A}.

Definition outcome_bind {A B : Type} (f : A -> outcome B) (m : outcome A)
  : outcome B :=
  match m with
  | Ret a => f a
  | Exit c => Exit c
  | Undefined => Undefined
  | Diverge => Diverge
  end.

#[global] Instance outcome_ret : MRet outcome := fun _ a => Ret a.
#[global] Instance outcome_mbind : MBind outcome := fun _ _ f m => outcome_bind f m.

(** ** Machine integers *)

Definition wrap_unsigned (bits : Z) (x : Z) : Z := x mod 2 ^ bits.

Definition wrap_signed (bits : Z) (x : Z) : Z :=
  (x + 2 ^ (bits - 1)) mod 2 ^ bits - 2 ^ (bits - 1).

(** [long] is 64 bits wide on the LP64 targets the library is built for. *)
Definition long_add (x y : Z) : Z := wrap_signed 64 (x + y).

(** ** Comparisons of doubles *)

Definition double_lt (x y : R) : bool := if Rlt_dec x y then true else false.
Definition double_gt (x y : R) : bool := double_lt y x.

(** ** [std::vector] *)

Section vector.
Context {A : Type}.

(** [v[k]] as an rvalue. *)
Definition vec_at (v : list A) (k : Z) : outcome A :=
  if decide (0 <= k)
  then match v !! Z.to_nat k with
       | Some x => Ret x
       | None => Undefined
       end
  else Undefined.

(** [v[k] = f (v[k])], the shape of [v[k] += x] and [v[k]++]. *)
Definition vec_update (f : A -> A) (v : list A) (k : Z) : outcome (list A) :=
  x ← vec_at v k; Ret (<[Z.to_nat k := f x]> v).

(** [v.size()] *)
Definition vec_size (v : list A) : Z := Z.of_nat (length v).
End vector.

(** ** Counting loops: [for (int k = lo; k < hi; k++) body] *)

Fixpoint for_count {St : Type} (count : nat) (k : Z)
    (body : Z -> St -> outcome St) (s : St) : outcome St :=
  match count with
  | O => Ret s
  | S c => s' ← body k s; for_count c (k + 1) body s'
  end.

Definition for_range {St : Type} (lo hi : Z) (body : Z -> St -> outcome St)
    (s : St) : outcome St :=
  for_count (Z.to_nat (hi - lo)) lo body s.

(** * The model *)

(** ** [class angular_bin] (src/s2omp/angular_bin-inl.h) *)

Module angular_bin.

Local Open Scope R_scope.

Inductive Counter : Type := GAL_GAL | GAL_RAND | RAND_GAL | RAND_RAND.

Record angular_bin : Type := mk_angular_bin {
  theta_min_ : R; theta_max_ : R; theta_ : R;
  costheta_min_ : R; costheta_max_ : R; sin2theta_min_ : R; sin2theta_max_ : R;
  pair_weight_ : R; gal_gal_ : R; gal_rand_ : R; rand_gal_ : R; rand_rand_ : R;
  pixel_wtheta_ : R; pixel_weight_ : R; wtheta_ : R; wtheta_error_ : R;
  pair_count_ : Z;
  pair_weight_region_ : list R; gal_gal_region_ : list R;
  gal_rand_region_ : list R; rand_gal_region_ : list R; rand_rand_region_ : list R;
  pixel_wtheta_region_ : list R; pixel_weight_region_ : list R;
  wtheta_region_ : list R; wtheta_error_region_ : list R;
  pair_counts_region_ : list Z;
  level_ : Z;
  n_region_ : Z;
  set_wtheta_error_ : bool; set_wtheta_ : bool
}.

(** Field updates.  An assignment [x_ = v] is [set_x v]. *)

Definition set_pair_weight (v : R) (b : angular_bin) : angular_bin :=
  {| theta_min_ := theta_min_ b; theta_max_ := theta_max_ b;
     theta_ := theta_ b; costheta_min_ := costheta_min_ b;
     costheta_max_ := costheta_max_ b; sin2theta_min_ := sin2theta_min_ b;
     sin2theta_max_ := sin2theta_max_ b; pair_weight_ := v;
     gal_gal_ := gal_gal_ b; gal_rand_ := gal_rand_ b;
     rand_gal_ := rand_gal_ b; rand_rand_ := rand_rand_ b;
     pixel_wtheta_ := pixel_wtheta_ b; pixel_weight_ := pixel_weight_ b;
     wtheta_ := wtheta_ b; wtheta_error_ := wtheta_error_ b;
     pair_count_ := pair_count_ b;
     pair_weight_region_ := pair_weight_region_ b;
     gal_gal_region_ := gal_gal_region_ b;
     gal_rand_region_ := gal_rand_region_ b;
     rand_gal_region_ := rand_gal_region_ b;
     rand_rand_region_ := rand_rand_region_ b;
     pixel_wtheta_region_ := pixel_wtheta_region_ b;
     pixel_weight_region_ := pixel_weight_region_ b;
     wtheta_region_ := wtheta_region_ b;
     wtheta_error_region_ := wtheta_error_region_ b;
     pair_counts_region_ := pair_counts_region_ b; level_ := level_ b;
     n_region_ := n_region_ b; set_wtheta_error_ := set_wtheta_error_ b;
     set_wtheta_ := set_wtheta_ b |}.

Definition set_pair_count (v : Z) (b : angular_bin) : angular_bin :=
  {| theta_min_ := theta_min_ b; theta_max_ := theta_max_ b;
     theta_ := theta_ b; costheta_min_ := costheta_min_ b;
     costheta_max_ := costheta_max_ b; sin2theta_min_ := sin2theta_min_ b;
     sin2theta_max_ := sin2theta_max_ b; pair_weight_ := pair_weight_ b;
     gal_gal_ := gal_gal_ b; gal_rand_ := gal_rand_ b;
     rand_gal_ := rand_gal_ b; rand_rand_ := rand_rand_ b;
     pixel_wtheta_ := pixel_wtheta_ b; pixel_weight_ := pixel_weight_ b;
     wtheta_ := wtheta_ b; wtheta_error_ := wtheta_error_ b;
     pair_count_ := v; pair_weight_region_ := pair_weight_region_ b;
     gal_gal_region_ := gal_gal_region_ b;
     gal_rand_region_ := gal_rand_region_ b;
     rand_gal_region_ := rand_gal_region_ b;
     rand_rand_region_ := rand_rand_region_ b;
     pixel_wtheta_region_ := pixel_wtheta_region_ b;
     pixel_weight_region_ := pixel_weight_region_ b;
     wtheta_region_ := wtheta_region_ b;
     wtheta_error_region_ := wtheta_error_region_ b;
     pair_counts_region_ := pair_counts_region_ b; level_ := level_ b;
     n_region_ := n_region_ b; set_wtheta_error_ := set_wtheta_error_ b;
     set_wtheta_ := set_wtheta_ b |}.

Definition set_pixel_wtheta (v : R) (b : angular_bin) : angular_bin :=
  {| theta_min_ := theta_min_ b; theta_max_ := theta_max_ b;
     theta_ := theta_ b; costheta_min_ := costheta_min_ b;
     costheta_max_ := costheta_max_ b; sin2theta_min_ := sin2theta_min_ b;
     sin2theta_max_ := sin2theta_max_ b; pair_weight_ := pair_weight_ b;
     gal_gal_ := gal_gal_ b; gal_rand_ := gal_rand_ b;
     rand_gal_ := rand_gal_ b; rand_rand_ := rand_rand_ b;
     pixel_wtheta_ := v; pixel_weight_ := pixel_weight_ b;
     wtheta_ := wtheta_ b; wtheta_error_ := wtheta_error_ b;
     pair_count_ := pair_count_ b;
     pair_weight_region_ := pair_weight_region_ b;
     gal_gal_region_ := gal_gal_region_ b;
     gal_rand_region_ := gal_rand_region_ b;
     rand_gal_region_ := rand_gal_region_ b;
     rand_rand_region_ := rand_rand_region_ b;
     pixel_wtheta_region_ := pixel_wtheta_region_ b;
     pixel_weight_region_ := pixel_weight_region_ b;
     wtheta_region_ := wtheta_region_ b;
     wtheta_error_region_ := wtheta_error_region_ b;
     pair_counts_region_ := pair_counts_region_ b; level_ := level_ b;
     n_region_ := n_region_ b; set_wtheta_error_ := set_wtheta_error_ b;
     set_wtheta_ := set_wtheta_ b |}.

Definition set_pixel_weight (v : R) (b : angular_bin) : angular_bin :=
  {| theta_min_ := theta_min_ b; theta_max_ := theta_max_ b;
     theta_ := theta_ b; costheta_min_ := costheta_min_ b;
     costheta_max_ := costheta_max_ b; sin2theta_min_ := sin2theta_min_ b;
     sin2theta_max_ := sin2theta_max_ b; pair_weight_ := pair_weight_ b;
     gal_gal_ := gal_gal_ b; gal_rand_ := gal_rand_ b;
     rand_gal_ := rand_gal_ b; rand_rand_ := rand_rand_ b;
     pixel_wtheta_ := pixel_wtheta_ b; pixel_weight_ := v;
     wtheta_ := wtheta_ b; wtheta_error_ := wtheta_error_ b;
     pair_count_ := pair_count_ b;
     pair_weight_region_ := pair_weight_region_ b;
     gal_gal_region_ := gal_gal_region_ b;
     gal_rand_region_ := gal_rand_region_ b;
     rand_gal_region_ := rand_gal_region_ b;
     rand_rand_region_ := rand_rand_region_ b;
     pixel_wtheta_region_ := pixel_wtheta_region_ b;
     pixel_weight_region_ := pixel_weight_region_ b;
     wtheta_region_ := wtheta_region_ b;
     wtheta_error_region_ := wtheta_error_region_ b;
     pair_counts_region_ := pair_counts_region_ b; level_ := level_ b;
     n_region_ := n_region_ b; set_wtheta_error_ := set_wtheta_error_ b;
     set_wtheta_ := set_wtheta_ b |}.

Definition set_pair_weight_region (v : list R) (b : angular_bin) : angular_bin :=
  {| theta_min_ := theta_min_ b; theta_max_ := theta_max_ b;
     theta_ := theta_ b; costheta_min_ := costheta_min_ b;
     costheta_max_ := costheta_max_ b; sin2theta_min_ := sin2theta_min_ b;
     sin2theta_max_ := sin2theta_max_ b; pair_weight_ := pair_weight_ b;
     gal_gal_ := gal_gal_ b; gal_rand_ := gal_rand_ b;
     rand_gal_ := rand_gal_ b; rand_rand_ := rand_rand_ b;
     pixel_wtheta_ := pixel_wtheta_ b; pixel_weight_ := pixel_weight_ b;
     wtheta_ := wtheta_ b; wtheta_error_ := wtheta_error_ b;
     pair_count_ := pair_count_ b; pair_weight_region_ := v;
     gal_gal_region_ := gal_gal_region_ b;
     gal_rand_region_ := gal_rand_region_ b;
     rand_gal_region_ := rand_gal_region_ b;
     rand_rand_region_ := rand_rand_region_ b;
     pixel_wtheta_region_ := pixel_wtheta_region_ b;
     pixel_weight_region_ := pixel_weight_region_ b;
     wtheta_region_ := wtheta_region_ b;
     wtheta_error_region_ := wtheta_error_region_ b;
     pair_counts_region_ := pair_counts_region_ b; level_ := level_ b;
     n_region_ := n_region_ b; set_wtheta_error_ := set_wtheta_error_ b;
     set_wtheta_ := set_wtheta_ b |}.

Definition set_pair_counts_region (v : list Z) (b : angular_bin) : angular_bin :=
  {| theta_min_ := theta_min_ b; theta_max_ := theta_max_ b;
     theta_ := theta_ b; costheta_min_ := costheta_min_ b;
     costheta_max_ := costheta_max_ b; sin2theta_min_ := sin2theta_min_ b;
     sin2theta_max_ := sin2theta_max_ b; pair_weight_ := pair_weight_ b;
     gal_gal_ := gal_gal_ b; gal_rand_ := gal_rand_ b;
     rand_gal_ := rand_gal_ b; rand_rand_ := rand_rand_ b;
     pixel_wtheta_ := pixel_wtheta_ b; pixel_weight_ := pixel_weight_ b;
     wtheta_ := wtheta_ b; wtheta_error_ := wtheta_error_ b;
     pair_count_ := pair_count_ b;
     pair_weight_region_ := pair_weight_region_ b;
     gal_gal_region_ := gal_gal_region_ b;
     gal_rand_region_ := gal_rand_region_ b;
     rand_gal_region_ := rand_gal_region_ b;
     rand_rand_region_ := rand_rand_region_ b;
     pixel_wtheta_region_ := pixel_wtheta_region_ b;
     pixel_weight_region_ := pixel_weight_region_ b;
     wtheta_region_ := wtheta_region_ b;
     wtheta_error_region_ := wtheta_error_region_ b;
     pair_counts_region_ := v; level_ := level_ b; n_region_ := n_region_ b;
     set_wtheta_error_ := set_wtheta_error_ b; set_wtheta_ := set_wtheta_ b |}.

Definition set_pixel_wtheta_region (v : list R) (b : angular_bin) : angular_bin :=
  {| theta_min_ := theta_min_ b; theta_max_ := theta_max_ b;
     theta_ := theta_ b; costheta_min_ := costheta_min_ b;
     costheta_max_ := costheta_max_ b; sin2theta_min_ := sin2theta_min_ b;
     sin2theta_max_ := sin2theta_max_ b; pair_weight_ := pair_weight_ b;
     gal_gal_ := gal_gal_ b; gal_rand_ := gal_rand_ b;
     rand_gal_ := rand_gal_ b; rand_rand_ := rand_rand_ b;
     pixel_wtheta_ := pixel_wtheta_ b; pixel_weight_ := pixel_weight_ b;
     wtheta_ := wtheta_ b; wtheta_error_ := wtheta_error_ b;
     pair_count_ := pair_count_ b;
     pair_weight_region_ := pair_weight_region_ b;
     gal_gal_region_ := gal_gal_region_ b;
     gal_rand_region_ := gal_rand_region_ b;
     rand_gal_region_ := rand_gal_region_ b;
     rand_rand_region_ := rand_rand_region_ b; pixel_wtheta_region_ := v;
     pixel_weight_region_ := pixel_weight_region_ b;
     wtheta_region_ := wtheta_region_ b;
     wtheta_error_region_ := wtheta_error_region_ b;
     pair_counts_region_ := pair_counts_region_ b; level_ := level_ b;
     n_region_ := n_region_ b; set_wtheta_error_ := set_wtheta_error_ b;
     set_wtheta_ := set_wtheta_ b |}.

Definition set_pixel_weight_region (v : list R) (b : angular_bin) : angular_bin :=
  {| theta_min_ := theta_min_ b; theta_max_ := theta_max_ b;
     theta_ := theta_ b; costheta_min_ := costheta_min_ b;
     costheta_max_ := costheta_max_ b; sin2theta_min_ := sin2theta_min_ b;
     sin2theta_max_ := sin2theta_max_ b; pair_weight_ := pair_weight_ b;
     gal_gal_ := gal_gal_ b; gal_rand_ := gal_rand_ b;
     rand_gal_ := rand_gal_ b; rand_rand_ := rand_rand_ b;
     pixel_wtheta_ := pixel_wtheta_ b; pixel_weight_ := pixel_weight_ b;
     wtheta_ := wtheta_ b; wtheta_error_ := wtheta_error_ b;
     pair_count_ := pair_count_ b;
     pair_weight_region_ := pair_weight_region_ b;
     gal_gal_region_ := gal_gal_region_ b;
     gal_rand_region_ := gal_rand_region_ b;
     rand_gal_region_ := rand_gal_region_ b;
     rand_rand_region_ := rand_rand_region_ b;
     pixel_wtheta_region_ := pixel_wtheta_region_ b;
     pixel_weight_region_ := v; wtheta_region_ := wtheta_region_ b;
     wtheta_error_region_ := wtheta_error_region_ b;
     pair_counts_region_ := pair_counts_region_ b; level_ := level_ b;
     n_region_ := n_region_ b; set_wtheta_error_ := set_wtheta_error_ b;
     set_wtheta_ := set_wtheta_ b |}.

Definition set_level (v : Z) (b : angular_bin) : angular_bin :=
  {| theta_min_ := theta_min_ b; theta_max_ := theta_max_ b;
     theta_ := theta_ b; costheta_min_ := costheta_min_ b;
     costheta_max_ := costheta_max_ b; sin2theta_min_ := sin2theta_min_ b;
     sin2theta_max_ := sin2theta_max_ b; pair_weight_ := pair_weight_ b;
     gal_gal_ := gal_gal_ b; gal_rand_ := gal_rand_ b;
     rand_gal_ := rand_gal_ b; rand_rand_ := rand_rand_ b;
     pixel_wtheta_ := pixel_wtheta_ b; pixel_weight_ := pixel_weight_ b;
     wtheta_ := wtheta_ b; wtheta_error_ := wtheta_error_ b;
     pair_count_ := pair_count_ b;
     pair_weight_region_ := pair_weight_region_ b;
     gal_gal_region_ := gal_gal_region_ b;
     gal_rand_region_ := gal_rand_region_ b;
     rand_gal_region_ := rand_gal_region_ b;
     rand_rand_region_ := rand_rand_region_ b;
     pixel_wtheta_region_ := pixel_wtheta_region_ b;
     pixel_weight_region_ := pixel_weight_region_ b;
     wtheta_region_ := wtheta_region_ b;
     wtheta_error_region_ := wtheta_error_region_ b;
     pair_counts_region_ := pair_counts_region_ b; level_ := v;
     n_region_ := n_region_ b; set_wtheta_error_ := set_wtheta_error_ b;
     set_wtheta_ := set_wtheta_ b |}.

Definition set_gal_gal (v : R) (b : angular_bin) : angular_bin :=
  {| theta_min_ := theta_min_ b; theta_max_ := theta_max_ b;
     theta_ := theta_ b; costheta_min_ := costheta_min_ b;
     costheta_max_ := costheta_max_ b; sin2theta_min_ := sin2theta_min_ b;
     sin2theta_max_ := sin2theta_max_ b; pair_weight_ := pair_weight_ b;
     gal_gal_ := v; gal_rand_ := gal_rand_ b; rand_gal_ := rand_gal_ b;
     rand_rand_ := rand_rand_ b; pixel_wtheta_ := pixel_wtheta_ b;
     pixel_weight_ := pixel_weight_ b; wtheta_ := wtheta_ b;
     wtheta_error_ := wtheta_error_ b; pair_count_ := pair_count_ b;
     pair_weight_region_ := pair_weight_region_ b;
     gal_gal_region_ := gal_gal_region_ b;
     gal_rand_region_ := gal_rand_region_ b;
     rand_gal_region_ := rand_gal_region_ b;
     rand_rand_region_ := rand_rand_region_ b;
     pixel_wtheta_region_ := pixel_wtheta_region_ b;
     pixel_weight_region_ := pixel_weight_region_ b;
     wtheta_region_ := wtheta_region_ b;
     wtheta_error_region_ := wtheta_error_region_ b;
     pair_counts_region_ := pair_counts_region_ b; level_ := level_ b;
     n_region_ := n_region_ b; set_wtheta_error_ := set_wtheta_error_ b;
     set_wtheta_ := set_wtheta_ b |}.

Definition set_gal_rand (v : R) (b : angular_bin) : angular_bin :=
  {| theta_min_ := theta_min_ b; theta_max_ := theta_max_ b;
     theta_ := theta_ b; costheta_min_ := costheta_min_ b;
     costheta_max_ := costheta_max_ b; sin2theta_min_ := sin2theta_min_ b;
     sin2theta_max_ := sin2theta_max_ b; pair_weight_ := pair_weight_ b;
     gal_gal_ := gal_gal_ b; gal_rand_ := v; rand_gal_ := rand_gal_ b;
     rand_rand_ := rand_rand_ b; pixel_wtheta_ := pixel_wtheta_ b;
     pixel_weight_ := pixel_weight_ b; wtheta_ := wtheta_ b;
     wtheta_error_ := wtheta_error_ b; pair_count_ := pair_count_ b;
     pair_weight_region_ := pair_weight_region_ b;
     gal_gal_region_ := gal_gal_region_ b;
     gal_rand_region_ := gal_rand_region_ b;
     rand_gal_region_ := rand_gal_region_ b;
     rand_rand_region_ := rand_rand_region_ b;
     pixel_wtheta_region_ := pixel_wtheta_region_ b;
     pixel_weight_region_ := pixel_weight_region_ b;
     wtheta_region_ := wtheta_region_ b;
     wtheta_error_region_ := wtheta_error_region_ b;
     pair_counts_region_ := pair_counts_region_ b; level_ := level_ b;
     n_region_ := n_region_ b; set_wtheta_error_ := set_wtheta_error_ b;
     set_wtheta_ := set_wtheta_ b |}.

Definition set_rand_gal (v : R) (b : angular_bin) : angular_bin :=
  {| theta_min_ := theta_min_ b; theta_max_ := theta_max_ b;
     theta_ := theta_ b; costheta_min_ := costheta_min_ b;
     costheta_max_ := costheta_max_ b; sin2theta_min_ := sin2theta_min_ b;
     sin2theta_max_ := sin2theta_max_ b; pair_weight_ := pair_weight_ b;
     gal_gal_ := gal_gal_ b; gal_rand_ := gal_rand_ b; rand_gal_ := v;
     rand_rand_ := rand_rand_ b; pixel_wtheta_ := pixel_wtheta_ b;
     pixel_weight_ := pixel_weight_ b; wtheta_ := wtheta_ b;
     wtheta_error_ := wtheta_error_ b; pair_count_ := pair_count_ b;
     pair_weight_region_ := pair_weight_region_ b;
     gal_gal_region_ := gal_gal_region_ b;
     gal_rand_region_ := gal_rand_region_ b;
     rand_gal_region_ := rand_gal_region_ b;
     rand_rand_region_ := rand_rand_region_ b;
     pixel_wtheta_region_ := pixel_wtheta_region_ b;
     pixel_weight_region_ := pixel_weight_region_ b;
     wtheta_region_ := wtheta_region_ b;
     wtheta_error_region_ := wtheta_error_region_ b;
     pair_counts_region_ := pair_counts_region_ b; level_ := level_ b;
     n_region_ := n_region_ b; set_wtheta_error_ := set_wtheta_error_ b;
     set_wtheta_ := set_wtheta_ b |}.

Definition set_rand_rand (v : R) (b : angular_bin) : angular_bin :=
  {| theta_min_ := theta_min_ b; theta_max_ := theta_max_ b;
     theta_ := theta_ b; costheta_min_ := costheta_min_ b;
     costheta_max_ := costheta_max_ b; sin2theta_min_ := sin2theta_min_ b;
     sin2theta_max_ := sin2theta_max_ b; pair_weight_ := pair_weight_ b;
     gal_gal_ := gal_gal_ b; gal_rand_ := gal_rand_ b;
     rand_gal_ := rand_gal_ b; rand_rand_ := v;
     pixel_wtheta_ := pixel_wtheta_ b; pixel_weight_ := pixel_weight_ b;
     wtheta_ := wtheta_ b; wtheta_error_ := wtheta_error_ b;
     pair_count_ := pair_count_ b;
     pair_weight_region_ := pair_weight_region_ b;
     gal_gal_region_ := gal_gal_region_ b;
     gal_rand_region_ := gal_rand_region_ b;
     rand_gal_region_ := rand_gal_region_ b;
     rand_rand_region_ := rand_rand_region_ b;
     pixel_wtheta_region_ := pixel_wtheta_region_ b;
     pixel_weight_region_ := pixel_weight_region_ b;
     wtheta_region_ := wtheta_region_ b;
     wtheta_error_region_ := wtheta_error_region_ b;
     pair_counts_region_ := pair_counts_region_ b; level_ := level_ b;
     n_region_ := n_region_ b; set_wtheta_error_ := set_wtheta_error_ b;
     set_wtheta_ := set_wtheta_ b |}.



Definition set_gal_gal_region (v : list R) (b : angular_bin) : angular_bin :=
  {| theta_min_ := theta_min_ b; theta_max_ := theta_max_ b;
     theta_ := theta_ b; costheta_min_ := costheta_min_ b;
     costheta_max_ := costheta_max_ b; sin2theta_min_ := sin2theta_min_ b;
     sin2theta_max_ := sin2theta_max_ b; pair_weight_ := pair_weight_ b;
     gal_gal_ := gal_gal_ b; gal_rand_ := gal_rand_ b;
     rand_gal_ := rand_gal_ b; rand_rand_ := rand_rand_ b;
     pixel_wtheta_ := pixel_wtheta_ b; pixel_weight_ := pixel_weight_ b;
     wtheta_ := wtheta_ b; wtheta_error_ := wtheta_error_ b;
     pair_count_ := pair_count_ b;
     pair_weight_region_ := pair_weight_region_ b; gal_gal_region_ := v;
     gal_rand_region_ := gal_rand_region_ b;
     rand_gal_region_ := rand_gal_region_ b;
     rand_rand_region_ := rand_rand_region_ b;
     pixel_wtheta_region_ := pixel_wtheta_region_ b;
     pixel_weight_region_ := pixel_weight_region_ b;
     wtheta_region_ := wtheta_region_ b;
     wtheta_error_region_ := wtheta_error_region_ b;
     pair_counts_region_ := pair_counts_region_ b; level_ := level_ b;
     n_region_ := n_region_ b; set_wtheta_error_ := set_wtheta_error_ b;
     set_wtheta_ := set_wtheta_ b |}.

Definition set_gal_rand_region (v : list R) (b : angular_bin) : angular_bin :=
  {| theta_min_ := theta_min_ b; theta_max_ := theta_max_ b;
     theta_ := theta_ b; costheta_min_ := costheta_min_ b;
     costheta_max_ := costheta_max_ b; sin2theta_min_ := sin2theta_min_ b;
     sin2theta_max_ := sin2theta_max_ b; pair_weight_ := pair_weight_ b;
     gal_gal_ := gal_gal_ b; gal_rand_ := gal_rand_ b;
     rand_gal_ := rand_gal_ b; rand_rand_ := rand_rand_ b;
     pixel_wtheta_ := pixel_wtheta_ b; pixel_weight_ := pixel_weight_ b;
     wtheta_ := wtheta_ b; wtheta_error_ := wtheta_error_ b;
     pair_count_ := pair_count_ b;
     pair_weight_region_ := pair_weight_region_ b;
     gal_gal_region_ := gal_gal_region_ b; gal_rand_region_ := v;
     rand_gal_region_ := rand_gal_region_ b;
     rand_rand_region_ := rand_rand_region_ b;
     pixel_wtheta_region_ := pixel_wtheta_region_ b;
     pixel_weight_region_ := pixel_weight_region_ b;
     wtheta_region_ := wtheta_region_ b;
     wtheta_error_region_ := wtheta_error_region_ b;
     pair_counts_region_ := pair_counts_region_ b; level_ := level_ b;
     n_region_ := n_region_ b; set_wtheta_error_ := set_wtheta_error_ b;
     set_wtheta_ := set_wtheta_ b |}.

Definition set_rand_gal_region (v : list R) (b : angular_bin) : angular_bin :=
  {| theta_min_ := theta_min_ b; theta_max_ := theta_max_ b;
     theta_ := theta_ b; costheta_min_ := costheta_min_ b;
     costheta_max_ := costheta_max_ b; sin2theta_min_ := sin2theta_min_ b;
     sin2theta_max_ := sin2theta_max_ b; pair_weight_ := pair_weight_ b;
     gal_gal_ := gal_gal_ b; gal_rand_ := gal_rand_ b;
     rand_gal_ := rand_gal_ b; rand_rand_ := rand_rand_ b;
     pixel_wtheta_ := pixel_wtheta_ b; pixel_weight_ := pixel_weight_ b;
     wtheta_ := wtheta_ b; wtheta_error_ := wtheta_error_ b;
     pair_count_ := pair_count_ b;
     pair_weight_region_ := pair_weight_region_ b;
     gal_gal_region_ := gal_gal_region_ b;
     gal_rand_region_ := gal_rand_region_ b; rand_gal_region_ := v;
     rand_rand_region_ := rand_rand_region_ b;
     pixel_wtheta_region_ := pixel_wtheta_region_ b;
     pixel_weight_region_ := pixel_weight_region_ b;
     wtheta_region_ := wtheta_region_ b;
     wtheta_error_region_ := wtheta_error_region_ b;
     pair_counts_region_ := pair_counts_region_ b; level_ := level_ b;
     n_region_ := n_region_ b; set_wtheta_error_ := set_wtheta_error_ b;
     set_wtheta_ := set_wtheta_ b |}.

Definition set_rand_rand_region (v : list R) (b : angular_bin) : angular_bin :=
  {| theta_min_ := theta_min_ b; theta_max_ := theta_max_ b;
     theta_ := theta_ b; costheta_min_ := costheta_min_ b;
     costheta_max_ := costheta_max_ b; sin2theta_min_ := sin2theta_min_ b;
     sin2theta_max_ := sin2theta_max_ b; pair_weight_ := pair_weight_ b;
     gal_gal_ := gal_gal_ b; gal_rand_ := gal_rand_ b;
     rand_gal_ := rand_gal_ b; rand_rand_ := rand_rand_ b;
     pixel_wtheta_ := pixel_wtheta_ b; pixel_weight_ := pixel_weight_ b;
     wtheta_ := wtheta_ b; wtheta_error_ := wtheta_error_ b;
     pair_count_ := pair_count_ b;
     pair_weight_region_ := pair_weight_region_ b;
     gal_gal_region_ := gal_gal_region_ b;
     gal_rand_region_ := gal_rand_region_ b;
     rand_gal_region_ := rand_gal_region_ b; rand_rand_region_ := v;
     pixel_wtheta_region_ := pixel_wtheta_region_ b;
     pixel_weight_region_ := pixel_weight_region_ b;
     wtheta_region_ := wtheta_region_ b;
     wtheta_error_region_ := wtheta_error_region_ b;
     pair_counts_region_ := pair_counts_region_ b; level_ := level_ b;
     n_region_ := n_region_ b; set_wtheta_error_ := set_wtheta_error_ b;
     set_wtheta_ := set_wtheta_ b |}.




(** All the per-region vectors and [n_region_] at once. *)
Definition set_regions (pw gg gr rg rr pxt pxw wt wte : list R) (pc : list Z)
    (n : Z) (b : angular_bin) : angular_bin :=
  {| theta_min_ := theta_min_ b; theta_max_ := theta_max_ b;
     theta_ := theta_ b; costheta_min_ := costheta_min_ b;
     costheta_max_ := costheta_max_ b; sin2theta_min_ := sin2theta_min_ b;
     sin2theta_max_ := sin2theta_max_ b; pair_weight_ := pair_weight_ b;
     gal_gal_ := gal_gal_ b; gal_rand_ := gal_rand_ b;
     rand_gal_ := rand_gal_ b; rand_rand_ := rand_rand_ b;
     pixel_wtheta_ := pixel_wtheta_ b; pixel_weight_ := pixel_weight_ b;
     wtheta_ := wtheta_ b; wtheta_error_ := wtheta_error_ b;
     pair_count_ := pair_count_ b; pair_weight_region_ := pw;
     gal_gal_region_ := gg; gal_rand_region_ := gr; rand_gal_region_ := rg;
     rand_rand_region_ := rr; pixel_wtheta_region_ := pxt;
     pixel_weight_region_ := pxw; wtheta_region_ := wt;
     wtheta_error_region_ := wte; pair_counts_region_ := pc;
     level_ := level_ b; n_region_ := n;
     set_wtheta_error_ := set_wtheta_error_ b; set_wtheta_ := set_wtheta_ b |}.

(** [clear_regions()] *)
Definition clear_regions (b : angular_bin) : angular_bin :=
  set_regions [] [] [] [] [] [] [] [] [] [] 0%Z b.

(** One turn of the loop of [init_regions]: a [push_back] on every vector. *)
Definition init_regions_push (b : angular_bin) : angular_bin :=
  set_regions
    (pair_weight_region_ b ++ [0]) (gal_gal_region_ b ++ [0])
    (gal_rand_region_ b ++ [0]) (rand_gal_region_ b ++ [0])
    (rand_rand_region_ b ++ [0]) (pixel_wtheta_region_ b ++ [0])
    (pixel_weight_region_ b ++ [0]) (wtheta_region_ b ++ [0])
    (wtheta_error_region_ b ++ [0]) (pair_counts_region_ b ++ [0%Z])
    (n_region_ b) b.

(** [init_regions(n_regions)] *)
Definition init_regions (n_regions : Z) (b : angular_bin) : angular_bin :=
  let b := clear_regions b in
  if decide (n_regions < 0)%Z then b
  else
    let b := set_regions
               (pair_weight_region_ b) (gal_gal_region_ b) (gal_rand_region_ b)
               (rand_gal_region_ b) (rand_rand_region_ b)
               (pixel_wtheta_region_ b) (pixel_weight_region_ b)
               (wtheta_region_ b) (wtheta_error_region_ b)
               (pair_counts_region_ b) n_regions b in
    Nat.iter (Z.to_nat n_regions) init_regions_push b.

(** [regions_initialized()]: every size test that fails ends in [exit(1)].
    The comparison is between a [size_t] and the [int] [n_region_]
    converted to it. *)
Definition regions_initialized (b : angular_bin) : outcome bool :=
  let n := wrap_unsigned 64 (n_region_ b) in
  if negb (vec_size (pair_weight_region_ b) =? n)%Z then Exit 1
  else if negb (vec_size (pair_counts_region_ b) =? n)%Z then Exit 1
  else if negb (vec_size (gal_gal_region_ b) =? n)%Z then Exit 1
  else if negb (vec_size (gal_rand_region_ b) =? n)%Z then Exit 1
  else if negb (vec_size (rand_gal_region_ b) =? n)%Z then Exit 1
  else if negb (vec_size (rand_rand_region_ b) =? n)%Z then Exit 1
  else if negb (vec_size (pixel_weight_region_ b) =? n)%Z then Exit 1
  else if negb (vec_size (pixel_wtheta_region_ b) =? n)%Z then Exit 1
  else Ret true.

(** The constructor [angular_bin(theta_min, theta_max, n_regions)], with the
    bodies of [set_theta_min] and [set_theta_max] in place.  [DEG_TO_RAD]
    comes from core.h, which is not among the sources.  The constructor
    leaves [theta_] without a value; the model puts [0] there. *)
Definition new_angular_bin (DEG_TO_RAD : R) (theta_min theta_max : R)
    (n_regions : Z) : angular_bin :=
  init_regions n_regions
    {| theta_min_ := theta_min; theta_max_ := theta_max; theta_ := 0;
       costheta_min_ := cos (theta_max * DEG_TO_RAD);
       costheta_max_ := cos (theta_min * DEG_TO_RAD);
       sin2theta_min_ := sin (theta_min * DEG_TO_RAD) * sin (theta_min * DEG_TO_RAD);
       sin2theta_max_ := sin (theta_max * DEG_TO_RAD) * sin (theta_max * DEG_TO_RAD);
       pair_weight_ := 0; gal_gal_ := 0; gal_rand_ := 0; rand_gal_ := 0;
       rand_rand_ := 0; pixel_wtheta_ := 0; pixel_weight_ := 0;
       wtheta_ := 0; wtheta_error_ := 0; pair_count_ := 0;
       pair_weight_region_ := []; gal_gal_region_ := [];
       gal_rand_region_ := []; rand_gal_region_ := [];
       rand_rand_region_ := []; pixel_wtheta_region_ := [];
       pixel_weight_region_ := []; wtheta_region_ := [];
       wtheta_error_region_ := []; pair_counts_region_ := [];
       level_ := -1; n_region_ := 0;
       set_wtheta_error_ := false; set_wtheta_ := false |}.

(** *** Deposits *)

(** [add_to_pixel_wtheta(dwtheta, dweight, region_a, region_b)] *)
Definition add_to_pixel_wtheta (dwtheta dweight : R) (region_a region_b : Z)
    (b : angular_bin) : outcome angular_bin :=
  let b := set_pixel_wtheta (pixel_wtheta_ b + dwtheta) b in
  let b := set_pixel_weight (pixel_weight_ b + dweight) b in
  if negb (region_a =? -1)%Z && negb (region_b =? -1)%Z then
    for_range 0 (n_region_ b) (fun k b =>
      if negb (k =? region_a)%Z && negb (k =? region_b)%Z then
        v ← vec_update (fun x => x + dwtheta) (pixel_wtheta_region_ b) k;
        let b := set_pixel_wtheta_region v b in
        v ← vec_update (fun x => x + dweight) (pixel_weight_region_ b) k;
        Ret (set_pixel_weight_region v b)
      else Ret b) b
  else Ret b.

(** [add_to_weight(weight, region_a, region_b)] *)
Definition add_to_weight (weight : R) (region_a region_b : Z)
    (b : angular_bin) : outcome angular_bin :=
  let b := set_pair_weight (pair_weight_ b + weight) b in
  if negb (region_a =? -1)%Z && negb (region_b =? -1)%Z then
    for_range 0 (n_region_ b) (fun k b =>
      if negb (k =? region_a)%Z && negb (k =? region_b)%Z then
        v ← vec_update (fun x => x + weight) (pair_weight_region_ b) k;
        Ret (set_pair_weight_region v b)
      else Ret b) b
  else Ret b.

(** [add_to_counter(step, region_a, region_b)] *)
Definition add_to_counter (step : Z) (region_a region_b : Z)
    (b : angular_bin) : outcome angular_bin :=
  let b := set_pair_count (long_add (pair_count_ b) step) b in
  if negb (region_a =? -1)%Z && negb (region_b =? -1)%Z then
    for_range 0 (n_region_ b) (fun k b =>
      if negb (k =? region_a)%Z && negb (k =? region_b)%Z then
        v ← vec_update (fun x => long_add x step) (pair_counts_region_ b) k;
        Ret (set_pair_counts_region v b)
      else Ret b) b
  else Ret b.

(** [add_to_pair_wtheta(weight, step, region_a, region_b)] *)
Definition add_to_pair_wtheta (weight : R) (step : Z) (region_a region_b : Z)
    (b : angular_bin) : outcome angular_bin :=
  let b := set_pair_weight (pair_weight_ b + weight) b in
  let b := set_pair_count (long_add (pair_count_ b) step) b in
  if negb (region_a =? -1)%Z && negb (region_b =? -1)%Z then
    for_range 0 (n_region_ b) (fun k b =>
      if negb (k =? region_a)%Z && negb (k =? region_b)%Z then
        v ← vec_update (fun x => x + weight) (pair_weight_region_ b) k;
        let b := set_pair_weight_region v b in
        v ← vec_update (fun x => long_add x step) (pair_counts_region_ b) k;
        Ret (set_pair_counts_region v b)
      else Ret b) b
  else Ret b.

(** The overloads without regions. *)





(** *** The estimators *)

(** [wtheta()] *)
Definition wtheta (b : angular_bin) : R :=
  if set_wtheta_ b then wtheta_ b
  else if (level_ b =? -1)%Z
       then (gal_gal_ b - gal_rand_ b - rand_gal_ b + rand_rand_ b) / rand_rand_ b
       else pixel_wtheta_ b / pixel_weight_ b.

(** [wtheta(region)] *)
Definition wtheta_region (region : Z) (b : angular_bin) : outcome R :=
  if set_wtheta_ b then
    if (region =? -1)%Z then Ret (wtheta_ b)
    else if (region <? n_region_ b)%Z then vec_at (wtheta_region_ b) region
    else Ret (-1)
  else if (level_ b =? -1)%Z then
    if (region =? -1)%Z
    then Ret ((gal_gal_ b - gal_rand_ b - rand_gal_ b + rand_rand_ b)
              / rand_rand_ b)
    else if (region <? n_region_ b)%Z then
      gg ← vec_at (gal_gal_region_ b) region;
      gr ← vec_at (gal_rand_region_ b) region;
      rg ← vec_at (rand_gal_region_ b) region;
      rr ← vec_at (rand_rand_region_ b) region;
      rr' ← vec_at (rand_rand_region_ b) region;
      Ret ((gg - gr - rg + rr) / rr')
    else Ret (-1)
  else
    if (region =? -1)%Z then Ret (pixel_wtheta_ b / pixel_weight_ b)
    else if (region <? n_region_ b)%Z then
      pt ← vec_at (pixel_wtheta_region_ b) region;
      pw ← vec_at (pixel_weight_region_ b) region;
      Ret (pt / pw)
    else Ret (-1).

(** [mean_wtheta()] *)
Definition mean_wtheta (b : angular_bin) : outcome R :=
  for_range 0 (n_region_ b) (fun k mean_wtheta =>
    w ← wtheta_region k b;
    Ret (mean_wtheta + w / (1 * IZR (n_region_ b)))) 0.

(** [mean_wtheta_error()] *)
Definition mean_wtheta_error (b : angular_bin) : outcome R :=
  avg_wtheta ← mean_wtheta b;
  mean_wtheta_error ← for_range 0 (n_region_ b) (fun k mean_wtheta_error =>
    w ← wtheta_region k b;
    w' ← wtheta_region k b;
    Ret (mean_wtheta_error + (avg_wtheta - w) * (avg_wtheta - w'))) 0;
  Ret (if (n_region_ b =? 0)%Z then 0
       else (IZR (n_region_ b) - 1) * sqrt mean_wtheta_error
            / IZR (n_region_ b)).

(** *** Level selection *)

Section core.
(** [MAX_LEVEL], [double_ge] and [double_le] come from core.h and
    [pixel::average_area] from pixel.h; neither header is part of the
    sources at hand, so they are parameters of the model. *)
Variable MAX_LEVEL : Z.
Variable average_area : Z -> R.
Variables double_ge double_le : R -> R -> bool.

(** [is_within_bounds(theta)] *)
Definition is_within_bounds (theta : R) (b : angular_bin) : bool :=
  double_ge theta (theta_min_ b) && double_le theta (theta_max_ b).

(** The loop of [find_level], [count] levels from [level] on, with its
    [break]. *)
Fixpoint find_level_loop (count : nat) (level : Z) (b : angular_bin)
  : angular_bin :=
  match count with
  | O => b
  | S c =>
      let scale := sqrt (2 * average_area level) in
      if is_within_bounds scale b || double_lt scale (theta_min_ b)
      then set_level level b
      else find_level_loop c (level + 1)%Z b
  end.

(** [find_level()] *)
Definition find_level (b : angular_bin) : angular_bin :=
  find_level_loop (Z.to_nat MAX_LEVEL) 0%Z (set_level (-1)%Z b).
End core.

(** *** Moving, rescaling and resetting the pair sums *)

(** The scalar and the vector of a [Counter]. *)
Definition counter_sum (c : Counter) (b : angular_bin) : R :=
  match c with
  | GAL_GAL => gal_gal_ b
  | GAL_RAND => gal_rand_ b
  | RAND_GAL => rand_gal_ b
  | RAND_RAND => rand_rand_ b
  end.

Definition counter_region (c : Counter) (b : angular_bin) : list R :=
  match c with
  | GAL_GAL => gal_gal_region_ b
  | GAL_RAND => gal_rand_region_ b
  | RAND_GAL => rand_gal_region_ b
  | RAND_RAND => rand_rand_region_ b
  end.

Definition set_counter_sum (c : Counter) (v : R) (b : angular_bin)
  : angular_bin :=
  match c with
  | GAL_GAL => set_gal_gal v b
  | GAL_RAND => set_gal_rand v b
  | RAND_GAL => set_rand_gal v b
  | RAND_RAND => set_rand_rand v b
  end.

Definition set_counter_region (c : Counter) (v : list R) (b : angular_bin)
  : angular_bin :=
  match c with
  | GAL_GAL => set_gal_gal_region v b
  | GAL_RAND => set_gal_rand_region v b
  | RAND_GAL => set_rand_gal_region v b
  | RAND_RAND => set_rand_rand_region v b
  end.




(** [reset_pixel_wtheta()] *)
Definition reset_pixel_wtheta (b : angular_bin) : outcome angular_bin :=
  let b := set_pixel_wtheta 0 b in
  let b := set_pixel_weight 0 b in
  if (0 <? n_region_ b)%Z then
    for_range 0 (n_region_ b) (fun k b =>
      v ← vec_update (fun _ => 0) (pixel_wtheta_region_ b) k;
      let b := set_pixel_wtheta_region v b in
      v ← vec_update (fun _ => 0) (pixel_weight_region_ b) k;
      Ret (set_pixel_weight_region v b)) b
  else Ret b.

(** [reset_weight()] *)
Definition reset_weight (b : angular_bin) : outcome angular_bin :=
  let b := set_pair_weight 0 b in
  if (0 <? n_region_ b)%Z then
    for_range 0 (n_region_ b) (fun k b =>
      v ← vec_update (fun _ => 0) (pair_weight_region_ b) k;
      Ret (set_pair_weight_region v b)) b
  else Ret b.

(** [reset_counter()] *)
Definition reset_counter (b : angular_bin) : outcome angular_bin :=
  let b := set_pair_count 0%Z b in
  if (0 <? n_region_ b)%Z then
    for_range 0 (n_region_ b) (fun k b =>
      v ← vec_update (fun _ => 0%Z) (pair_counts_region_ b) k;
      Ret (set_pair_counts_region v b)) b
  else Ret b.

(** [reset_pair_counts(c)] *)
Definition reset_pair_counts (c : Counter) (b : angular_bin)
  : outcome angular_bin :=
  let b := set_counter_sum c 0 b in
  if (0 <? n_region_ b)%Z then
    for_range 0 (n_region_ b) (fun k b =>
      v ← vec_update (fun _ => 0) (counter_region c b) k;
      Ret (set_counter_region c v b)) b
  else Ret b.

(** *** The getters with a region *)

(** The shape all of them share:
    [region == -1 ? global : (region < n_region_ ? vector[region] : -1)]. *)
Definition region_getter {A : Type} (global : A) (v : list A) (sentinel : A)
    (region : Z) (b : angular_bin) : outcome A :=
  if (region =? -1)%Z then Ret global
  else if (region <? n_region_ b)%Z then vec_at v region
  else Ret sentinel.

(** [pixel_wtheta(region)] *)
Definition pixel_wtheta_at (region : Z) (b : angular_bin) : outcome R :=
  region_getter (pixel_wtheta_ b) (pixel_wtheta_region_ b) (-1) region b.

(** [pixel_weight(region)] *)
Definition pixel_weight_at (region : Z) (b : angular_bin) : outcome R :=
  region_getter (pixel_weight_ b) (pixel_weight_region_ b) (-1) region b.

(** [pair_weight(region)] *)
Definition pair_weight_at (region : Z) (b : angular_bin) : outcome R :=
  region_getter (pair_weight_ b) (pair_weight_region_ b) (-1) region b.

(** [pair_counts(region)] *)
Definition pair_counts_at (region : Z) (b : angular_bin) : outcome Z :=
  region_getter (pair_count_ b) (pair_counts_region_ b) (-1)%Z region b.


(** [pair_weight(c, region)] *)
Definition pair_weight_counter_at (c : Counter) (region : Z) (b : angular_bin)
  : outcome R :=
  region_getter (counter_sum c b) (counter_region c b) (-1) region b.

(** [wtheta_error()] *)
Definition wtheta_error (b : angular_bin) : R :=
  if set_wtheta_error_ b then wtheta_error_ b
  else if (level_ b =? -1)%Z then 1 / sqrt (gal_gal_ b)
       else 1 / sqrt (pixel_weight_ b).

(** [wtheta_error(region)]; its test of the level is [level_ == 0]. *)
Definition wtheta_error_region (region : Z) (b : angular_bin) : outcome R :=
  if set_wtheta_error_ b then
    region_getter (wtheta_error_ b) (wtheta_error_region_ b) (-1) region b
  else if (level_ b =? 0)%Z then
    if (region =? -1)%Z then Ret (1 / sqrt (gal_gal_ b))
    else if (region <? n_region_ b)%Z then
      gg ← vec_at (gal_gal_region_ b) region; Ret (1 / sqrt gg)
    else Ret (-1)
  else
    if (region =? -1)%Z then Ret (1 / sqrt (pixel_weight_ b))
    else if (region <? n_region_ b)%Z then
      pw ← vec_at (pixel_weight_region_ b) region; Ret (1 / sqrt pw)
    else Ret (-1).

(** [weighted_cross_correlation()] *)
Definition weighted_cross_correlation (b : angular_bin) : R :=
  pair_weight_ b / IZR (pair_count_ b).

(** [weighted_cross_correlation(region)] *)
Definition weighted_cross_correlation_region (region : Z) (b : angular_bin)
  : outcome R :=
  if (region =? -1)%Z then Ret (pair_weight_ b / IZR (pair_count_ b))
  else if (region <? n_region_ b)%Z then
    pw ← vec_at (pair_weight_region_ b) region;
    pc ← vec_at (pair_counts_region_ b) region;
    Ret (pw / IZR pc)
  else Ret (-1).

(** *** The means over the regions *)

(** [mean_weighted_cross_correlation()] *)
Definition mean_weighted_cross_correlation (b : angular_bin) : outcome R :=
  for_range 0 (n_region_ b) (fun k mean =>
    pw ← vec_at (pair_weight_region_ b) k;
    pc ← vec_at (pair_counts_region_ b) k;
    Ret (mean + 1 * pw / IZR pc / (1 * IZR (n_region_ b)))) 0.

(** [mean_weighted_cross_correlation_error()] *)
Definition mean_weighted_cross_correlation_error (b : angular_bin) : outcome R :=
  avg ← mean_weighted_cross_correlation b;
  err ← for_range 0 (n_region_ b) (fun k err =>
    w ← weighted_cross_correlation_region k b;
    w' ← weighted_cross_correlation_region k b;
    Ret (err + (avg - w) * (avg - w'))) 0;
  Ret (if (n_region_ b =? 0)%Z then 0
       else (IZR (n_region_ b) - 1) * sqrt err / IZR (n_region_ b)).

(** [mean_weight()] *)
Definition mean_weight (b : angular_bin) : outcome R :=
  for_range 0 (n_region_ b) (fun k mean =>
    pw ← vec_at (pair_weight_region_ b) k;
    Ret (mean + pw / (1 * IZR (n_region_ b)))) 0.

(** [mean_counter()] *)
Definition mean_counter (b : angular_bin) : outcome R :=
  for_range 0 (n_region_ b) (fun k mean =>
    pc ← vec_at (pair_counts_region_ b) k;
    Ret (mean + 1 * IZR pc / (1 * IZR (n_region_ b)))) 0.

(** [mean_pair_counts(c)] *)
Definition mean_pair_counts (c : Counter) (b : angular_bin) : outcome R :=
  for_range 0 (n_region_ b) (fun k mean =>
    x ← vec_at (counter_region c b) k;
    Ret (mean + x / (1 * IZR (n_region_ b)))) 0.

(** *** The bounds in sine and cosine, the area, the orders *)

Section bounds.
Variables double_ge double_le : R -> R -> bool.
(** [PI] and [STRAD_TO_DEG2] of core.h. *)
Variable STRAD_TO_DEG2 : R.

(** [is_within_sin2_bounds(sin2theta)] *)
Definition is_within_sin2_bounds (sin2theta : R) (b : angular_bin) : bool :=
  double_ge sin2theta (sin2theta_min_ b) && double_le sin2theta (sin2theta_max_ b).

(** [is_within_cos_bounds(costheta)] *)
Definition is_within_cos_bounds (costheta : R) (b : angular_bin) : bool :=
  double_ge costheta (costheta_min_ b) && double_le costheta (costheta_max_ b).

(** [area()] *)
Definition area (b : angular_bin) : R :=
  (costheta_max_ b - costheta_min_ b) * 2 * PI * STRAD_TO_DEG2.

(** [poisson_noise(objects_per_square_degree, survey_area)] *)
Definition poisson_noise (objects_per_square_degree survey_area : R)
    (b : angular_bin) : R :=
  1 / sqrt (objects_per_square_degree * objects_per_square_degree
            * survey_area * area b).
End bounds.

(** *** The bounds of the bin *)

Section bin_bounds.
(** [DEG_TO_RAD] of core.h. *)
Variable DEG_TO_RAD : R.


End bin_bounds.

(** [theta_order], [sin_theta_order], [reverse_level_order] *)
Definition theta_order (theta_a theta_b : angular_bin) : bool :=
  double_lt (theta_min_ theta_a) (theta_min_ theta_b).

Definition sin_theta_order (theta_a theta_b : angular_bin) : bool :=
  double_lt (sin2theta_min_ theta_a) (sin2theta_min_ theta_b).

Definition reverse_level_order (theta_a theta_b : angular_bin) : bool :=
  (level_ theta_b <? level_ theta_a)%Z.

End angular_bin.

(** ** [class RegionMap] (src/stomp/stomp_base_map.cc) *)

(** Iterator loops: [for (it = v.begin(); it != v.end(); ++it) body]. *)
Fixpoint for_each {A St : Type} (l : list A) (body : A -> St -> outcome St)
    (s : St) : outcome St :=
  match l with
  | [] => Ret s
  | x :: l' => s' ← body x s; for_each l' body s'
  end.

(** The entries of a [std::map] in the order its iterators visit them. *)
Definition key_le {V : Type} (e1 e2 : Z * V) : Prop := e1.1 <= e2.1.

#[global] Instance key_le_dec {V : Type} (e1 e2 : Z * V) :
  Decision (key_le e1 e2) := Z_le_dec e1.1 e2.1.

Definition map_entries {V : Type} (m : gmap Z V) : list (Z * V) :=
  merge_sort key_le (map_to_list m).

(** [m.find(k) != m.end()] *)
Definition map_contains {V : Type} (m : gmap Z V) (k : Z) : bool :=
  bool_decide (is_Some (m !! k)).

(** [m[k]] as an rvalue: a key that is absent is inserted with the value
    [zero]. *)
Definition map_index {V : Type} (zero : V) (m : gmap Z V) (k : Z)
  : V * gmap Z V :=
  match m !! k with
  | Some v => (v, m)
  | None => (zero, <[k := zero]> m)
  end.

(** Conversion of a [double] to [uint8_t]: the fractional part is dropped,
    and the behaviour is undefined when the result is not a [uint8_t]. *)
Definition double_truncate (x : R) : Z :=
  if Rle_dec 0 x then Int_part x else - Int_part (- x)%R.

Definition double_to_uint8 (x : R) : outcome Z :=
  let t := double_truncate x in
  if decide (0 <= t <= 255) then Ret t else Undefined.

Module RegionMap.

(** The classes [Pixel], [AngularCoordinate] and [BaseMap] are declared in
    headers that are not among the sources.  An object of each is modelled
    by what the code at hand observes of it. *)

(** [Pixel]: [Pixnum()], [Weight()] and [Stripe(resolution)]. *)
Record Pixel : Type := {
  Pixnum : Z;
  Weight : R;
  Stripe : Z -> Z
}.

(** [AngularCoordinate]: the pixel that [Pixel(ang, resolution, weight)]
    constructs from it. *)
Record AngularCoordinate : Type := {
  pixel_at : Z -> R -> Pixel
}.

(** [BaseMap]: the virtual methods [Area()], [MaxResolution()] and
    [Coverage(superpix, resolution)], the latter by the vector it fills. *)
Record BaseMap : Type := {
  Area : R;
  MaxResolution : Z;
  Coverage : Z -> list Pixel
}.

Record section : Type := { min_stripe : Z; max_stripe : Z }.

Definition set_max_stripe (v : Z) (s : section) : section :=
  {| min_stripe := min_stripe s; max_stripe := v |}.

Record RegionMap : Type := {
  region_map_ : gmap Z Z;        (* std::map<uint32_t, int16_t> *)
  region_area_ : gmap Z R;       (* std::map<int16_t, double> *)
  n_region_ : Z;
  region_resolution_ : Z
}.

Definition set_region_map (v : gmap Z Z) (rm : RegionMap) : RegionMap :=
  {| region_map_ := v; region_area_ := region_area_ rm;
     n_region_ := n_region_ rm; region_resolution_ := region_resolution_ rm |}.
Definition set_region_area (v : gmap Z R) (rm : RegionMap) : RegionMap :=
  {| region_map_ := region_map_ rm; region_area_ := v;
     n_region_ := n_region_ rm; region_resolution_ := region_resolution_ rm |}.
Definition set_n_region (v : Z) (rm : RegionMap) : RegionMap :=
  {| region_map_ := region_map_ rm; region_area_ := region_area_ rm;
     n_region_ := v; region_resolution_ := region_resolution_ rm |}.
Definition set_region_resolution (v : Z) (rm : RegionMap) : RegionMap :=
  {| region_map_ := region_map_ rm; region_area_ := region_area_ rm;
     n_region_ := n_region_ rm; region_resolution_ := v |}.

(** [ClearRegions()] *)
Definition ClearRegions (rm : RegionMap) : RegionMap :=
  set_region_resolution 0 (set_n_region 0 (set_region_map ∅ rm)).

(** The state of a [RegionMap] after its constructor: the two maps are
    default-constructed and [ClearRegions] has run. *)
Definition new_RegionMap : RegionMap :=
  ClearRegions {| region_map_ := ∅; region_area_ := ∅;
                  n_region_ := 0; region_resolution_ := 0 |}.

Section stomp_core.
(** [Pixel::PixelArea(resolution)] of stomp_pixel.h and the constants
    [Stomp::HPixResolution] and [Stomp::Nx0] of stomp_core.h. *)
Variable PixelArea : Z -> R.
Variable HPixResolution : Z.
Variable Nx0 : Z.

(** The [while] loop of [_FindRegionResolution].  A resolution that is
    not zero reaches 1024 within eleven doublings; [None] is the loop
    that never ends. *)
Fixpoint resolution_loop (fuel : nat) (target_area : R)
    (region_resolution : Z) : option Z :=
  match fuel with
  | O => None
  | S f =>
      if double_gt (PixelArea region_resolution) target_area
         && (region_resolution <? 1024)
      then resolution_loop f target_area
             (wrap_unsigned 32 (Z.shiftl region_resolution 1))
      else Some region_resolution
  end.

(** [_FindRegionResolution(base_map, n_region, region_resolution)] *)
Definition _FindRegionResolution (base_map : BaseMap) (n_region : Z)
    (region_resolution : Z) (rm : RegionMap) : outcome RegionMap :=
  region_resolution ←
    (if region_resolution =? 0 then
       let target_area := (Area base_map / IZR (50 * n_region))%R in
       match resolution_loop 12 target_area HPixResolution with
       | Some r => Ret r
       | None => Diverge
       end
     else Ret region_resolution);
  _ ← (if (256 <? region_resolution) && (2048 <? region_resolution)
       then Exit 1 else Ret ());
  let region_resolution :=
    if MaxResolution base_map <? region_resolution
    then MaxResolution base_map else region_resolution in
  Ret (set_region_resolution region_resolution rm).

(** [_FindUniqueStripes(coverage_pix, unique_stripes)]: the keys of
    [stripe_dict] in increasing order, then [sort]. *)
Definition _FindUniqueStripes (coverage_pix : list Pixel) (rm : RegionMap)
  : list Z :=
  let stripe_dict : gmap Z bool :=
    fold_left (fun d iter => <[Stripe iter (region_resolution_ rm) := true]> d)
      coverage_pix ∅ in
  let unique_stripes := (map_entries stripe_dict).*1 in
  merge_sort Z.le unique_stripes.

(** [_FindSections(unique_stripes, base_map_area, n_region, sectionVec)],
    in the three steps its comments name.  Stripe numbers and the
    counters that index a vector are far from the ends of their 32-bit
    types; the model leaves them in [Z]. *)

(** "First, we need to find the contiguous sets of stripes." *)
Definition contiguous_sections (unique_stripes : list Z)
  : outcome (list section) :=
  first ← vec_at unique_stripes 0;
  let tmp_section := {| min_stripe := first; max_stripe := first |} in
  '(contiguous_section, _) ←
    for_range 1 (vec_size unique_stripes) (fun i '(contiguous_section, j) =>
      cur ← vec_at unique_stripes i;
      prev ← vec_at unique_stripes (i - 1);
      if cur =? prev + 1 then
        cs ← vec_update (set_max_stripe cur) contiguous_section j;
        Ret (cs, j)
      else
        Ret (contiguous_section ++ [{| min_stripe := cur; max_stripe := cur |}],
             j + 1))
      ([tmp_section], 0);
  Ret contiguous_section.

(** "Now work out the width of the sections based on the rough
    dimensions of the BaseMap." *)
Definition section_width (base_map_area : R) (n_region : Z) (rm : RegionMap)
  : outcome Z :=
  let region_length := sqrt (base_map_area / IZR n_region) in
  region_width ←
    double_to_uint8
      (region_length * IZR Nx0 * IZR (region_resolution_ rm) / 360)%R;
  Ret (if region_width =? 0 then 1 else region_width).

(** The inner loop of the last step: the stripes of one contiguous
    section, cut every [region_width] stripes. *)
Definition break_section (region_width : Z) (iter : section)
    (st : list section * Z) : outcome (list section * Z) :=
  let '(sectionVec, j) := st in
  '(sectionVec, j, _) ←
    for_range (min_stripe iter) (max_stripe iter + 1)
      (fun stripe_iter '(sectionVec, j, section_iter) =>
         if section_iter =? region_width then
           Ret (sectionVec ++ [{| min_stripe := stripe_iter;
                                  max_stripe := stripe_iter |}],
                j + 1, 1)
         else
           sv ← vec_update (set_max_stripe stripe_iter) sectionVec j;
           Ret (sv, j, section_iter + 1))
      (sectionVec, j, region_width);
  Ret (sectionVec, j).

(** "Finally, we can apply this region width to our sections to find our
    final set of breakpoints." *)
Definition break_sections (region_width : Z) (contiguous_section : list section)
    (sectionVec : list section) : outcome (list section) :=
  '(sectionVec, _) ←
    for_each contiguous_section (break_section region_width) (sectionVec, -1);
  Ret sectionVec.

Definition _FindSections (unique_stripes : list Z) (base_map_area : R)
    (n_region : Z) (sectionVec : list section) (rm : RegionMap)
  : outcome (list section) :=
  contiguous_section ← contiguous_sections unique_stripes;
  region_width ← section_width base_map_area n_region rm;
  break_sections region_width contiguous_section sectionVec.

(** The local variables of [_Regionate] that its loops change. *)
Record regionate_locals : Type := {
  region_area : R;
  running_area : R;
  n_pixel : Z;
  region_iter : Z                (* int16_t *)
}.

(** The body of the loops of [_Regionate] for a pixel of the section. *)
Definition regionate_pixel (unit_area mean_area area_break : R) (n_region : Z)
    (iter : Pixel) (st : RegionMap * regionate_locals)
  : RegionMap * regionate_locals :=
  let '(rm, l) := st in
  if double_lt (region_area l + 0.75 * mean_area)%R
               (area_break * IZR (region_iter l + 1))%R
     || (region_iter l =? n_region - 1)
  then
    (set_region_map (<[Pixnum iter := region_iter l]> (region_map_ rm)) rm,
     {| region_area := (region_area l + Weight iter * unit_area)%R;
        running_area := (running_area l + Weight iter * unit_area)%R;
        n_pixel := wrap_unsigned 32 (n_pixel l + 1);
        region_iter := region_iter l |})
  else
    let rm := set_region_area
                (<[region_iter l := running_area l]> (region_area_ rm)) rm in
    let region_iter := wrap_signed 16 (region_iter l + 1) in
    (set_region_map (<[Pixnum iter := region_iter]> (region_map_ rm)) rm,
     {| region_area := (region_area l + Weight iter * unit_area)%R;
        running_area := (Weight iter * unit_area)%R;
        n_pixel := 1;
        region_iter := region_iter |}).

(** The test that selects the pixels of a section. *)
Definition in_section (rm : RegionMap) (s : section) (iter : Pixel) : bool :=
  (min_stripe s <=? Stripe iter (region_resolution_ rm))
  && (Stripe iter (region_resolution_ rm) <=? max_stripe s).

(** [_Regionate(coverage_pix, sectionVec, n_region, starting_region_index)] *)
Definition _Regionate (coverage_pix : list Pixel) (sectionVec : list section)
    (n_region : Z) (starting_region_index : Z) (rm : RegionMap) : RegionMap :=
  let unit_area := PixelArea (region_resolution_ rm) in
  let base_map_area :=
    fold_left (fun a iter => a + unit_area * Weight iter)%R coverage_pix 0%R in
  let mean_area := (base_map_area / IZR (vec_size coverage_pix))%R in
  let area_break := (base_map_area / IZR n_region)%R in
  let '(rm, l) :=
    fold_left (fun st section_iter =>
      fold_left (fun st iter =>
        if in_section (fst st) section_iter iter
        then regionate_pixel unit_area mean_area area_break n_region iter st
        else st) coverage_pix st)
      sectionVec
      (rm, {| region_area := 0%R; running_area := 0%R; n_pixel := 0;
              region_iter := starting_region_index |}) in
  set_region_area (<[region_iter l := running_area l]> (region_area_ rm)) rm.

(** The loop of [InitializeRegions] that checks the stored indices.
    [iter->second < n_region] compares two [int]s. *)
Definition check_regions (n_region : Z) (rm : RegionMap) : outcome (list Z) :=
  for_each (map_entries (region_map_ rm)) (fun iter region_count_check =>
    if iter.2 <? n_region
    then vec_update (fun c => wrap_unsigned 32 (c + 1)) region_count_check iter.2
    else Exit 2)
    (replicate (Z.to_nat n_region) 0).

(** The assignment of [InitializeRegions] when there are as many regions
    as pixels. *)
Definition one_region_per_pixel (coverage_pix : list Pixel) (rm : RegionMap)
  : RegionMap :=
  fst (fold_left (fun '(rm, i) iter =>
         (set_region_map (<[Pixnum iter := i]> (region_map_ rm)) rm,
          wrap_signed 16 (i + 1)))
       coverage_pix (rm, 0)).

(** [InitializeRegions(stomp_map, n_region, region_resolution)], up to the
    loop that checks the indices: the state of the map and the value of
    the local [n_region] there. *)
Definition assign_regions (stomp_map : BaseMap) (n_region : Z)
    (region_resolution : Z) (rm : RegionMap) : outcome (Z * RegionMap) :=
  let rm := ClearRegions rm in
  rm ← _FindRegionResolution stomp_map n_region region_resolution rm;
  let coverage_pix := Coverage stomp_map (region_resolution_ rm) in
  let n_region :=
    if vec_size coverage_pix <? n_region
    then wrap_unsigned 16 (wrap_unsigned 32 (vec_size coverage_pix))
    else n_region in
  if n_region =? vec_size coverage_pix then
    Ret (n_region, one_region_per_pixel coverage_pix rm)
  else
    let unique_stripes := _FindUniqueStripes coverage_pix rm in
    sectionVec ← _FindSections unique_stripes (Area stomp_map)
                   (wrap_unsigned 8 n_region) [] rm;
    (* Modelled from the spec: the fourth argument of [_Regionate] is left
       to its default, which the absent stomp_base_map.h declares; region
       indices are "in [0, N)", so the first one is 0. *)
    Ret (n_region,
         _Regionate coverage_pix sectionVec (wrap_unsigned 8 n_region) 0 rm).

(** [InitializeRegions(stomp_map, n_region, region_resolution)] *)
Definition InitializeRegions (stomp_map : BaseMap) (n_region : Z)
    (region_resolution : Z) (rm : RegionMap) : outcome (Z * RegionMap) :=
  '(n_region, rm) ← assign_regions stomp_map n_region region_resolution rm;
  _ ← check_regions n_region rm;
  let rm := set_n_region (wrap_unsigned 16 (Z.of_nat (size (region_area_ rm)))) rm in
  Ret (n_region_ rm, rm).

(** [FindRegion(ang)] *)
Definition FindRegion (ang : AngularCoordinate) (rm : RegionMap)
  : Z * RegionMap :=
  let tmp_pix := pixel_at ang (region_resolution_ rm) 1 in
  if map_contains (region_map_ rm) (Pixnum tmp_pix)
  then let '(r, m) := map_index 0 (region_map_ rm) (Pixnum tmp_pix) in
       (r, set_region_map m rm)
  else (-1, rm).

(** [Region(region_idx)] *)
Definition Region (region_idx : Z) (rm : RegionMap) : Z * RegionMap :=
  if map_contains (region_map_ rm) region_idx
  then let '(r, m) := map_index 0 (region_map_ rm) region_idx in
       (r, set_region_map m rm)
  else (-1, rm).


(** [NRegion()], [Resolution()], [Initialized()] *)
Definition NRegion (rm : RegionMap) : Z := n_region_ rm.

Definition Resolution (rm : RegionMap) : Z := region_resolution_ rm.

Definition Initialized (rm : RegionMap) : bool := 0 <? n_region_ rm.

(** [Pixel(resolution, pixnum, weight)] and [Pixel::SuperPix(resolution)]
    of stomp_pixel.h, and the call [Coverage(superpix, resolution,
    calculate_fraction)] with its third argument given. *)
Variable Pixel_of : Z -> Z -> R -> Pixel.
Variable SuperPix : Pixel -> Z -> Z.
Variable Coverage_fraction : BaseMap -> Z -> bool -> list Pixel.

(** [RegionArea(region_index, pix)], the overload that fills [pix]. *)
Definition RegionArea_pixels (region_index : Z) (rm : RegionMap) : list Pixel :=
  fold_left (fun pix iter =>
    if iter.2 =? region_index
    then pix ++ [Pixel_of (Resolution rm) iter.1 1%R]
    else pix)
    (map_entries (region_map_ rm)) [].

(** [InitializeRegions(base_map, stomp_map)], for a [stomp_map] that is
    another object than the map at hand.  [stomp_regions] is the
    [RegionMap] that [stomp_map] holds, to which its [RegionResolution],
    [NRegion] and [Region] go.  When a pixel has no region the body
    sets [iter = coverage_pix.end()], and the [++iter] of the loop then
    steps past the end of the vector. *)
Definition InitializeRegions_from (stomp_map : BaseMap)
    (stomp_regions : RegionMap) (rm : RegionMap)
  : outcome (bool * RegionMap * RegionMap) :=
  let initialized_region_map := true in
  let rm := if negb (bool_decide (region_map_ rm = ∅))
            then set_region_map ∅ rm else rm in
  let rm := set_region_resolution (Resolution stomp_regions) rm in
  let rm := set_n_region (NRegion stomp_regions) rm in
  let coverage_pix :=
    Coverage_fraction stomp_map (Resolution stomp_regions) false in
  '(initialized_region_map, rm, stomp_regions) ←
    for_each coverage_pix (fun iter '(initialized_region_map, rm, stomp_regions) =>
      let '(region, stomp_regions) :=
        Region (SuperPix iter (region_resolution_ rm)) stomp_regions in
      if negb (region =? -1) then
        Ret (initialized_region_map,
             set_region_map
               (<[SuperPix iter (region_resolution_ rm) := region]>
                  (region_map_ rm)) rm,
             stomp_regions)
      else Undefined)
      (initialized_region_map, rm, stomp_regions);
  let rm := if negb initialized_region_map
            then set_n_region (wrap_unsigned 16 (-1))
                   (set_region_resolution 0 rm)
            else rm in
  Ret (initialized_region_map, rm, stomp_regions).
End stomp_core.

End RegionMap.

(** ** [class field_union] (src/s2omp/field_union.h) *)

(** The header declares [calculate_mean_intensity], [convert_to_over_density]
    and [convert_from_over_density]; their bodies, and the class
    [field_pixel], are in files that are not among the sources.  They are
    modelled from the specification.  A quotient by zero is not a finite
    number and ends the conversion with [None]. *)

Module field_union.

Local Open Scope R_scope.












End field_union.

(** ** The parameters of the sphere index, as the specification gives them *)

Module sphere_index.

Local Open Scope R_scope.

(** Modelled from the spec: [MAX_LEVEL] of core.h.  "Every key has a unique
    level in [0, L_max] where L_max >= 30". *)
Definition MAX_LEVEL : Z := 30.

(** Modelled from the spec: [pixel::average_area] of pixel.h.  "Average area
    at level l equals total sphere area / (number of pixels at level l)",
    for "a cube-face quadtree" where "each level step quarters the pixel
    area": six faces, [4^level] pixels on each. *)
Definition average_area (level : Z) : R := 4 * PI / (6 * IZR (4 ^ level)).

(** Modelled from the spec: [double_ge] and [double_le] of core.h.  The
    bounds tests "use inclusive bounds with tolerance ~ 1e-10". *)
Definition tolerance : R := 1 / 10000000000.
Definition double_ge (x y : R) : bool :=
  if Rle_dec (y - tolerance) x then true else false.
Definition double_le (x y : R) : bool :=
  if Rle_dec x (y + tolerance) then true else false.

End sphere_index.

(** * Properties *)

(** ** Loops and vectors *)

Lemma bind_Ret {A B : Type} (a : A) (f : A -> outcome B) :
  (Ret a ≫= f) = f a.
Proof. reflexivity. Qed.

(** The invariant rule for counting loops whose body always returns. *)
Lemma for_count_inv {St : Type} (I : Z -> St -> Prop)
    (body : Z -> St -> outcome St) :
  forall (count : nat) (lo : Z) (s : St),
    I lo s ->
    (forall k s, lo <= k < lo + Z.of_nat count -> I k s ->
                 exists s', body k s = Ret s' /\ I (k + 1) s') ->
    exists s', for_count count lo body s = Ret s' /\ I (lo + Z.of_nat count) s'.
Proof.
  induction count as [|c IH]; intros lo s Hs Hbody.
  - exists s. split; [reflexivity|]. by rewrite Z.add_0_r.
  - destruct (Hbody lo s) as (s1 & Hb & H1); [lia|done|].
    destruct (IH (lo + 1) s1) as (s2 & Hl & H2); [done| |].
    + intros k s' Hk. apply Hbody. lia.
    + exists s2. split.
      * cbn [for_count]. by rewrite Hb.
      * by replace (lo + Z.of_nat (S c)) with (lo + 1 + Z.of_nat c) by lia.
Qed.

Lemma for_range_inv {St : Type} (I : Z -> St -> Prop)
    (body : Z -> St -> outcome St)
    (lo hi : Z) (s : St) :
  lo <= hi ->
  I lo s ->
  (forall k s, lo <= k < hi -> I k s ->
               exists s', body k s = Ret s' /\ I (k + 1) s') ->
  exists s', for_range lo hi body s = Ret s' /\ I hi s'.
Proof.
  intros Hle Hs Hbody. unfold for_range.
  destruct (for_count_inv I body (Z.to_nat (hi - lo)) lo s) as (s' & E & H);
    [done| |].
  - intros k s0 Hk. apply Hbody. lia.
  - exists s'. split; [done|].
    by replace hi with (lo + Z.of_nat (Z.to_nat (hi - lo))) by lia.
Qed.

Lemma vec_at_Ret {A : Type} (v : list A) (k : Z) (x : A) :
  vec_at v k = Ret x <-> 0 <= k /\ v !! Z.to_nat k = Some x.
Proof.
  unfold vec_at. destruct (decide (0 <= k)); [|split; [done|intros []; lia]].
  destruct (v !! Z.to_nat k); split; intros H; try done.
  - by inversion H.
  - destruct H as [_ H]. by inversion H.
  - by destruct H.
Qed.

Lemma vec_at_in_range {A : Type} (v : list A) (k : Z) :
  0 <= k < vec_size v -> exists x, vec_at v k = Ret x.
Proof.
  unfold vec_size. intros Hk.
  destruct (lookup_lt_is_Some_2 v (Z.to_nat k)) as [x Hx]; [lia|].
  exists x. apply vec_at_Ret. split; [lia|done].
Qed.

(** ** Leave-one-out deposits *)

(** [deposited f a b k old new]: [new] is [old] with [f] applied at every
    index below [k] other than [a] and [b]. *)
Definition deposited {A : Type} (f : A -> A) (a b k : Z) (old new : list A)
  : Prop :=
  forall j : nat,
    new !! j = (fun x => if decide (Z.of_nat j < k /\ Z.of_nat j <> a /\ Z.of_nat j <> b)
                         then f x else x) <$> old !! j.

Lemma deposited_length {A : Type} (f : A -> A) a b k (old new : list A) :
  deposited f a b k old new -> length new = length old.
Proof.
  intros H. apply Nat.le_antisymm.
  - destruct (decide (length new <= length old)%nat) as [|Hn]; [done|].
    pose proof (H (length old)) as Hj.
    rewrite (lookup_ge_None_2 old) in Hj by lia. apply lookup_ge_None_1 in Hj. lia.
  - destruct (decide (length old <= length new)%nat) as [|Hn]; [done|].
    pose proof (H (length new)) as Hj.
    rewrite (lookup_ge_None_2 new) in Hj by lia.
    symmetry in Hj. apply fmap_None in Hj. apply lookup_ge_None_1 in Hj. lia.
Qed.

Lemma deposited_start {A : Type} (f : A -> A) a b (v : list A) :
  deposited f a b 0 v v.
Proof.
  intros j. destruct (v !! j); [|done]. cbn.
  destruct (decide _) as [[? _]|]; [lia|done].
Qed.

Lemma deposited_skip {A : Type} (f : A -> A) a b k (old new : list A) :
  k = a \/ k = b ->
  deposited f a b k old new -> deposited f a b (k + 1) old new.
Proof.
  intros Hk H j. rewrite (H j). destruct (old !! j); [|done]. cbn.
  f_equal. repeat destruct (decide _); try done; exfalso; lia.
Qed.

Lemma deposited_step {A : Type} (f : A -> A) a b k (old new : list A) :
  0 <= k < vec_size old -> k <> a -> k <> b ->
  deposited f a b k old new ->
  exists v, vec_update f new k = Ret v /\ deposited f a b (k + 1) old v.
Proof.
  intros Hk Ha Hb H. unfold vec_size in Hk.
  pose proof (deposited_length _ _ _ _ _ _ H) as Hlen.
  destruct (lookup_lt_is_Some_2 old (Z.to_nat k)) as [x Hx]; [lia|].
  assert (new !! Z.to_nat k = Some x) as Hn.
  { rewrite (H (Z.to_nat k)), Hx. cbn. destruct (decide _) as [[? _]|]; [lia|done]. }
  exists (<[Z.to_nat k := f x]> new). split.
  - unfold vec_update.
    assert (vec_at new k = Ret x) as -> by (apply vec_at_Ret; split; [lia|done]).
    reflexivity.
  - intros j. destruct (decide (j = Z.to_nat k)) as [->|Hj].
    + rewrite list_lookup_insert_eq by lia. rewrite Hx. cbn.
      destruct (decide _) as [|Hn']; [done|]. exfalso. apply Hn'. lia.
    + rewrite list_lookup_insert_ne by done. rewrite (H j).
      destruct (old !! j); [|done]. cbn. f_equal.
      repeat destruct (decide _); try done; exfalso; lia.
Qed.

(** What a completed deposit loop says about each region [k]. *)
Lemma deposited_at {A : Type} (f : A -> A) a b (old new : list A) k :
  deposited f a b (vec_size old) old new ->
  0 <= k < vec_size old ->
  exists x, vec_at old k = Ret x /\
            vec_at new k = Ret (if decide (k <> a /\ k <> b) then f x else x).
Proof.
  intros H Hk. destruct (vec_at_in_range old k Hk) as [x Hx].
  exists x. split; [done|]. apply vec_at_Ret in Hx as [_ Hx].
  apply vec_at_Ret. split; [lia|]. rewrite (H (Z.to_nat k)), Hx. cbn.
  f_equal. repeat destruct (decide _); try done; exfalso; lia.
Qed.

Import angular_bin.

Definition int_max : Z := 2147483647.

(** [leave_one_out f a b N old new]: between [old] and [new], every region
    [k] of [0 .. N-1] received [f] exactly when it is neither [a] nor [b]. *)
Definition leave_one_out {A : Type} (f : A -> A) (a b N : Z) (old new : list A)
  : Prop :=
  forall k, 0 <= k < N ->
    exists x, vec_at old k = Ret x /\
      (k <> a /\ k <> b -> vec_at new k = Ret (f x)) /\
      (k = a \/ k = b -> vec_at new k = Ret x).

Lemma deposited_leave_one_out {A : Type} (f : A -> A) a b N (old new : list A) :
  vec_size old = N ->
  deposited f a b N old new -> leave_one_out f a b N old new.
Proof.
  intros <- H k Hk. destruct (deposited_at f a b old new k H Hk) as (x & Hx & Hn).
  exists x. split; [done|]. destruct (decide _) as [Hd|Hd] in Hn.
  - split; [done|]. intros; exfalso; lia.
  - split; [intros; exfalso; tauto|done].
Qed.

(** The sizes that [regions_initialized] checks. *)
Lemma regions_initialized_sizes (b : angular_bin) :
  regions_initialized b = Ret true ->
  0 <= n_region_ b <= int_max ->
  vec_size (pair_weight_region_ b) = n_region_ b /\
  vec_size (pair_counts_region_ b) = n_region_ b /\
  vec_size (gal_gal_region_ b) = n_region_ b /\
  vec_size (gal_rand_region_ b) = n_region_ b /\
  vec_size (rand_gal_region_ b) = n_region_ b /\
  vec_size (rand_rand_region_ b) = n_region_ b /\
  vec_size (pixel_weight_region_ b) = n_region_ b /\
  vec_size (pixel_wtheta_region_ b) = n_region_ b.
Proof.
  unfold regions_initialized, wrap_unsigned, int_max. intros H Hn.
  rewrite Z.mod_small in H by lia.
  repeat match type of H with
         | (if negb (?x =? ?y) then _ else _) = _ =>
             destruct (Z.eqb_spec x y); cbn [negb] in H; [|discriminate H]
         end.
  repeat split; assumption.
Qed.

Lemma region_guard (a b : Z) :
  0 <= a -> 0 <= b -> negb (a =? -1) && negb (b =? -1) = true.
Proof. intros. destruct (Z.eqb_spec a (-1)), (Z.eqb_spec b (-1)); (done || lia). Qed.

Lemma deposit_test (k a b : Z) :
  negb (k =? a) && negb (k =? b) = bool_decide (k <> a /\ k <> b).
Proof.
  destruct (Z.eqb_spec k a), (Z.eqb_spec k b); cbn;
    by rewrite ?bool_decide_eq_true_2, ?bool_decide_eq_false_2 by tauto.
Qed.

Lemma add_to_weight_spec (w : R) (a rb : Z) (b : angular_bin) :
  vec_size (pair_weight_region_ b) = n_region_ b ->
  0 <= a -> 0 <= rb ->
  exists b', add_to_weight w a rb b = Ret b' /\
    pair_weight_ b' = (pair_weight_ b + w)%R /\
    deposited (fun x => (x + w)%R) a rb (n_region_ b)
      (pair_weight_region_ b) (pair_weight_region_ b').
Proof.
  intros Hsz Ha Hb. unfold add_to_weight. rewrite region_guard by done.
  cbn [n_region_ set_pair_weight].
  apply (for_range_inv (fun k b' =>
      pair_weight_ b' = (pair_weight_ b + w)%R /\
      deposited (fun x => (x + w)%R) a rb k
        (pair_weight_region_ b) (pair_weight_region_ b'))).
  - unfold vec_size in Hsz. lia.
  - split; [reflexivity|apply deposited_start].
  - intros k s Hk [Hg Hd]. rewrite deposit_test. case_bool_decide as Hc.
    + destruct (fun H => deposited_step _ a rb k _ _ H (proj1 Hc) (proj2 Hc) Hd)
        as (v & -> & Hv); [lia|].
      eexists. split; [reflexivity|]. split; [exact Hg|exact Hv].
    + exists s. split; [reflexivity|]. split; [exact Hg|].
      apply deposited_skip; [|exact Hd].
      destruct (decide (k = a)); [tauto|]. destruct (decide (k = rb)); tauto.
Qed.

Lemma add_to_counter_spec (step : Z) (a rb : Z) (b : angular_bin) :
  vec_size (pair_counts_region_ b) = n_region_ b ->
  0 <= a -> 0 <= rb ->
  exists b', add_to_counter step a rb b = Ret b' /\
    pair_count_ b' = long_add (pair_count_ b) step /\
    deposited (fun x => long_add x step) a rb (n_region_ b)
      (pair_counts_region_ b) (pair_counts_region_ b').
Proof.
  intros Hsz Ha Hb. unfold add_to_counter. rewrite region_guard by done.
  cbn [n_region_ set_pair_count].
  apply (for_range_inv (fun k b' =>
      pair_count_ b' = long_add (pair_count_ b) step /\
      deposited (fun x => long_add x step) a rb k
        (pair_counts_region_ b) (pair_counts_region_ b'))).
  - unfold vec_size in Hsz. lia.
  - split; [reflexivity|apply deposited_start].
  - intros k s Hk [Hg Hd]. rewrite deposit_test. case_bool_decide as Hc.
    + destruct (fun H => deposited_step _ a rb k _ _ H (proj1 Hc) (proj2 Hc) Hd)
        as (v & -> & Hv); [lia|].
      eexists. split; [reflexivity|]. split; [exact Hg|exact Hv].
    + exists s. split; [reflexivity|]. split; [exact Hg|].
      apply deposited_skip; [|exact Hd].
      destruct (decide (k = a)); [tauto|]. destruct (decide (k = rb)); tauto.
Qed.

Lemma add_to_pair_wtheta_spec (w : R) (step : Z) (a rb : Z) (b : angular_bin) :
  vec_size (pair_weight_region_ b) = n_region_ b ->
  vec_size (pair_counts_region_ b) = n_region_ b ->
  0 <= a -> 0 <= rb ->
  exists b', add_to_pair_wtheta w step a rb b = Ret b' /\
    pair_weight_ b' = (pair_weight_ b + w)%R /\
    pair_count_ b' = long_add (pair_count_ b) step /\
    deposited (fun x => (x + w)%R) a rb (n_region_ b)
      (pair_weight_region_ b) (pair_weight_region_ b') /\
    deposited (fun x => long_add x step) a rb (n_region_ b)
      (pair_counts_region_ b) (pair_counts_region_ b').
Proof.
  intros Hsw Hsc Ha Hb. unfold add_to_pair_wtheta. rewrite region_guard by done.
  cbn [n_region_ set_pair_count set_pair_weight].
  apply (for_range_inv (fun k b' =>
      pair_weight_ b' = (pair_weight_ b + w)%R /\
      pair_count_ b' = long_add (pair_count_ b) step /\
      deposited (fun x => (x + w)%R) a rb k
        (pair_weight_region_ b) (pair_weight_region_ b') /\
      deposited (fun x => long_add x step) a rb k
        (pair_counts_region_ b) (pair_counts_region_ b'))).
  - unfold vec_size in Hsw. lia.
  - repeat split; apply deposited_start.
  - intros k s Hk (Hw & Hc & Hdw & Hdc). rewrite deposit_test.
    case_bool_decide as Hne.
    + destruct (fun H => deposited_step _ a rb k _ _ H (proj1 Hne) (proj2 Hne) Hdw)
        as (v & -> & Hv); [lia|].
      destruct (fun H => deposited_step _ a rb k _ _ H (proj1 Hne) (proj2 Hne) Hdc)
        as (v' & Ev' & Hv'); [lia|].
      cbn. rewrite Ev'. eexists. split; [reflexivity|]. cbn. done.
    + exists s. split; [reflexivity|]. repeat split; try done;
        (apply deposited_skip; [|done]);
        (destruct (decide (k = a)); [tauto|]; destruct (decide (k = rb)); tauto).
Qed.

Lemma add_to_pixel_wtheta_spec (dwtheta dweight : R) (a rb : Z) (b : angular_bin) :
  vec_size (pixel_wtheta_region_ b) = n_region_ b ->
  vec_size (pixel_weight_region_ b) = n_region_ b ->
  0 <= a -> 0 <= rb ->
  exists b', add_to_pixel_wtheta dwtheta dweight a rb b = Ret b' /\
    pixel_wtheta_ b' = (pixel_wtheta_ b + dwtheta)%R /\
    pixel_weight_ b' = (pixel_weight_ b + dweight)%R /\
    deposited (fun x => (x + dwtheta)%R) a rb (n_region_ b)
      (pixel_wtheta_region_ b) (pixel_wtheta_region_ b') /\
    deposited (fun x => (x + dweight)%R) a rb (n_region_ b)
      (pixel_weight_region_ b) (pixel_weight_region_ b').
Proof.
  intros Hst Hsw Ha Hb. unfold add_to_pixel_wtheta. rewrite region_guard by done.
  cbn [n_region_ set_pixel_wtheta set_pixel_weight].
  apply (for_range_inv (fun k b' =>
      pixel_wtheta_ b' = (pixel_wtheta_ b + dwtheta)%R /\
      pixel_weight_ b' = (pixel_weight_ b + dweight)%R /\
      deposited (fun x => (x + dwtheta)%R) a rb k
        (pixel_wtheta_region_ b) (pixel_wtheta_region_ b') /\
      deposited (fun x => (x + dweight)%R) a rb k
        (pixel_weight_region_ b) (pixel_weight_region_ b'))).
  - unfold vec_size in Hst. lia.
  - repeat split; apply deposited_start.
  - intros k s Hk (Ht & Hw & Hdt & Hdw). rewrite deposit_test.
    case_bool_decide as Hne.
    + destruct (fun H => deposited_step _ a rb k _ _ H (proj1 Hne) (proj2 Hne) Hdt)
        as (v & -> & Hv); [lia|].
      destruct (fun H => deposited_step _ a rb k _ _ H (proj1 Hne) (proj2 Hne) Hdw)
        as (v' & Ev' & Hv'); [lia|].
      cbn. rewrite Ev'. eexists. split; [reflexivity|]. cbn. done.
    + exists s. split; [reflexivity|]. repeat split; try done;
        (apply deposited_skip; [|done]);
        (destruct (decide (k = a)); [tauto|]; destruct (decide (k = rb)); tauto).
Qed.

(** ** C1: deposits with both regions known *)

(** C1.  On a bin whose [N > 0] regions are initialised, a deposit
    [add_to_weight], [add_to_counter], [add_to_pair_wtheta] or
    [add_to_pixel_wtheta] with region indices [a] and [b] in [0 .. N-1]
    returns, adds the deposited amount to the global accumulator, and adds
    it to the accumulator of region [k] when [k] is neither [a] nor [b] and
    leaves that accumulator as it was when [k] is [a] or [b].  Sums of
    doubles are sums of reals; the sum of two [long]s is [long_add]. *)
Theorem deposit_leave_one_out (b : angular_bin) (N a rb : Z) :
  regions_initialized b = Ret true ->
  n_region_ b = N -> 0 < N <= int_max ->
  0 <= a < N -> 0 <= rb < N ->
  (forall weight, exists b',
      add_to_weight weight a rb b = Ret b' /\
      pair_weight_ b' = (pair_weight_ b + weight)%R /\
      leave_one_out (fun x => (x + weight)%R) a rb N
        (pair_weight_region_ b) (pair_weight_region_ b')) /\
  (forall step, exists b',
      add_to_counter step a rb b = Ret b' /\
      pair_count_ b' = long_add (pair_count_ b) step /\
      leave_one_out (fun x => long_add x step) a rb N
        (pair_counts_region_ b) (pair_counts_region_ b')) /\
  (forall weight step, exists b',
      add_to_pair_wtheta weight step a rb b = Ret b' /\
      pair_weight_ b' = (pair_weight_ b + weight)%R /\
      pair_count_ b' = long_add (pair_count_ b) step /\
      leave_one_out (fun x => (x + weight)%R) a rb N
        (pair_weight_region_ b) (pair_weight_region_ b') /\
      leave_one_out (fun x => long_add x step) a rb N
        (pair_counts_region_ b) (pair_counts_region_ b')) /\
  (forall dwtheta dweight, exists b',
      add_to_pixel_wtheta dwtheta dweight a rb b = Ret b' /\
      pixel_wtheta_ b' = (pixel_wtheta_ b + dwtheta)%R /\
      pixel_weight_ b' = (pixel_weight_ b + dweight)%R /\
      leave_one_out (fun x => (x + dwtheta)%R) a rb N
        (pixel_wtheta_region_ b) (pixel_wtheta_region_ b') /\
      leave_one_out (fun x => (x + dweight)%R) a rb N
        (pixel_weight_region_ b) (pixel_weight_region_ b')).
Proof.
  intros Hinit HN Hpos Ha Hb.
  destruct (regions_initialized_sizes b Hinit) as (Hpw & Hpc & _ & _ & _ & _ & Hxw & Hxt);
    [lia|].
  rewrite HN in Hpw, Hpc, Hxw, Hxt.
  split; [|split; [|split]].
  - intros w. destruct (add_to_weight_spec w a rb b) as (b' & E & Hg & Hd);
      [congruence|lia|lia|].
    rewrite HN in Hd. eauto using deposited_leave_one_out.
  - intros st. destruct (add_to_counter_spec st a rb b) as (b' & E & Hg & Hd);
      [congruence|lia|lia|].
    rewrite HN in Hd. eauto using deposited_leave_one_out.
  - intros w st.
    destruct (add_to_pair_wtheta_spec w st a rb b) as (b' & E & Hw & Hc & Hdw & Hdc);
      [congruence|congruence|lia|lia|].
    rewrite HN in Hdw, Hdc. exists b'. eauto 10 using deposited_leave_one_out.
  - intros dt dw.
    destruct (add_to_pixel_wtheta_spec dt dw a rb b) as (b' & E & Ht & Hw & Hdt & Hdw);
      [congruence|congruence|lia|lia|].
    rewrite HN in Hdt, Hdw. exists b'. eauto 10 using deposited_leave_one_out.
Qed.

(** A bin built by the constructor with three regions, deposits between
    regions 0 and 1. *)
Lemma deposit_leave_one_out_witness :
  let b := new_angular_bin (PI / 180) 1 2 3 in
  (forall weight, exists b',
      add_to_weight weight 0 1 b = Ret b' /\
      pair_weight_ b' = (pair_weight_ b + weight)%R /\
      leave_one_out (fun x => (x + weight)%R) 0 1 3
        (pair_weight_region_ b) (pair_weight_region_ b')) /\
  (forall step, exists b',
      add_to_counter step 0 1 b = Ret b' /\
      pair_count_ b' = long_add (pair_count_ b) step /\
      leave_one_out (fun x => long_add x step) 0 1 3
        (pair_counts_region_ b) (pair_counts_region_ b')) /\
  (forall weight step, exists b',
      add_to_pair_wtheta weight step 0 1 b = Ret b' /\
      pair_weight_ b' = (pair_weight_ b + weight)%R /\
      pair_count_ b' = long_add (pair_count_ b) step /\
      leave_one_out (fun x => (x + weight)%R) 0 1 3
        (pair_weight_region_ b) (pair_weight_region_ b') /\
      leave_one_out (fun x => long_add x step) 0 1 3
        (pair_counts_region_ b) (pair_counts_region_ b')) /\
  (forall dwtheta dweight, exists b',
      add_to_pixel_wtheta dwtheta dweight 0 1 b = Ret b' /\
      pixel_wtheta_ b' = (pixel_wtheta_ b + dwtheta)%R /\
      pixel_weight_ b' = (pixel_weight_ b + dweight)%R /\
      leave_one_out (fun x => (x + dwtheta)%R) 0 1 3
        (pixel_wtheta_region_ b) (pixel_wtheta_region_ b') /\
      leave_one_out (fun x => (x + dweight)%R) 0 1 3
        (pixel_weight_region_ b) (pixel_weight_region_ b')).
Proof.
  intros b.
  apply (deposit_leave_one_out b 3 0 1);
    [reflexivity | reflexivity | unfold int_max; lia | lia | lia].
Defined.

(** ** C9: deposits with an unknown region *)

(** The per-region accumulators of a bin. *)
Definition region_accumulators (b : angular_bin) :=
  (pair_weight_region_ b, pair_counts_region_ b,
   gal_gal_region_ b, gal_rand_region_ b, rand_gal_region_ b,
   rand_rand_region_ b, pixel_wtheta_region_ b, pixel_weight_region_ b,
   wtheta_region_ b, wtheta_error_region_ b).

Lemma region_guard_unknown (a b : Z) :
  a = -1 \/ b = -1 -> negb (a =? -1) && negb (b =? -1) = false.
Proof.
  intros [-> | ->]; [reflexivity|]. destruct (a =? -1); reflexivity.
Qed.

(** C9.  When [region_a] or [region_b] is [-1], [add_to_weight],
    [add_to_counter] and [add_to_pixel_wtheta] return, add the deposit to
    the global accumulator and leave every per-region accumulator as it
    was.  This needs nothing of the bin, initialised regions or not. *)
Theorem deposit_unknown_region (b : angular_bin) (a rb : Z) :
  a = -1 \/ rb = -1 ->
  (forall weight, exists b',
      add_to_weight weight a rb b = Ret b' /\
      pair_weight_ b' = (pair_weight_ b + weight)%R /\
      region_accumulators b' = region_accumulators b) /\
  (forall step, exists b',
      add_to_counter step a rb b = Ret b' /\
      pair_count_ b' = long_add (pair_count_ b) step /\
      region_accumulators b' = region_accumulators b) /\
  (forall dwtheta dweight, exists b',
      add_to_pixel_wtheta dwtheta dweight a rb b = Ret b' /\
      pixel_wtheta_ b' = (pixel_wtheta_ b + dwtheta)%R /\
      pixel_weight_ b' = (pixel_weight_ b + dweight)%R /\
      region_accumulators b' = region_accumulators b).
Proof.
  intros Hu. pose proof (region_guard_unknown a rb Hu) as Hg.
  unfold add_to_weight, add_to_counter, add_to_pixel_wtheta. rewrite Hg.
  repeat split; intros; eexists; repeat split.
Qed.

Lemma deposit_unknown_region_witness :
  let b := new_angular_bin (PI / 180) 1 2 3 in
  (forall weight, exists b',
      add_to_weight weight (-1) 2 b = Ret b' /\
      pair_weight_ b' = (pair_weight_ b + weight)%R /\
      region_accumulators b' = region_accumulators b) /\
  (forall step, exists b',
      add_to_counter step (-1) 2 b = Ret b' /\
      pair_count_ b' = long_add (pair_count_ b) step /\
      region_accumulators b' = region_accumulators b) /\
  (forall dwtheta dweight, exists b',
      add_to_pixel_wtheta dwtheta dweight (-1) 2 b = Ret b' /\
      pixel_wtheta_ b' = (pixel_wtheta_ b + dwtheta)%R /\
      pixel_weight_ b' = (pixel_weight_ b + dweight)%R /\
      region_accumulators b' = region_accumulators b).
Proof.
  intros b. apply (deposit_unknown_region b (-1) 2). left. reflexivity.
Defined.

(** ** C2: the estimators *)



(** ** C3: the jackknife mean and its error *)

(** [sum_from count k f] is [f k + f (k+1) + ...], [count] terms. *)
Fixpoint sum_from (count : nat) (k : Z) (f : Z -> R) : R :=
  match count with
  | O => 0%R
  | S c => (f k + sum_from c (k + 1) f)%R
  end.

(** The sum of [f] over the regions [0 .. N-1]. *)
Definition region_sum (N : Z) (f : Z -> R) : R := sum_from (Z.to_nat N) 0 f.

Lemma sum_from_ext (f g : Z -> R) :
  forall count k,
    (forall j, k <= j < k + Z.of_nat count -> f j = g j) ->
    sum_from count k f = sum_from count k g.
Proof.
  induction count as [|c IH]; intros k H; [reflexivity|].
  cbn [sum_from]. rewrite (H k) by lia. f_equal. apply IH. intros j Hj. apply H. lia.
Qed.

Lemma sum_from_scale (c : R) (f : Z -> R) :
  forall count k,
    sum_from count k (fun j => (c * f j)%R) = (c * sum_from count k f)%R.
Proof.
  induction count as [|n IH]; intros k; cbn [sum_from]; [ring|].
  rewrite IH. ring.
Qed.

(** A loop that adds [h k x] for the value [x] the [k]-th call returns. *)
Lemma for_count_sum (g : Z -> outcome R) (w : Z -> R) (h : R -> R) :
  forall count k acc,
    (forall j, k <= j < k + Z.of_nat count -> g j = Ret (w j)) ->
    for_count count k (fun j acc => x ← g j; Ret (acc + h x)%R) acc
    = Ret (acc + sum_from count k (fun j => h (w j)))%R.
Proof.
  induction count as [|c IH]; intros k acc H; cbn [for_count sum_from].
  - f_equal. ring.
  - rewrite (H k) by lia. cbn. rewrite IH by (intros j Hj; apply H; lia).
    f_equal. ring.
Qed.

Lemma mean_wtheta_spec (b : angular_bin) (w : Z -> R) :
  (forall k, 0 <= k < n_region_ b -> wtheta_region k b = Ret (w k)) ->
  mean_wtheta b = Ret (1 / IZR (n_region_ b) * region_sum (n_region_ b) w)%R.
Proof.
  intros Hw. unfold mean_wtheta, for_range, region_sum. rewrite Z.sub_0_r.
  rewrite (for_count_sum (fun k => wtheta_region k b) w
             (fun x => (x / (1 * IZR (n_region_ b)))%R)).
  - f_equal. rewrite Rplus_0_l, <- sum_from_scale. apply sum_from_ext.
    intros j _. unfold Rdiv. rewrite !Rmult_1_l. ring.
  - intros j Hj. apply Hw. lia.
Qed.

Lemma mean_wtheta_error_spec (b : angular_bin) (w : Z -> R) :
  (forall k, 0 <= k < n_region_ b -> wtheta_region k b = Ret (w k)) ->
  n_region_ b <> 0 ->
  let N := IZR (n_region_ b) in
  let mean := (1 / N * region_sum (n_region_ b) w)%R in
  mean_wtheta_error b
  = Ret ((N - 1) * sqrt (region_sum (n_region_ b)
                           (fun k => (mean - w k) * (mean - w k))) / N)%R.
Proof.
  intros Hw Hn N mean. unfold mean_wtheta_error.
  rewrite (mean_wtheta_spec b w Hw). cbn. fold N. fold mean.
  unfold for_range. rewrite Z.sub_0_r.
  assert (for_count (Z.to_nat (n_region_ b)) 0
            (fun k e => w0 ← wtheta_region k b; w' ← wtheta_region k b;
                        Ret (e + (mean - w0) * (mean - w'))%R) 0%R
          = Ret (region_sum (n_region_ b)
                   (fun k => (mean - w k) * (mean - w k)))%R) as ->.
  { unfold region_sum.
    assert (forall count k acc,
              (forall j, k <= j < k + Z.of_nat count ->
                         wtheta_region j b = Ret (w j)) ->
              for_count count k
                (fun k e => w0 ← wtheta_region k b; w' ← wtheta_region k b;
                            Ret (e + (mean - w0) * (mean - w'))%R) acc
              = Ret (acc + sum_from count k
                             (fun k => (mean - w k) * (mean - w k)))%R) as Hloop.
    { induction count as [|c IH]; intros k acc Hk; cbn [for_count sum_from].
      - f_equal. ring.
      - rewrite (Hk k) by lia. cbn.
        rewrite IH by (intros j Hj; apply Hk; lia). f_equal. ring. }
    rewrite Hloop by (intros j Hj; apply Hw; lia). f_equal. ring. }
  cbn. destruct (Z.eqb_spec (n_region_ b) 0); [done|reflexivity].
Qed.

(** On a bin with initialised regions and no value set, [wtheta(k)] returns
    for every region [k]. *)
Lemma wtheta_region_returns (b : angular_bin) (k : Z) :
  regions_initialized b = Ret true ->
  n_region_ b <= int_max ->
  set_wtheta_ b = false ->
  0 <= k < n_region_ b ->
  exists x, wtheta_region k b = Ret x.
Proof.
  intros Hinit Hmax Hset Hk.
  destruct (regions_initialized_sizes b Hinit)
    as (_ & _ & Hgg & Hgr & Hrg & Hrr & Hpw & Hpt); [lia|].
  unfold wtheta_region. rewrite Hset.
  assert ((k =? -1) = false) as -> by (apply Z.eqb_neq; lia).
  assert ((k <? n_region_ b) = true) as -> by (apply Z.ltb_lt; lia).
  destruct (vec_at_in_range (gal_gal_region_ b) k) as [gg ->]; [lia|].
  destruct (vec_at_in_range (gal_rand_region_ b) k) as [gr ->]; [lia|].
  destruct (vec_at_in_range (rand_gal_region_ b) k) as [rg ->]; [lia|].
  destruct (vec_at_in_range (rand_rand_region_ b) k) as [rr ->]; [lia|].
  destruct (vec_at_in_range (pixel_wtheta_region_ b) k) as [pt ->]; [lia|].
  destruct (vec_at_in_range (pixel_weight_region_ b) k) as [pw ->]; [lia|].
  destruct (level_ b =? -1); cbn; eauto.
Qed.

(** C3, as the source has it.  With [N > 0] regions whose values
    [wtheta(k)] are [w k], [mean_wtheta()] is (1/N) * sum_k w(k), and
    [mean_wtheta_error()] is (N-1)/N * sqrt (sum_k (w(k) - mean)^2): the
    factor (N-1)/N multiplies the square root, it does not stand under it. *)
Theorem jackknife_mean_and_error (b : angular_bin) (N : Z) (w : Z -> R) :
  n_region_ b = N -> 0 < N ->
  (forall k, 0 <= k < N -> wtheta_region k b = Ret (w k)) ->
  let mean := (1 / IZR N * region_sum N w)%R in
  mean_wtheta b = Ret mean /\
  mean_wtheta_error b
  = Ret ((IZR N - 1) / IZR N
         * sqrt (region_sum N (fun k => (w k - mean) ^ 2)))%R.
Proof.
  intros <- Hpos Hw mean. split.
  - apply mean_wtheta_spec, Hw.
  - rewrite (mean_wtheta_error_spec b w Hw) by lia. fold mean. f_equal.
    replace (region_sum (n_region_ b) (fun k => (mean - w k) * (mean - w k)))%R
      with (region_sum (n_region_ b) (fun k => (w k - mean) ^ 2))%R.
    + unfold Rdiv. ring.
    + apply sum_from_ext. intros j _. ring.
Qed.

(** Two regions; the pixel sums of region 0 come from a pair inside
    region 1 and those of region 1 from a pair inside region 0. *)
Definition two_region_bin : angular_bin :=
  set_pixel_wtheta (0 + 4 + 2)%R (set_pixel_weight (0 + 1 + 1)%R
    (set_regions [0; 0] [0; 0] [0; 0] [0; 0] [0; 0]
       [0 + 4; 0 + 2] [0 + 1; 0 + 1] [0; 0] [0; 0] [0%Z; 0%Z] 2%Z
       (set_level 0%Z (new_angular_bin (PI / 180) 1 2 2%Z))))%R.

Lemma two_region_bin_reachable :
  (b ← add_to_pixel_wtheta 4 1 1 1 (set_level 0 (new_angular_bin (PI / 180) 1 2 2));
   add_to_pixel_wtheta 2 1 0 0 b) = Ret two_region_bin.
Proof. reflexivity. Qed.

Definition two_region_wtheta (k : Z) : R := if k =? 0 then 4%R else 2%R.

Lemma two_region_bin_wtheta (k : Z) :
  0 <= k < 2 -> wtheta_region k two_region_bin = Ret (two_region_wtheta k).
Proof.
  intros Hk. assert (k = 0 \/ k = 1) as [-> | ->] by lia.
  - change (Ret ((0 + 4) / (0 + 1))%R = Ret 4%R). f_equal. lra.
  - change (Ret ((0 + 2) / (0 + 1))%R = Ret 2%R). f_equal. lra.
Qed.

Lemma jackknife_mean_and_error_witness :
  let mean := (1 / 2 * region_sum 2 two_region_wtheta)%R in
  mean_wtheta two_region_bin = Ret mean /\
  mean_wtheta_error two_region_bin
  = Ret ((2 - 1) / 2
         * sqrt (region_sum 2 (fun k => (two_region_wtheta k - mean) ^ 2)))%R.
Proof.
  apply (jackknife_mean_and_error two_region_bin 2 two_region_wtheta);
    [reflexivity | lia | exact two_region_bin_wtheta].
Defined.

(** C3 as stated fails on that bin: the values are 4 and 2, their mean is 3,
    the squared deviations sum to 2; the source returns sqrt(2)/2 where the
    statement has sqrt(1/2 * 2) = 1. *)
Lemma jackknife_error_not_sqrt_of_scaled_sum :
  n_region_ two_region_bin = 2 /\
  (forall k, 0 <= k < 2 ->
             wtheta_region k two_region_bin = Ret (two_region_wtheta k)) /\
  let mean := (1 / 2 * region_sum 2 two_region_wtheta)%R in
  mean_wtheta two_region_bin = Ret mean /\
  mean_wtheta_error two_region_bin
  <> Ret (sqrt ((2 - 1) / 2
                * region_sum 2 (fun k => (two_region_wtheta k - mean) ^ 2)))%R.
Proof.
  split; [reflexivity|]. split; [exact two_region_bin_wtheta|].
  intros mean. split; [exact (mean_wtheta_spec two_region_bin _ two_region_bin_wtheta)|].
  rewrite (mean_wtheta_error_spec two_region_bin _ two_region_bin_wtheta) by done.
  change (n_region_ two_region_bin) with 2. fold mean.
  assert (forall f, region_sum 2 f = (f 0%Z + (f 1%Z + 0))%R) as Hsum by reflexivity.
  assert (mean = 3%R) as ->.
  { unfold mean. rewrite Hsum. unfold two_region_wtheta. cbn. lra. }
  rewrite !Hsum. unfold two_region_wtheta. cbn.
  intros Heq. injection Heq as Heq.
  replace ((3 - 4) * (3 - 4) + ((3 - 2) * (3 - 2) + 0))%R with 2%R in Heq by lra.
  replace ((2 - 1) / 2 * ((4 - 3) * ((4 - 3) * 1) + ((2 - 3) * ((2 - 3) * 1) + 0)))%R
    with 1%R in Heq by lra.
  rewrite sqrt_1 in Heq.
  assert (sqrt 2 = 2)%R as Hs by lra.
  pose proof (sqrt_sqrt 2 ltac:(lra)) as Hsq. rewrite Hs in Hsq. lra.
Qed.

(** ** C4: the level of a bin *)

Section find_level.
Variable MAX_LEVEL : Z.
Variable average_area : Z -> R.
Variables double_ge double_le : R -> R -> bool.

(** The angular scale of the pixels of a level, as [find_level] takes it. *)
Definition level_scale (level : Z) : R := sqrt (2 * average_area level).

(** The test under which the loop of [find_level] keeps a level. *)
Definition level_accepted (b : angular_bin) (level : Z) : bool :=
  is_within_bounds double_ge double_le (level_scale level) b
  || double_lt (level_scale level) (theta_min_ b).

Lemma level_accepted_set_level (b : angular_bin) (v level : Z) :
  level_accepted (set_level v b) level = level_accepted b level.
Proof. reflexivity. Qed.

Lemma find_level_loop_spec (b : angular_bin) :
  forall count k,
    let b' := find_level_loop average_area double_ge double_le count k b in
    (b' = b /\ forall l, k <= l < k + Z.of_nat count -> level_accepted b l = false)
    \/ (b' = set_level (level_ b') b /\
        k <= level_ b' < k + Z.of_nat count /\
        level_accepted b (level_ b') = true /\
        forall l, k <= l < level_ b' -> level_accepted b l = false).
Proof.
  induction count as [|c IH]; intros k; cbn [find_level_loop].
  - left. split; [reflexivity|]. intros l Hl. lia.
  - fold (level_scale k). fold (level_accepted b k).
    destruct (level_accepted b k) eqn:Hk.
    + right. cbn [level_ set_level]. repeat split; try lia; try done.
    + destruct (IH (k + 1)) as [[E Hall] | (E & Hr & Hacc & Hbelow)].
      * left. split; [exact E|]. intros l Hl.
        destruct (decide (l = k)) as [->|]; [done|]. apply Hall. lia.
      * right. split; [exact E|]. split; [lia|]. split; [exact Hacc|].
        intros l Hl. destruct (decide (l = k)) as [->|]; [done|].
        apply Hbelow. lia.
Qed.

(** C4, as the source has it.  [find_level()] sets the level to the
    smallest level [l] of [0 .. MAX_LEVEL-1] whose scale
    [sqrt (2 * average_area l)] is within the bounds of the bin or below
    [theta_min_], and to [-1] when no level of that range is such. *)
Theorem find_level_first_accepted (b : angular_bin) :
  let L := level_ (find_level MAX_LEVEL average_area double_ge double_le b) in
  (L = -1 /\ forall l, 0 <= l < MAX_LEVEL -> level_accepted b l = false)
  \/ (0 <= L < MAX_LEVEL /\
      level_accepted b L = true /\
      forall l, 0 <= l < L -> level_accepted b l = false).
Proof.
  intros L. subst L. unfold find_level.
  destruct (find_level_loop_spec (set_level (-1) b) (Z.to_nat MAX_LEVEL) 0)
    as [[E Hall] | (E & Hr & Hacc & Hbelow)].
  - left. rewrite E. split; [reflexivity|]. intros l Hl.
    rewrite <- (level_accepted_set_level b (-1)). apply Hall. lia.
  - right. rewrite level_accepted_set_level in Hacc.
    split; [lia|]. split; [exact Hacc|]. intros l Hl.
    rewrite <- (level_accepted_set_level b (-1)). by apply Hbelow.
Qed.

(** C4 as stated: the level is the largest one whose scale is at least
    [theta_min_], and [-1] when there is none. *)
Definition finest_resolving_level (b : angular_bin) (L : Z) : Prop :=
  (0 <= L < MAX_LEVEL /\ (theta_min_ b <= level_scale L)%R /\
   forall l, L < l < MAX_LEVEL -> ~ (theta_min_ b <= level_scale l)%R)
  \/ (L = -1 /\
      forall l, 0 <= l < MAX_LEVEL -> ~ (theta_min_ b <= level_scale l)%R).
End find_level.

(** The bin of the angles from 1/2 to 3, with the parameters the
    specification gives for the sphere index. *)
Definition wide_bin : angular_bin := new_angular_bin (PI / 180) (1 / 2) 3 0.

Lemma PI_above_2 : (2 < PI)%R.
Proof. pose proof PI2_1. lra. Qed.

Lemma wide_bin_scale_0 :
  (1 <= level_scale sphere_index.average_area 0 <= 3)%R.
Proof.
  pose proof PI_above_2. pose proof PI_4.
  unfold level_scale, sphere_index.average_area. change (4 ^ 0) with 1. split.
  - rewrite <- sqrt_1 at 1. apply sqrt_le_1_alt. lra.
  - replace 3%R with (sqrt (3 * 3)) by (apply sqrt_square; lra).
    apply sqrt_le_1_alt. lra.
Qed.

Lemma wide_bin_scale_1 :
  (1 / 2 <= level_scale sphere_index.average_area 1)%R.
Proof.
  pose proof PI_above_2.
  unfold level_scale, sphere_index.average_area. change (4 ^ 1) with 4.
  replace (1 / 2)%R with (sqrt (1 / 2 * (1 / 2))) by (apply sqrt_square; lra).
  apply sqrt_le_1_alt. lra.
Qed.

(** C4 as stated fails on that bin.  The scale of level 0, sqrt(4 pi / 3),
    lies within the bounds, so the loop stops there; level 1 has a scale,
    sqrt(pi / 3), that is still above [theta_min_ = 1/2]. *)
Lemma find_level_not_finest_resolving_level :
  (theta_min_ wide_bin <= theta_max_ wide_bin)%R /\
  level_ (find_level sphere_index.MAX_LEVEL sphere_index.average_area
            sphere_index.double_ge sphere_index.double_le wide_bin) = 0 /\
  ~ finest_resolving_level sphere_index.MAX_LEVEL sphere_index.average_area
      wide_bin
      (level_ (find_level sphere_index.MAX_LEVEL sphere_index.average_area
                 sphere_index.double_ge sphere_index.double_le wide_bin)).
Proof.
  assert (level_ (find_level sphere_index.MAX_LEVEL sphere_index.average_area
                    sphere_index.double_ge sphere_index.double_le wide_bin) = 0)
    as Hlevel.
  { unfold find_level. change (Z.to_nat sphere_index.MAX_LEVEL) with 30%nat.
    cbn [find_level_loop].
    fold (level_scale sphere_index.average_area 0).
    assert (is_within_bounds sphere_index.double_ge sphere_index.double_le
              (level_scale sphere_index.average_area 0)
              (set_level (-1) wide_bin) = true) as ->; [|reflexivity].
    pose proof wide_bin_scale_0 as [Hlo Hhi].
    unfold is_within_bounds, sphere_index.double_ge, sphere_index.double_le,
      sphere_index.tolerance.
    change (theta_min_ (set_level (-1) wide_bin)) with (1 / 2)%R.
    change (theta_max_ (set_level (-1) wide_bin)) with 3%R.
    destruct (Rle_dec _ _) as [|Hn]; [|exfalso; apply Hn; lra].
    destruct (Rle_dec _ _) as [|Hn]; [reflexivity|exfalso; apply Hn; lra]. }
  split; [change (1 / 2 <= 3)%R; lra|]. split; [exact Hlevel|].
  rewrite Hlevel. intros [(_ & _ & Hmax) | [Hneg _]]; [|discriminate Hneg].
  apply (Hmax 1); [unfold sphere_index.MAX_LEVEL; lia|].
  exact wide_bin_scale_1.
Qed.

(** ** Region maps *)

Import RegionMap.

Lemma elem_of_map_entries {V : Type} (m : gmap Z V) (k : Z) (v : V) :
  (k, v) ∈ map_entries m <-> m !! k = Some v.
Proof.
  unfold map_entries. rewrite merge_sort_Permutation. apply elem_of_map_to_list.
Qed.

Lemma map_contains_true {V : Type} (m : gmap Z V) (k : Z) :
  map_contains m k = true <-> is_Some (m !! k).
Proof. unfold map_contains. apply bool_decide_eq_true. Qed.

Lemma map_index_present {V : Type} (zero : V) (m : gmap Z V) (k : Z) (v : V) :
  m !! k = Some v -> map_index zero m k = (v, m).
Proof. intros H. unfold map_index. by rewrite H. Qed.

(** ** C10: queries outside the footprint *)

(** What [Region] and [FindRegion] return, and that they leave the map as
    it is: a guarded [region_map_[key]] never inserts. *)
Lemma Region_lookup (region_idx : Z) (rm : RegionMap) :
  Region region_idx rm = (default (-1) (region_map_ rm !! region_idx), rm).
Proof.
  unfold Region. destruct (region_map_ rm !! region_idx) as [v|] eqn:E.
  - assert (map_contains (region_map_ rm) region_idx = true) as ->
      by (apply map_contains_true; eauto).
    rewrite (map_index_present _ _ _ _ E). cbn. f_equal. by destruct rm.
  - assert (map_contains (region_map_ rm) region_idx = false) as ->.
    { apply not_true_is_false. rewrite map_contains_true, E. by intros []. }
    reflexivity.
Qed.

(** C10.  [FindRegion(ang)] returns -1 when the pixel of [ang] at the region
    resolution is not a key of the region map, [Region(idx)] returns -1 when
    [idx] is not a key, and both leave the [RegionMap] as it was (also when
    the key is present, in which case they return the stored index). *)
Theorem region_queries (rm : RegionMap) :
  (forall ang,
      let key := Pixnum (pixel_at ang (region_resolution_ rm) 1) in
      (region_map_ rm !! key = None -> fst (FindRegion ang rm) = -1) /\
      (forall r, region_map_ rm !! key = Some r -> fst (FindRegion ang rm) = r) /\
      snd (FindRegion ang rm) = rm) /\
  (forall region_idx,
      (region_map_ rm !! region_idx = None -> fst (Region region_idx rm) = -1) /\
      (forall r, region_map_ rm !! region_idx = Some r ->
                 fst (Region region_idx rm) = r) /\
      snd (Region region_idx rm) = rm).
Proof.
  split.
  - intros ang key.
    change (FindRegion ang rm) with (Region key rm). rewrite Region_lookup.
    cbn. repeat split; [by intros ->|by intros r ->].
  - intros region_idx. rewrite Region_lookup.
    cbn. repeat split; [by intros ->|by intros r ->].
Qed.

(** ** C7: the stored indices after [InitializeRegions] *)



(** *** The run of [_Regionate] *)

(** The pixels the loops of [_Regionate] reach, in the order they reach
    them: section after section, and inside a section in the order of the
    coverage. *)
Definition visited (rm : RegionMap) (sectionVec : list section)
    (coverage_pix : list Pixel) : list Pixel :=
  sectionVec ≫= fun s => filter (fun iter => in_section rm s iter) coverage_pix.

(** The loop body over a list of pixels that are all selected. *)
Definition regionate_run (unit_area mean_area area_break : R) (n_region : Z)
    (pixels : list Pixel) (st : RegionMap * regionate_locals)
  : RegionMap * regionate_locals :=
  fold_left (fun st iter =>
    regionate_pixel unit_area mean_area area_break n_region iter st) pixels st.

(** The last assignment of [_Regionate]. *)
Definition regionate_finish (st : RegionMap * regionate_locals) : RegionMap :=
  set_region_area
    (<[region_iter st.2 := running_area st.2]> (region_area_ st.1)) st.1.

(** The weighted area of a list of pixels, summed as [_Regionate] does. *)
Definition weighted_area (unit_area : R) (pixels : list Pixel) : R :=
  fold_left (fun a iter => a + unit_area * Weight iter)%R pixels 0%R.

Lemma regionate_pixel_resolution u m a N (iter : Pixel) st :
  region_resolution_ (regionate_pixel u m a N iter st).1
  = region_resolution_ st.1.
Proof.
  destruct st as [rm l]. unfold regionate_pixel. by destruct (_ || _).
Qed.

Lemma regionate_run_resolution u m a N pixels :
  forall st, region_resolution_ (regionate_run u m a N pixels st).1
             = region_resolution_ st.1.
Proof.
  induction pixels as [|p pixels IH]; intros st; [reflexivity|].
  change (regionate_run u m a N (p :: pixels) st)
    with (regionate_run u m a N pixels (regionate_pixel u m a N p st)).
  by rewrite IH, regionate_pixel_resolution.
Qed.

Lemma in_section_resolution (rm rm' : RegionMap) s iter :
  region_resolution_ rm = region_resolution_ rm' ->
  in_section rm s iter = in_section rm' s iter.
Proof. unfold in_section. by intros ->. Qed.

(** The inner loop of [_Regionate] is a run over the pixels of the section. *)
Lemma regionate_section_run u m a N s (rm0 : RegionMap) :
  forall coverage_pix st,
    region_resolution_ st.1 = region_resolution_ rm0 ->
    fold_left (fun st iter =>
      if in_section st.1 s iter then regionate_pixel u m a N iter st else st)
      coverage_pix st
    = regionate_run u m a N
        (filter (fun iter => in_section rm0 s iter) coverage_pix) st.
Proof.
  induction coverage_pix as [|p cov IH]; intros st Hres; [reflexivity|].
  cbn [fold_left]. rewrite filter_cons.
  rewrite (in_section_resolution st.1 rm0) by done.
  destruct (in_section rm0 s p) eqn:Hin.
  - rewrite decide_True by done.
    change (regionate_run u m a N (p :: filter (fun iter => in_section rm0 s iter) cov) st)
      with (regionate_run u m a N (filter (fun iter => in_section rm0 s iter) cov)
              (regionate_pixel u m a N p st)).
    apply IH. by rewrite regionate_pixel_resolution.
  - rewrite decide_False by (intros H; exact H). by apply IH.
Qed.

Lemma regionate_run_app u m a N pixels1 pixels2 st :
  regionate_run u m a N (pixels1 ++ pixels2) st
  = regionate_run u m a N pixels2 (regionate_run u m a N pixels1 st).
Proof. apply fold_left_app. Qed.

(** The loops of [_Regionate] are a run over the pixels they reach. *)
Lemma regionate_sections_run u m a N (rm0 : RegionMap) coverage_pix :
  forall sectionVec st,
    region_resolution_ st.1 = region_resolution_ rm0 ->
    fold_left (fun st section_iter =>
      fold_left (fun st iter =>
        if in_section st.1 section_iter iter
        then regionate_pixel u m a N iter st else st) coverage_pix st)
      sectionVec st
    = regionate_run u m a N (visited rm0 sectionVec coverage_pix) st.
Proof.
  induction sectionVec as [|s secs IH]; intros st Hres; [reflexivity|].
  cbn [fold_left]. unfold visited. rewrite bind_cons, regionate_run_app.
  rewrite (regionate_section_run u m a N s rm0) by done.
  apply IH. by rewrite regionate_run_resolution.
Qed.

Lemma _Regionate_run (PixelArea : Z -> R) coverage_pix sectionVec n_region
    starting_region_index (rm : RegionMap) :
  let unit_area := PixelArea (region_resolution_ rm) in
  let base_map_area := weighted_area unit_area coverage_pix in
  _Regionate PixelArea coverage_pix sectionVec n_region starting_region_index rm
  = regionate_finish
      (regionate_run unit_area
         (base_map_area / IZR (vec_size coverage_pix))%R
         (base_map_area / IZR n_region)%R n_region
         (visited rm sectionVec coverage_pix)
         (rm, {| region_area := 0%R; running_area := 0%R; n_pixel := 0;
                 region_iter := starting_region_index |})).
Proof.
  intros unit_area base_map_area. unfold _Regionate.
  fold unit_area. fold (weighted_area unit_area coverage_pix). fold base_map_area.
  rewrite (regionate_sections_run _ _ _ _ rm) by reflexivity.
  by destruct (regionate_run _ _ _ _ _ _).
Qed.



Section initialize_regions.
Variable PixelArea : Z -> R.
Variable HPixResolution : Z.
Variable Nx0 : Z.

End initialize_regions.

(** A map of four pixels on two stripes, for the examples. *)
Definition example_pixel (pixnum stripe : Z) (weight : R) : Pixel :=
  {| Pixnum := pixnum; Weight := weight; Stripe := fun _ => stripe |}.

Definition example_coverage : list Pixel :=
  [example_pixel 10 0 1; example_pixel 11 0 1;
   example_pixel 20 1 1; example_pixel 21 1 1].

Definition example_map : BaseMap :=
  {| Area := 8; MaxResolution := 32768; Coverage := fun _ => example_coverage |}.


(** ** C5: where [_Regionate] ends a region *)


Lemma weighted_area_snoc (u : R) (pixels : list Pixel) (p : Pixel) :
  weighted_area u (pixels ++ [p]) = (weighted_area u pixels + u * Weight p)%R.
Proof. unfold weighted_area. by rewrite fold_left_app. Qed.

Lemma regionate_run_snoc u m a N pixels (p : Pixel) st :
  regionate_run u m a N (pixels ++ [p]) st
  = regionate_pixel u m a N p (regionate_run u m a N pixels st).
Proof. by rewrite regionate_run_app. Qed.

(** The accumulated area and the range of the current region along a run
    that starts in a region below [n_region]. *)
Lemma regionate_run_invariant u m a N start (rm : RegionMap) pixels :
  0 <= start < N -> N <= 255 ->
  let st := regionate_run u m a N pixels
              (rm, {| region_area := 0%R; running_area := 0%R; n_pixel := 0;
                      region_iter := start |}) in
  region_area st.2 = weighted_area u pixels /\ start <= region_iter st.2 < N.
Proof.
  intros Hstart HN. induction pixels as [|p pixels IH] using rev_ind.
  - cbn. split; [reflexivity|lia].
  - cbn zeta in *. rewrite regionate_run_snoc, weighted_area_snoc.
    destruct (regionate_run u m a N pixels _) as [rm1 l]. cbn in IH.
    destruct IH as [Harea Hiter]. unfold regionate_pixel.
    destruct (_ || _) eqn:Htest; cbn.
    + split; [rewrite Harea; ring|lia].
    + apply orb_false_elim in Htest as [_ Hlast].
      apply Z.eqb_neq in Hlast.
      split; [rewrite Harea; ring|].
      unfold wrap_signed. rewrite Z.mod_small; lia.
Qed.


Section regionate.
Variable PixelArea : Z -> R.

End regionate.

(** ** C6: area conservation and the assignment of every pixel *)

(** *** Loops over a vector *)

Lemma for_each_inv {A St : Type} (I : list A -> St -> Prop)
    (body : A -> St -> outcome St) (l : list A) (s : St) :
  I [] s ->
  (forall pre x s, I pre s -> exists s1, body x s = Ret s1 /\ I (pre ++ [x]) s1) ->
  exists s', for_each l body s = Ret s' /\ I l s'.
Proof.
  intros Hs Hbody.
  assert (forall post pre s, I pre s ->
            exists s', for_each post body s = Ret s' /\ I (pre ++ post) s') as Hgen.
  { induction post as [|x post IH]; intros pre s0 Hs0.
    - exists s0. split; [reflexivity|]. by rewrite app_nil_r.
    - destruct (Hbody pre x s0 Hs0) as (s1 & Hb & H1).
      destruct (IH (pre ++ [x]) s1 H1) as (s' & Hrun & H').
      exists s'. split.
      + cbn [for_each]. by rewrite Hb.
      + by rewrite <- app_assoc in H'. }
  apply (Hgen l [] s Hs).
Qed.

(** Updating the last element of a vector by its index. *)
Lemma vec_update_last {A : Type} (f : A -> A) (init : list A) (last : A) (j : Z) :
  j = Z.of_nat (length (init ++ [last])) - 1 ->
  vec_update f (init ++ [last]) j = Ret (init ++ [f last]).
Proof.
  intros Hj. rewrite length_app in Hj. cbn in Hj.
  assert (Z.to_nat j = (length init + 0)%nat) as Hnat by lia.
  unfold vec_update.
  assert (vec_at (init ++ [last]) j = Ret last) as ->.
  { apply vec_at_Ret. split; [lia|].
    rewrite Hnat, lookup_app_r by lia.
    by replace (length init + 0 - length init)%nat with 0%nat by lia. }
  cbn. rewrite Hnat, insert_app_r. reflexivity.
Qed.

(** *** The sections cover the stripes *)

(** The stripes of a section and of a vector of sections. *)
Definition section_stripes (s : section) : list Z :=
  seqZ (min_stripe s) (max_stripe s - min_stripe s + 1).

Definition sections_stripes (sectionVec : list section) : list Z :=
  sectionVec ≫= section_stripes.

Lemma sections_stripes_app (v1 v2 : list section) :
  sections_stripes (v1 ++ v2) = sections_stripes v1 ++ sections_stripes v2.
Proof. unfold sections_stripes. apply bind_app. Qed.

Lemma sections_stripes_singleton (s : section) :
  sections_stripes [s] = section_stripes s.
Proof. unfold sections_stripes. cbn. apply app_nil_r. Qed.

Lemma section_stripes_one (t : Z) :
  section_stripes {| min_stripe := t; max_stripe := t |} = [t].
Proof. unfold section_stripes. cbn. by replace (t - t + 1) with 1 by lia. Qed.

(** Moving the upper end of a section one stripe up adds that stripe. *)
Lemma section_stripes_extend (s : section) (t : Z) :
  min_stripe s <= max_stripe s -> t = max_stripe s + 1 ->
  section_stripes (set_max_stripe t s) = section_stripes s ++ [t].
Proof.
  intros Hle ->. unfold section_stripes. cbn.
  replace (max_stripe s + 1 - min_stripe s + 1)
    with ((max_stripe s - min_stripe s + 1) + 1) by lia.
  rewrite seqZ_app by lia. f_equal.
  replace (min_stripe s + (max_stripe s - min_stripe s + 1))
    with (max_stripe s + 1) by lia.
  reflexivity.
Qed.

(** The state of the first loop of [_FindSections] before index [i]. *)
Definition contiguous_inv (us : list Z) (i : Z) (st : list section * Z) : Prop :=
  st.2 = Z.of_nat (length st.1) - 1 /\
  sections_stripes st.1 = take (Z.to_nat i) us /\
  exists init last,
    st.1 = init ++ [last] /\ min_stripe last <= max_stripe last /\
    us !! Z.to_nat (i - 1) = Some (max_stripe last).

(** The first step returns, with sections that cover the stripes in their
    order. *)
Lemma contiguous_sections_stripes (us : list Z) :
  us <> [] ->
  exists cs, contiguous_sections us = Ret cs /\ sections_stripes cs = us.
Proof.
  intros Hne. destruct us as [|first us']; [done|]. clear Hne.
  set (us := first :: us'). unfold contiguous_sections.
  change (vec_at us 0) with (Ret first). cbn [mbind outcome_mbind outcome_bind].
  assert (1 <= vec_size us) as Hsize by (unfold vec_size, us; cbn; lia).
  destruct (for_range_inv (contiguous_inv us)
              (fun i '(contiguous_section, j) =>
                 cur ← vec_at us i;
                 prev ← vec_at us (i - 1);
                 if cur =? prev + 1 then
                   cs ← vec_update (set_max_stripe cur) contiguous_section j;
                   Ret (cs, j)
                 else
                   Ret (contiguous_section
                          ++ [{| min_stripe := cur; max_stripe := cur |}], j + 1))
              1 (vec_size us)
              ([{| min_stripe := first; max_stripe := first |}], 0) Hsize)
    as ([cs j] & Hloop & _ & Hstripes & _).
  - split; [reflexivity|]. split.
    + cbn [fst]. by rewrite sections_stripes_singleton, section_stripes_one.
    + exists [], {| min_stripe := first; max_stripe := first |}. by cbn.
  - intros i [cs0 j0] Hi (Hj & Hst & init & last & Hcs & Hle & Hprev).
    cbn [fst snd] in Hj, Hst, Hcs. subst cs0.
    destruct (vec_at_in_range us i) as [cur Hcur]; [lia|].
    assert (vec_at us (i - 1) = Ret (max_stripe last)) as Hp
      by (apply vec_at_Ret; split; [lia|done]).
    rewrite Hcur, Hp. cbn [mbind outcome_mbind outcome_bind].
    apply vec_at_Ret in Hcur as [_ Hcur].
    assert (take (Z.to_nat (i + 1)) us = take (Z.to_nat i) us ++ [cur]) as Htake.
    { replace (Z.to_nat (i + 1)) with (S (Z.to_nat i)) by lia.
      by apply take_S_r. }
    assert (us !! Z.to_nat (i + 1 - 1) = Some cur) as Hcur'
      by (by replace (i + 1 - 1) with i by lia).
    destruct (Z.eqb_spec cur (max_stripe last + 1)) as [Hnext|Hgap].
    + rewrite (vec_update_last _ _ _ _ Hj). cbn [mbind outcome_mbind outcome_bind].
      eexists. split; [reflexivity|].
      split; [cbn; rewrite !length_app in *; cbn in *; lia|]. split.
      * cbn [fst]. rewrite Htake, <- Hst, !sections_stripes_app.
        rewrite !sections_stripes_singleton.
        rewrite section_stripes_extend by done. by rewrite app_assoc.
      * exists init, (set_max_stripe cur last). cbn. repeat split; [lia|done].
    + eexists. split; [reflexivity|].
      split; [cbn; rewrite !length_app in *; cbn in *; lia|]. split.
      * cbn [fst]. rewrite Htake, <- Hst, (sections_stripes_app (init ++ [last])).
        by rewrite sections_stripes_singleton, section_stripes_one.
      * exists (init ++ [last]), {| min_stripe := cur; max_stripe := cur |}.
        by cbn.
  - rewrite Hloop. cbn [mbind outcome_mbind outcome_bind].
    exists cs. split; [reflexivity|]. cbn [fst] in Hstripes.
    rewrite Hstripes. unfold vec_size. rewrite Nat2Z.id. apply firstn_all.
Qed.

(** The state of the inner loop of the last step of [_FindSections] before
    the stripe [t] of the contiguous section [c], entered with the vector
    [sv0]. *)
Definition break_inv (region_width : Z) (c : section) (sv0 : list section)
    (t : Z) (st : list section * Z * Z) : Prop :=
  let '(sv, j, section_iter) := st in
  j = Z.of_nat (length sv) - 1 /\
  sections_stripes sv
  = sections_stripes sv0 ++ seqZ (min_stripe c) (t - min_stripe c) /\
  (t = min_stripe c -> section_iter = region_width) /\
  (min_stripe c < t ->
   exists init last, sv = init ++ [last] /\
     min_stripe last <= max_stripe last /\ max_stripe last = t - 1).

Lemma break_section_stripes (region_width : Z) (c : section)
    (sv0 : list section) (j0 : Z) :
  j0 = Z.of_nat (length sv0) - 1 ->
  exists sv j,
    break_section region_width c (sv0, j0) = Ret (sv, j) /\
    j = Z.of_nat (length sv) - 1 /\
    sections_stripes sv = sections_stripes sv0 ++ section_stripes c.
Proof.
  intros Hj0. unfold break_section.
  destruct (decide (min_stripe c <= max_stripe c + 1)) as [Hle|Hempty].
  - destruct (for_range_inv (break_inv region_width c sv0)
                (fun stripe_iter '(sectionVec, j, section_iter) =>
                   if section_iter =? region_width then
                     Ret (sectionVec ++ [{| min_stripe := stripe_iter;
                                            max_stripe := stripe_iter |}],
                          j + 1, 1)
                   else
                     sv ← vec_update (set_max_stripe stripe_iter) sectionVec j;
                     Ret (sv, j, section_iter + 1))
                (min_stripe c) (max_stripe c + 1) (sv0, j0, region_width) Hle)
      as ([[sv j] si] & Hloop & Hj & Hst & _).
    + split; [exact Hj0|]. split.
      * rewrite Z.sub_diag, seqZ_nil by lia. by rewrite app_nil_r.
      * split; [done|lia].
    + intros t [[sv2 j2] si2] Ht (Hj & Hst & Hfirst & Hlast).
      assert (seqZ (min_stripe c) (t + 1 - min_stripe c)
              = seqZ (min_stripe c) (t - min_stripe c) ++ [t]) as Hseq.
      { replace (t + 1 - min_stripe c) with ((t - min_stripe c) + 1) by lia.
        rewrite seqZ_app by lia. f_equal.
        by replace (min_stripe c + (t - min_stripe c)) with t by lia. }
      destruct (Z.eqb_spec si2 region_width) as [Hcut|Hgo].
      * eexists. split; [reflexivity|].
        split; [rewrite length_app; cbn; lia|]. split.
        -- rewrite sections_stripes_app, sections_stripes_singleton,
             section_stripes_one, Hst, Hseq. by rewrite app_assoc.
        -- split; [lia|]. intros _.
           exists sv2, {| min_stripe := t; max_stripe := t |}. cbn.
           repeat split; lia.
      * destruct (decide (t = min_stripe c)) as [Heq|Hne];
          [by specialize (Hfirst Heq)|].
        destruct Hlast as (init & last & -> & Hle' & Hmax); [lia|].
        rewrite (vec_update_last _ _ _ _ Hj).
        cbn [mbind outcome_mbind outcome_bind].
        eexists. split; [reflexivity|].
        split; [rewrite !length_app in *; cbn in *; lia|]. split.
        -- rewrite sections_stripes_app, sections_stripes_singleton.
           rewrite section_stripes_extend by (done || lia).
           rewrite Hseq, (app_assoc (sections_stripes sv0)), <- Hst.
           rewrite sections_stripes_app, sections_stripes_singleton.
           by rewrite app_assoc.
        -- split; [lia|]. intros _. exists init, (set_max_stripe t last).
           cbn. repeat split; lia.
    + rewrite Hloop. cbn [mbind outcome_mbind outcome_bind].
      exists sv, j. split; [reflexivity|]. split; [exact Hj|].
      rewrite Hst. unfold section_stripes.
      by replace (max_stripe c + 1 - min_stripe c)
        with (max_stripe c - min_stripe c + 1) by lia.
  - unfold for_range.
    replace (Z.to_nat (max_stripe c + 1 - min_stripe c)) with 0%nat by lia.
    cbn. exists sv0, j0. split; [reflexivity|]. split; [exact Hj0|].
    unfold section_stripes. rewrite seqZ_nil by lia. by rewrite app_nil_r.
Qed.

Lemma break_sections_stripes (region_width : Z) (cs : list section) :
  exists sv, break_sections region_width cs [] = Ret sv /\
             sections_stripes sv = sections_stripes cs.
Proof.
  unfold break_sections.
  pose (I := fun pre (st : list section * Z) =>
               st.2 = Z.of_nat (length st.1) - 1 /\
               sections_stripes st.1 = sections_stripes pre).
  destruct (for_each_inv I (break_section region_width) cs ([], -1))
    as ([sv j] & Hloop & _ & Hst); unfold I.
  - by cbn.
  - intros pre c [sv2 j2] [Hj Hst]. cbn [fst snd] in *.
    destruct (break_section_stripes region_width c sv2 j2 Hj)
      as (sv3 & j3 & Hrun & Hj3 & Hst3).
    exists (sv3, j3). split; [exact Hrun|]. split; [exact Hj3|]. cbn [fst].
    by rewrite Hst3, Hst, sections_stripes_app, sections_stripes_singleton.
  - rewrite Hloop. cbn. by exists sv.
Qed.

(** When the conversion of the width is defined, [_FindSections] returns,
    into an empty vector, sections that cover each of the stripes it was
    given once. *)
Lemma _FindSections_stripes (Nx0 : Z) (unique_stripes : list Z)
    (base_map_area : R) (n_region : Z) (rm : RegionMap) (region_width : Z) :
  unique_stripes <> [] ->
  section_width Nx0 base_map_area n_region rm = Ret region_width ->
  exists sv,
    _FindSections Nx0 unique_stripes base_map_area n_region [] rm = Ret sv /\
    sections_stripes sv = unique_stripes.
Proof.
  intros Hne Hwidth. unfold _FindSections.
  destruct (contiguous_sections_stripes unique_stripes Hne) as (cs & -> & Hcs).
  cbn [mbind outcome_mbind outcome_bind]. rewrite Hwidth.
  cbn [mbind outcome_mbind outcome_bind].
  destruct (break_sections_stripes region_width cs) as (sv & -> & Hsv).
  exists sv. split; [reflexivity|]. by rewrite Hsv.
Qed.

(** *** The unique stripes *)

Lemma stripe_dict_lookup (res : Z) (coverage_pix : list Pixel) :
  forall (d : gmap Z bool) (s : Z),
    is_Some (fold_left (fun d iter => <[Stripe iter res := true]> d)
               coverage_pix d !! s)
    <-> is_Some (d !! s) \/ exists p, p ∈ coverage_pix /\ Stripe p res = s.
Proof.
  induction coverage_pix as [|p cov IH]; intros d s; cbn [fold_left].
  - split; [by left|]. intros [H|(p & Hp & _)]; [done|by apply elem_of_nil in Hp].
  - rewrite IH. split.
    + intros [H|(q & Hq & Hs)].
      * destruct (decide (Stripe p res = s)) as [Heq|Hne].
        -- right. exists p. split; [apply elem_of_cons; by left|done].
        -- left. by rewrite lookup_insert_ne in H.
      * right. exists q. split; [apply elem_of_cons; by right|done].
    + intros [H|(q & Hq & Hs)].
      * left. destruct (decide (Stripe p res = s)) as [->|Hne];
          [by rewrite lookup_insert_eq|by rewrite lookup_insert_ne].
      * apply elem_of_cons in Hq as [->|Hq].
        -- left. rewrite <- Hs. by rewrite lookup_insert_eq.
        -- right. by exists q.
Qed.

(** [_FindUniqueStripes] lists each stripe of the coverage once. *)
Lemma _FindUniqueStripes_spec (coverage_pix : list Pixel) (rm : RegionMap) :
  NoDup (_FindUniqueStripes coverage_pix rm) /\
  forall s, s ∈ _FindUniqueStripes coverage_pix rm
            <-> exists p, p ∈ coverage_pix /\ Stripe p (region_resolution_ rm) = s.
Proof.
  unfold _FindUniqueStripes.
  set (d := fold_left _ coverage_pix ∅).
  assert (merge_sort Z.le (map_entries d).*1 ≡ₚ (map_to_list d).*1) as Hperm.
  { rewrite merge_sort_Permutation. unfold map_entries.
    by rewrite merge_sort_Permutation. }
  split.
  - rewrite Hperm. apply NoDup_fst_map_to_list.
  - intros s. rewrite Hperm. rewrite list_elem_of_fmap. split.
    + intros ([k v] & -> & Hin). apply elem_of_map_to_list in Hin.
      assert (is_Some (d !! k)) as Hk by eauto.
      apply stripe_dict_lookup in Hk as [Hk|Hk]; [|done].
      rewrite lookup_empty in Hk. by destruct Hk.
    + intros Hp.
      assert (is_Some (d !! s)) as [v Hv] by (apply stripe_dict_lookup; by right).
      exists (s, v). split; [done|]. by apply elem_of_map_to_list.
Qed.

(** *** Every pixel is reached once *)

Lemma in_section_stripes (rm : RegionMap) (s : section) (p : Pixel) :
  in_section rm s p <-> Stripe p (region_resolution_ rm) ∈ section_stripes s.
Proof.
  unfold in_section, section_stripes. rewrite elem_of_seqZ.
  rewrite andb_True, !Is_true_true, !Z.leb_le. lia.
Qed.

Lemma visited_cons (rm : RegionMap) (s : section) (secs : list section)
    (coverage_pix : list Pixel) :
  visited rm (s :: secs) coverage_pix
  = filter (fun iter => in_section rm s iter) coverage_pix
    ++ visited rm secs coverage_pix.
Proof. reflexivity. Qed.

(** Pixels outside the stripes of [secs] are not reached by its loops. *)
Lemma visited_filter (rm : RegionMap) (P : Pixel -> Prop)
    `{!forall p, Decision (P p)} (secs : list section) (coverage_pix : list Pixel) :
  (forall p, Stripe p (region_resolution_ rm) ∈ sections_stripes secs -> P p) ->
  visited rm secs (filter P coverage_pix) = visited rm secs coverage_pix.
Proof.
  induction secs as [|s secs IH]; intros HP; [reflexivity|].
  rewrite !visited_cons. f_equal.
  - apply list_filter_filter_l. intros p Hin. apply HP.
    unfold sections_stripes. rewrite bind_cons, elem_of_app. left.
    by apply in_section_stripes.
  - apply IH. intros p Hs. apply HP.
    unfold sections_stripes. rewrite bind_cons, elem_of_app. by right.
Qed.

Lemma visited_Permutation (rm : RegionMap) (secs : list section) :
  forall coverage_pix,
    NoDup (sections_stripes secs) ->
    (forall p, p ∈ coverage_pix ->
               Stripe p (region_resolution_ rm) ∈ sections_stripes secs) ->
    visited rm secs coverage_pix ≡ₚ coverage_pix.
Proof.
  induction secs as [|s secs IH]; intros cov Hnd Hcov.
  - destruct cov as [|p cov]; [done|].
    specialize (Hcov p ltac:(apply elem_of_cons; by left)).
    by apply elem_of_nil in Hcov.
  - unfold sections_stripes in Hnd. rewrite bind_cons in Hnd.
    apply NoDup_app in Hnd as (_ & Hdisj & Hnd).
    rewrite visited_cons.
    rewrite <- (visited_filter rm (fun p => ~ in_section rm s p)).
    + rewrite IH.
      * apply filter_app_complement.
      * exact Hnd.
      * intros p Hp. apply list_elem_of_filter in Hp as [Hout Hp].
        specialize (Hcov p Hp). unfold sections_stripes in Hcov.
        rewrite bind_cons, elem_of_app in Hcov.
        destruct Hcov as [Hin|Hin]; [|done].
        exfalso. apply Hout. by apply in_section_stripes.
    + intros p Hin Hs. apply in_section_stripes in Hs. by apply (Hdisj _ Hs).
Qed.

(** *** The areas of the regions *)




(** The sum of the stored areas of the regions [0 .. N-1]; a region without
    an entry counts for [0.0], as in [RegionArea]. *)
Definition stored_area (m : gmap Z R) (k : Z) : R := default 0%R (m !! k).



Lemma sum_from_stored_insert (m : gmap Z R) (i : Z) (v : R) :
  m !! i = None ->
  forall count k,
    sum_from count k (stored_area (<[i := v]> m))
    = (sum_from count k (stored_area m)
       + if decide (k <= i < k + Z.of_nat count)%Z then v else 0)%R.
Proof.
  intros Hi. induction count as [|c IH]; intros k; cbn [sum_from].
  - rewrite decide_False by lia. ring.
  - rewrite IH. unfold stored_area at 1 3.
    destruct (decide (k = i)) as [->|Hne].
    + rewrite lookup_insert_eq, Hi. cbn.
      rewrite decide_False by lia. rewrite decide_True by lia. ring.
    + rewrite lookup_insert_ne by done.
      destruct (decide (k + 1 <= i < k + 1 + Z.of_nat c)).
      * rewrite decide_True by lia. ring.
      * rewrite decide_False by lia. ring.
Qed.

Lemma region_sum_stored_insert (N : Z) (m : gmap Z R) (i : Z) (v : R) :
  m !! i = None -> 0 <= i < N ->
  region_sum N (stored_area (<[i := v]> m))
  = (region_sum N (stored_area m) + v)%R.
Proof.
  intros Hi HiN. unfold region_sum. rewrite sum_from_stored_insert by done.
  by rewrite decide_True by lia.
Qed.

(** Along a run: the closed regions and the running one add up to the
    accumulated area, no region from the current one on is closed, and every
    pixel met so far has an index of [start .. N-1]. *)
Lemma regionate_run_areas u m a N start (rm : RegionMap) pixels :
  0 <= start < N -> N <= 255 ->
  (forall k, start <= k -> region_area_ rm !! k = None) ->
  let st := regionate_run u m a N pixels
              (rm, {| region_area := 0%R; running_area := 0%R; n_pixel := 0;
                      region_iter := start |}) in
  (region_sum N (stored_area (region_area_ st.1)) + running_area st.2
   = region_sum N (stored_area (region_area_ rm)) + region_area st.2)%R /\
  (forall k, region_iter st.2 <= k -> region_area_ st.1 !! k = None) /\
  (forall k, is_Some (region_area_ st.1 !! k) ->
     is_Some (region_area_ rm !! k) \/ start <= k < region_iter st.2) /\
  (forall q, q ∈ pixels ->
     exists r, region_map_ st.1 !! Pixnum q = Some r /\ start <= r < N).
Proof.
  intros Hstart HN Hclosed. induction pixels as [|p pixels IH] using rev_ind.
  - cbn. split; [ring|]. split; [exact Hclosed|]. split; [by left|].
    intros q Hq. by apply elem_of_nil in Hq.
  - cbn zeta in *. rewrite regionate_run_snoc.
    pose proof (regionate_run_invariant u m a N start rm pixels Hstart HN)
      as [_ Hiter].
    destruct (regionate_run u m a N pixels _) as [rm1 l]. cbn [fst snd] in *.
    destruct IH as (Hsum & Hopen & Hkeys & Hmap). unfold regionate_pixel.
    destruct (_ || _) eqn:Htest; cbn [fst snd region_area_ region_map_
      set_region_map set_region_area running_area region_area region_iter].
    + split; [lra|]. split; [exact Hopen|]. split; [exact Hkeys|].
      intros q Hq. apply elem_of_app in Hq as [Hq|Hq].
      * destruct (decide (Pixnum p = Pixnum q)) as [->|Hne].
        -- rewrite lookup_insert_eq. eauto.
        -- rewrite lookup_insert_ne by done. by apply Hmap.
      * apply list_elem_of_singleton in Hq as ->. rewrite lookup_insert_eq. eauto.
    + apply orb_false_elim in Htest as [_ Hlast]. apply Z.eqb_neq in Hlast.
      assert (wrap_signed 16 (region_iter l + 1) = region_iter l + 1) as ->.
      { unfold wrap_signed. rewrite Z.mod_small; lia. }
      split; [|split; [|split]].
      * rewrite region_sum_stored_insert; [lra|by apply Hopen|lia].
      * intros k Hk. rewrite lookup_insert_ne by lia. apply Hopen. lia.
      * intros k Hk. destruct (decide (region_iter l = k)) as [<-|Hne];
          [right; lia|].
        rewrite lookup_insert_ne in Hk by done.
        destruct (Hkeys k Hk) as [?|?]; [by left|right; lia].
      * intros q Hq. apply elem_of_app in Hq as [Hq|Hq].
        -- destruct (decide (Pixnum p = Pixnum q)) as [->|Hne].
           ++ rewrite lookup_insert_eq. eexists. split; [done|lia].
           ++ rewrite lookup_insert_ne by done. by apply Hmap.
        -- apply list_elem_of_singleton in Hq as ->. rewrite lookup_insert_eq.
           eexists. split; [done|lia].
Qed.

Section area_conservation.
Variable PixelArea : Z -> R.
Variable Nx0 : Z.

End area_conservation.

(** *** The example map, regionated in two *)

Definition example_rm : RegionMap :=
  set_region_resolution 4 (ClearRegions new_RegionMap).


(** sqrt (8 / 2) * 36 * 4 / 360 = 0.8, which the conversion cuts to 0; the
    width is then set to 1. *)
Lemma example_section_width : section_width 36 8 2 example_rm = Ret 1.
Proof.
  unfold section_width.
  change (region_resolution_ example_rm) with 4.
  assert (sqrt (8 / 2) = 2)%R as ->.
  { replace (8 / 2)%R with (2 * 2)%R by lra. apply sqrt_square. lra. }
  assert (double_to_uint8 (2 * 36 * 4 / 360)%R = Ret 0) as ->; [|reflexivity].
  unfold double_to_uint8, double_truncate.
  destruct (Rle_dec 0 (2 * 36 * 4 / 360)) as [_|Hn]; [|exfalso; apply Hn; lra].
  rewrite <- (Int_part_spec (2 * 36 * 4 / 360) 0) by lra.
  reflexivity.
Qed.



(** ** C8: to the over-density and back *)

Import field_union.










(** *** A run of [InitializeRegions] on the example map *)





(** * Further properties of the bins *)

Import angular_bin.

(** ** Vectors written at every index *)

(** [updated F k old new]: [new] is [old] with [F j] applied at every index
    [j] below [k]. *)
Definition updated {A : Type} (F : Z -> A -> A) (k : Z) (old new : list A)
  : Prop :=
  forall j : nat,
    new !! j = (fun x => if decide (Z.of_nat j < k) then F (Z.of_nat j) x else x)
               <$> old !! j.

Lemma updated_start {A : Type} (F : Z -> A -> A) (v : list A) : updated F 0 v v.
Proof.
  intros j. destruct (v !! j); [|done]. cbn.
  destruct (decide _); [lia|done].
Qed.

Lemma updated_step {A : Type} (F : Z -> A -> A) (g : A -> A) (k : Z)
    (old new : list A) (x : A) :
  0 <= k -> old !! Z.to_nat k = Some x -> g x = F k x ->
  updated F k old new ->
  vec_at new k = Ret x /\
  exists v, vec_update g new k = Ret v /\ updated F (k + 1) old v.
Proof.
  intros Hk Hx Hg H.
  assert (new !! Z.to_nat k = Some x) as Hn.
  { rewrite (H (Z.to_nat k)), Hx. cbn. destruct (decide _); [lia|done]. }
  assert (vec_at new k = Ret x) as Hat by (apply vec_at_Ret; done).
  split; [done|].
  exists (<[Z.to_nat k := g x]> new). split.
  - unfold vec_update. by rewrite Hat.
  - intros j. destruct (decide (j = Z.to_nat k)) as [->|Hj].
    + rewrite list_lookup_insert_eq by (by eapply lookup_lt_Some).
      rewrite Hx. cbn. destruct (decide _); [|lia].
      by rewrite Hg, Z2Nat.id.
    + rewrite list_lookup_insert_ne by done. rewrite (H j).
      destruct (old !! j); [|done]. cbn. f_equal.
      repeat destruct (decide _); try done; exfalso; lia.
Qed.

Lemma updated_all {A : Type} (F : Z -> A -> A) (old new : list A) :
  updated F (vec_size old) old new ->
  new = imap (fun j x => F (Z.of_nat j) x) old.
Proof.
  intros H. apply list_eq. intros j. rewrite (H j), list_lookup_imap.
  destruct (old !! j) eqn:E; [|done]. cbn.
  apply lookup_lt_Some in E. unfold vec_size.
  destruct (decide _); [done|lia].
Qed.

Lemma imap_const_replicate {A B : Type} (c : B) (l : list A) :
  imap (fun _ _ => c) l = replicate (length l) c.
Proof.
  apply list_eq. intros j. rewrite list_lookup_imap.
  destruct (l !! j) eqn:E; cbn.
  - symmetry. apply lookup_replicate. split; [done|]. by eapply lookup_lt_Some.
  - symmetry. apply lookup_ge_None_2. rewrite length_replicate.
    by apply lookup_ge_None_1.
Qed.

(** A loop that writes one vector at every index. *)
Lemma for_range_updated {A St : Type} (F : Z -> A -> A) (get : St -> list A)
    (J : St -> Prop) (body : Z -> St -> outcome St) (n : Z) (s : St) :
  vec_size (get s) = n -> J s ->
  (forall k s' x, 0 <= k < n -> J s' -> get s !! Z.to_nat k = Some x ->
     updated F k (get s) (get s') ->
     exists s'', body k s' = Ret s'' /\ J s'' /\
                 updated F (k + 1) (get s) (get s'')) ->
  exists s', for_range 0 n body s = Ret s' /\ J s' /\
             get s' = imap (fun j x => F (Z.of_nat j) x) (get s).
Proof.
  intros Hn HJ Hbody.
  destruct (for_range_inv (fun k s' => J s' /\ updated F k (get s) (get s'))
              body 0 n s) as (s' & E & HJ' & Hu).
  - unfold vec_size in Hn. lia.
  - split; [done|apply updated_start].
  - intros k s' Hk [HJ' Hu].
    destruct (lookup_lt_is_Some_2 (get s) (Z.to_nat k)) as [x Hx].
    { unfold vec_size in Hn. lia. }
    destruct (Hbody k s' x Hk HJ' Hx Hu) as (s'' & E & HJ'' & Hu'').
    by exists s''.
  - exists s'. split; [done|]. split; [done|].
    apply updated_all. by rewrite Hn.
Qed.

(** ** [move_weight] *)


Lemma counter_sum_set (c : Counter) (v : R) (b : angular_bin) :
  counter_sum c (set_counter_sum c v b) = v.
Proof. by destruct c. Qed.




Lemma region_getter_in_range {A : Type} (global sentinel : A) (v : list A)
    (k : Z) (b : angular_bin) :
  0 <= k < n_region_ b ->
  region_getter global v sentinel k b = vec_at v k.
Proof.
  intros Hk. unfold region_getter.
  assert ((k =? -1) = false) as -> by (apply Z.eqb_neq; lia).
  by assert ((k <? n_region_ b) = true) as -> by (apply Z.ltb_lt; lia).
Qed.


Definition three_regions : angular_bin := new_angular_bin (PI / 180) 1 2 3.


(** ** [init_regions] *)

Lemma init_regions_pushes (b : angular_bin) (n : Z) :
  forall (m : nat) (pw gg gr rg rr pxt pxw wt wte : list R) (pc : list Z),
    Nat.iter m init_regions_push
      (set_regions pw gg gr rg rr pxt pxw wt wte pc n b)
    = set_regions (pw ++ replicate m 0%R) (gg ++ replicate m 0%R)
        (gr ++ replicate m 0%R) (rg ++ replicate m 0%R)
        (rr ++ replicate m 0%R) (pxt ++ replicate m 0%R)
        (pxw ++ replicate m 0%R) (wt ++ replicate m 0%R)
        (wte ++ replicate m 0%R) (pc ++ replicate m 0) n b.
Proof.
  induction m as [|m IH]; intros.
  - cbn. by rewrite !app_nil_r.
  - rewrite Nat.iter_succ, IH.
    rewrite !replicate_S_end, !app_assoc. reflexivity.
Qed.

Lemma init_regions_zero (n : Z) (b : angular_bin) :
  0 <= n ->
  init_regions n b
  = set_regions (replicate (Z.to_nat n) 0%R) (replicate (Z.to_nat n) 0%R)
      (replicate (Z.to_nat n) 0%R) (replicate (Z.to_nat n) 0%R)
      (replicate (Z.to_nat n) 0%R) (replicate (Z.to_nat n) 0%R)
      (replicate (Z.to_nat n) 0%R) (replicate (Z.to_nat n) 0%R)
      (replicate (Z.to_nat n) 0%R) (replicate (Z.to_nat n) 0) n b.
Proof.
  intros Hn. unfold init_regions. destruct (decide (n < 0)); [lia|].
  unfold clear_regions. cbn [pair_weight_region_ gal_gal_region_
    gal_rand_region_ rand_gal_region_ rand_rand_region_ pixel_wtheta_region_
    pixel_weight_region_ wtheta_region_ wtheta_error_region_
    pair_counts_region_ set_regions].
  exact (init_regions_pushes b n (Z.to_nat n) [] [] [] [] [] [] [] [] [] []).
Qed.

Lemma init_regions_negative (n : Z) (b : angular_bin) :
  n < 0 -> init_regions n b = clear_regions b.
Proof. intros Hn. unfold init_regions. by destruct (decide (n < 0)). Qed.

(** ** The vectors keep [n_region_] entries *)

(** The ten per-region vectors have [n_region_] entries each. *)
Definition regions_sized (b : angular_bin) : Prop :=
  vec_size (pair_weight_region_ b) = n_region_ b /\
  vec_size (pair_counts_region_ b) = n_region_ b /\
  vec_size (gal_gal_region_ b) = n_region_ b /\
  vec_size (gal_rand_region_ b) = n_region_ b /\
  vec_size (rand_gal_region_ b) = n_region_ b /\
  vec_size (rand_rand_region_ b) = n_region_ b /\
  vec_size (pixel_wtheta_region_ b) = n_region_ b /\
  vec_size (pixel_weight_region_ b) = n_region_ b /\
  vec_size (wtheta_region_ b) = n_region_ b /\
  vec_size (wtheta_error_region_ b) = n_region_ b.











Ltac sound_start b :=
  intros [((?&?&?&?&?&?&?&?&?&?)&?&?) [? ?]].

Section methods_keep.
Variable n : Z.
Variable bd : R * R * R * R * R * R.












End methods_keep.


(** *** Any sequence of calls *)

Section methods.
Variable MAX_LEVEL : Z.
Variable average_area : Z -> R.
Variables double_ge double_le : R -> R -> bool.
Variable DEG_TO_RAD : R.



(** The cosines and squared sines that the bin keeps are those of its
    bounds. *)
Definition bounds_cached (b : angular_bin) : Prop :=
  costheta_min_ b = cos (theta_max_ b * DEG_TO_RAD) /\
  costheta_max_ b = cos (theta_min_ b * DEG_TO_RAD) /\
  sin2theta_min_ b
  = (sin (theta_min_ b * DEG_TO_RAD) * sin (theta_min_ b * DEG_TO_RAD))%R /\
  sin2theta_max_ b
  = (sin (theta_max_ b * DEG_TO_RAD) * sin (theta_max_ b * DEG_TO_RAD))%R.






End methods.

(** ** [init_regions] and [reset] *)


Definition region_sums_zero (b : angular_bin) : Prop :=
  let zeros := replicate (Z.to_nat (n_region_ b)) 0%R in
  pair_weight_region_ b = zeros /\
  pair_counts_region_ b = replicate (Z.to_nat (n_region_ b)) 0 /\
  gal_gal_region_ b = zeros /\ gal_rand_region_ b = zeros /\
  rand_gal_region_ b = zeros /\ rand_rand_region_ b = zeros /\
  pixel_wtheta_region_ b = zeros /\ pixel_weight_region_ b = zeros /\
  wtheta_region_ b = zeros /\ wtheta_error_region_ b = zeros.

(** What neither [init_regions] nor [reset] touches. *)
Definition same_bounds (b b' : angular_bin) : Prop :=
  theta_min_ b' = theta_min_ b /\ theta_max_ b' = theta_max_ b /\
  theta_ b' = theta_ b /\
  costheta_min_ b' = costheta_min_ b /\ costheta_max_ b' = costheta_max_ b /\
  sin2theta_min_ b' = sin2theta_min_ b /\ sin2theta_max_ b' = sin2theta_max_ b /\
  level_ b' = level_ b /\
  set_wtheta_ b' = set_wtheta_ b /\ set_wtheta_error_ b' = set_wtheta_error_ b.

Lemma region_sums_zero_sized (b : angular_bin) :
  0 <= n_region_ b -> region_sums_zero b -> regions_sized b.
Proof.
  unfold region_sums_zero. intros Hn (E1&E2&E3&E4&E5&E6&E7&E8&E9&E10).
  unfold regions_sized, vec_size.
  rewrite E1, E2, E3, E4, E5, E6, E7, E8, E9, E10, !length_replicate.
  repeat split; lia.
Qed.

(** X3.  [init_regions(n_regions)], for an [int] that is not negative,
    leaves a bin with [n_regions] regions whose ten vectors hold
    [n_regions] zeros, whatever they held before; [regions_initialized()]
    then returns true.  For a negative argument the bin has no region.
    The sums of the survey and the bounds are not touched. *)
Theorem init_regions_zeroes (n_regions : Z) (b : angular_bin) :
  n_regions <= int_max ->
  let b' := init_regions n_regions b in
  n_region_ b' = Z.max 0 n_regions /\
  region_sums_zero b' /\
  regions_initialized b' = Ret true /\
  same_bounds b b' /\
  pair_weight_ b' = pair_weight_ b /\ pair_count_ b' = pair_count_ b /\
  gal_gal_ b' = gal_gal_ b /\ gal_rand_ b' = gal_rand_ b /\
  rand_gal_ b' = rand_gal_ b /\ rand_rand_ b' = rand_rand_ b /\
  pixel_wtheta_ b' = pixel_wtheta_ b /\ pixel_weight_ b' = pixel_weight_ b.
Proof.
  intros Hmax b'. subst b'. unfold int_max in Hmax.
  destruct (decide (n_regions < 0)) as [Hn|Hn].
  - rewrite init_regions_negative by done.
    split; [cbn; lia|]. by repeat split.
  - rewrite init_regions_zero by lia.
    split; [cbn; lia|]. split; [by repeat split|].
    split; [|by repeat split].
    unfold regions_initialized, vec_size, wrap_unsigned. cbn.
    rewrite !length_replicate, Z.mod_small by lia.
    rewrite Z2Nat.id by lia. by rewrite Z.eqb_refl.
Qed.

Lemma init_regions_zeroes_witness :
  let b' := init_regions 3 three_regions in
  n_region_ b' = Z.max 0 3 /\
  region_sums_zero b' /\
  regions_initialized b' = Ret true /\
  same_bounds three_regions b' /\
  pair_weight_ b' = pair_weight_ three_regions /\
  pair_count_ b' = pair_count_ three_regions /\
  gal_gal_ b' = gal_gal_ three_regions /\
  gal_rand_ b' = gal_rand_ three_regions /\
  rand_gal_ b' = rand_gal_ three_regions /\
  rand_rand_ b' = rand_rand_ three_regions /\
  pixel_wtheta_ b' = pixel_wtheta_ three_regions /\
  pixel_weight_ b' = pixel_weight_ three_regions.
Proof.
  apply (init_regions_zeroes 3 three_regions). unfold int_max. lia.
Defined.


(** One write of the loop of [reset]: the vector [v] is being put to zero. *)
Ltac zero_region old H :=
  match goal with
  | |- context [vec_update ?f ?v ?k] =>
      let x := fresh "x" in
      let Hx := fresh "Hx" in
      let v' := fresh "v" in
      let E := fresh "E" in
      let Hv := fresh "Hv" in
      destruct (lookup_lt_is_Some_2 old (Z.to_nat k)) as [x Hx];
      [unfold regions_sized, vec_size in *; lia|];
      destruct (updated_step (fun _ _ => _) f k old v x ltac:(lia) Hx eq_refl H)
        as (_ & v' & E & Hv);
      rewrite E; clear E x Hx; cbn
  end.

Lemma updated_zero {A : Type} (z : A) (n : Z) (old new : list A) :
  vec_size old = n -> updated (fun _ _ => z) n old new ->
  new = replicate (Z.to_nat n) z.
Proof.
  intros <- H. apply updated_all in H. rewrite H, imap_const_replicate.
  unfold vec_size. by rewrite Nat2Z.id.
Qed.



Lemma three_regions_sized : regions_sized three_regions.
Proof. by repeat split. Qed.


(** ** [rescale_pair_counts] *)





(** ** The region argument of the getters *)

Lemma region_getter_beyond {A : Type} (global sentinel : A) (v : list A)
    (region : Z) (b : angular_bin) :
  0 <= n_region_ b <= region ->
  region_getter global v sentinel region b = Ret sentinel.
Proof.
  intros Hr. unfold region_getter.
  assert ((region =? -1) = false) as -> by (apply Z.eqb_neq; lia).
  by assert ((region <? n_region_ b) = false) as -> by (apply Z.ltb_ge; lia).
Qed.

Lemma region_getter_below {A : Type} (global sentinel : A) (v : list A)
    (region : Z) (b : angular_bin) :
  0 <= n_region_ b -> region < -1 ->
  region_getter global v sentinel region b = Undefined.
Proof.
  intros Hn Hr. unfold region_getter.
  assert ((region =? -1) = false) as -> by (apply Z.eqb_neq; lia).
  assert ((region <? n_region_ b) = true) as -> by (apply Z.ltb_lt; lia).
  unfold vec_at. destruct (decide (0 <= region)); [lia|done].
Qed.

(** X6.  The getters that take a region, on a bin with [n_region_ >= 0]:
    for a region index [beyond] of [n_region_] or more each of them
    returns [-1] and reads no vector; for an index [below] under [-1] each
    of them reads a vector at a negative index, which is undefined. *)
Theorem region_out_of_range (b : angular_bin) (beyond below : Z) (c : Counter) :
  0 <= n_region_ b <= beyond -> below < -1 ->
  (wtheta_region beyond b = Ret (-1)%R /\
   wtheta_error_region beyond b = Ret (-1)%R /\
   weighted_cross_correlation_region beyond b = Ret (-1)%R /\
   pixel_wtheta_at beyond b = Ret (-1)%R /\
   pixel_weight_at beyond b = Ret (-1)%R /\
   pair_weight_at beyond b = Ret (-1)%R /\
   pair_counts_at beyond b = Ret (-1) /\
   pair_weight_counter_at c beyond b = Ret (-1)%R) /\
  (wtheta_region below b = Undefined /\
   wtheta_error_region below b = Undefined /\
   weighted_cross_correlation_region below b = Undefined /\
   pixel_wtheta_at below b = Undefined /\
   pixel_weight_at below b = Undefined /\
   pair_weight_at below b = Undefined /\
   pair_counts_at below b = Undefined /\
   pair_weight_counter_at c below b = Undefined).
Proof.
  intros Hn Hr. split.
  - unfold wtheta_region, wtheta_error_region,
      weighted_cross_correlation_region, pixel_wtheta_at, pixel_weight_at,
      pair_weight_at, pair_counts_at, pair_weight_counter_at.
    rewrite !region_getter_beyond by lia.
    assert ((beyond =? -1) = false) as -> by (apply Z.eqb_neq; lia).
    assert ((beyond <? n_region_ b) = false) as -> by (apply Z.ltb_ge; lia).
    repeat split;
      by destruct (set_wtheta_ b), (set_wtheta_error_ b),
                  (level_ b =? -1), (level_ b =? 0).
  - unfold wtheta_region, wtheta_error_region,
      weighted_cross_correlation_region, pixel_wtheta_at, pixel_weight_at,
      pair_weight_at, pair_counts_at, pair_weight_counter_at.
    rewrite !region_getter_below by lia.
    assert ((below =? -1) = false) as -> by (apply Z.eqb_neq; lia).
    assert ((below <? n_region_ b) = true) as -> by (apply Z.ltb_lt; lia).
    assert (forall A (v : list A), vec_at v below = Undefined) as Hat.
    { intros A v. unfold vec_at. destruct (decide (0 <= below)); [lia|done]. }
    rewrite !Hat.
    repeat split;
      by destruct (set_wtheta_ b), (set_wtheta_error_ b),
                  (level_ b =? -1), (level_ b =? 0).
Qed.

Lemma region_out_of_range_witness :
  (wtheta_region 3 three_regions = Ret (-1)%R /\
   wtheta_error_region 3 three_regions = Ret (-1)%R /\
   weighted_cross_correlation_region 3 three_regions = Ret (-1)%R /\
   pixel_wtheta_at 3 three_regions = Ret (-1)%R /\
   pixel_weight_at 3 three_regions = Ret (-1)%R /\
   pair_weight_at 3 three_regions = Ret (-1)%R /\
   pair_counts_at 3 three_regions = Ret (-1) /\
   pair_weight_counter_at GAL_GAL 3 three_regions = Ret (-1)%R) /\
  (wtheta_region (-2) three_regions = Undefined /\
   wtheta_error_region (-2) three_regions = Undefined /\
   weighted_cross_correlation_region (-2) three_regions = Undefined /\
   pixel_wtheta_at (-2) three_regions = Undefined /\
   pixel_weight_at (-2) three_regions = Undefined /\
   pair_weight_at (-2) three_regions = Undefined /\
   pair_counts_at (-2) three_regions = Undefined /\
   pair_weight_counter_at GAL_GAL (-2) three_regions = Undefined).
Proof.
  apply (region_out_of_range three_regions 3 (-2) GAL_GAL);
    [change (0 <= 3 <= 3)|]; lia.
Defined.

(** ** The error of a pair-based bin *)

(** X7.  On a pair-based bin (level [-1], where the constructors leave it)
    without a stored error, [wtheta_error()] is [1 / sqrt(gal_gal_)], as
    [wtheta()] and [wtheta(region)] are made of the pair sums; but
    [wtheta_error(region)] tests the level against [0], so that
    [wtheta_error(-1)] is [1 / sqrt(pixel_weight_)] and [wtheta_error(k)]
    is [1 / sqrt(pixel_weight_region_[k])], made of the pixel sums. *)
Theorem wtheta_error_of_a_pair_bin (b : angular_bin) (k : Z) :
  regions_sized b ->
  set_wtheta_ b = false -> set_wtheta_error_ b = false ->
  level_ b = -1 ->
  0 <= k < n_region_ b ->
  wtheta_region (-1) b = Ret (wtheta b) /\
  wtheta_error b = (1 / sqrt (gal_gal_ b))%R /\
  wtheta_error_region (-1) b = Ret (1 / sqrt (pixel_weight_ b))%R /\
  exists gg gr rg rr pw,
    pair_weight_counter_at GAL_GAL k b = Ret gg /\
    pair_weight_counter_at GAL_RAND k b = Ret gr /\
    pair_weight_counter_at RAND_GAL k b = Ret rg /\
    pair_weight_counter_at RAND_RAND k b = Ret rr /\
    pixel_weight_at k b = Ret pw /\
    wtheta_region k b = Ret ((gg - gr - rg + rr) / rr)%R /\
    wtheta_error_region k b = Ret (1 / sqrt pw)%R.
Proof.
  intros (_&_&Hgg&Hgr&Hrg&Hrr&_&Hpw&_) Hw He Hl Hk.
  unfold wtheta_region, wtheta, wtheta_error, wtheta_error_region.
  rewrite Hw, He, Hl. cbn [Z.eqb Pos.eqb].
  split; [reflexivity|]. split; [reflexivity|]. split; [reflexivity|].
  destruct (vec_at_in_range (gal_gal_region_ b) k) as [gg Egg]; [lia|].
  destruct (vec_at_in_range (gal_rand_region_ b) k) as [gr Egr]; [lia|].
  destruct (vec_at_in_range (rand_gal_region_ b) k) as [rg Erg]; [lia|].
  destruct (vec_at_in_range (rand_rand_region_ b) k) as [rr Err]; [lia|].
  destruct (vec_at_in_range (pixel_weight_region_ b) k) as [pw Epw]; [lia|].
  exists gg, gr, rg, rr, pw.
  unfold pair_weight_counter_at, pixel_weight_at.
  rewrite !region_getter_in_range by lia. cbn [counter_region].
  assert ((k =? -1) = false) as -> by (apply Z.eqb_neq; lia).
  assert ((k <? n_region_ b) = true) as -> by (apply Z.ltb_lt; lia).
  rewrite Egg, Egr, Erg, Err, Epw. by repeat split.
Qed.

(** Three regions with pair sums and pixel sums that are not zero. *)
Definition pair_bin : angular_bin :=
  set_gal_gal 9 (set_gal_rand 3 (set_rand_gal 3 (set_rand_rand 2
    (set_pixel_wtheta 1 (set_pixel_weight 16
      (set_regions [0; 0; 0] [6; 6; 6] [2; 2; 2] [2; 2; 2] [1; 1; 1]
         [1; 1; 1] [8; 8; 8] [0; 0; 0] [0; 0; 0] [0%Z; 0%Z; 0%Z] 3%Z
         three_regions))))))%R.

Lemma wtheta_error_of_a_pair_bin_witness :
  wtheta_region (-1) pair_bin = Ret (wtheta pair_bin) /\
  wtheta_error pair_bin = (1 / sqrt (gal_gal_ pair_bin))%R /\
  wtheta_error_region (-1) pair_bin
  = Ret (1 / sqrt (pixel_weight_ pair_bin))%R /\
  exists gg gr rg rr pw,
    pair_weight_counter_at GAL_GAL 1 pair_bin = Ret gg /\
    pair_weight_counter_at GAL_RAND 1 pair_bin = Ret gr /\
    pair_weight_counter_at RAND_GAL 1 pair_bin = Ret rg /\
    pair_weight_counter_at RAND_RAND 1 pair_bin = Ret rr /\
    pixel_weight_at 1 pair_bin = Ret pw /\
    wtheta_region 1 pair_bin = Ret ((gg - gr - rg + rr) / rr)%R /\
    wtheta_error_region 1 pair_bin = Ret (1 / sqrt pw)%R.
Proof.
  apply (wtheta_error_of_a_pair_bin pair_bin 1);
    [by repeat split | reflexivity | reflexivity | reflexivity |].
  change (0 <= 1 < 3). lia.
Defined.

(** ** The level and the upper bound *)

Section level_by_theta_max.
Variable MAX_LEVEL : Z.
Variable average_area : Z -> R.
Variables double_ge double_le : R -> R -> bool.
(** The comparisons of core.h accept whatever the exact ones accept. *)
Hypothesis double_ge_inclusive : forall x y : R, (y <= x)%R -> double_ge x y = true.
Hypothesis double_le_inclusive : forall x y : R, (x <= y)%R -> double_le x y = true.

Lemma level_accepted_theta_max (b : angular_bin) (level : Z) :
  (theta_min_ b <= theta_max_ b)%R ->
  level_accepted average_area double_ge double_le b level
  = double_le (level_scale average_area level) (theta_max_ b).
Proof.
  intros Hb. unfold level_accepted, is_within_bounds, double_lt.
  destruct (Rlt_dec _ _) as [Hlt|Hge].
  - rewrite orb_true_r. symmetry. apply double_le_inclusive. lra.
  - rewrite orb_false_r, double_ge_inclusive by lra. reflexivity.
Qed.

(** X8.  When [theta_min_ <= theta_max_], with comparisons that accept
    whatever the exact ones accept and areas that are not negative, the
    level that [find_level()] sets
    does not depend on [theta_min_]: it is the first level of
    [0 .. MAX_LEVEL-1] whose scale [sqrt (2 * average_area level)] passes
    [double_le] against [theta_max_], and [-1] when there is none. *)
Theorem find_level_by_theta_max (b : angular_bin) :
  (forall level : Z, (0 <= average_area level)%R) ->
  (theta_min_ b <= theta_max_ b)%R ->
  let L := level_ (find_level MAX_LEVEL average_area double_ge double_le b) in
  let fits level :=
    double_le (level_scale average_area level) (theta_max_ b) in
  (L = -1 /\ forall l, 0 <= l < MAX_LEVEL -> fits l = false)
  \/ (0 <= L < MAX_LEVEL /\ fits L = true /\
      forall l, 0 <= l < L -> fits l = false).
Proof.
  intros _ Hb L fits. subst L fits. cbn beta. unfold find_level.
  destruct (find_level_loop_spec average_area double_ge double_le
              (set_level (-1) b) (Z.to_nat MAX_LEVEL) 0)
    as [[E Hall] | (E & Hr & Hacc & Hbelow)].
  - left. rewrite E. split; [reflexivity|]. intros l Hl.
    rewrite <- level_accepted_theta_max by done.
    rewrite <- (level_accepted_set_level _ _ _ b (-1)). apply Hall. lia.
  - right. rewrite level_accepted_set_level in Hacc.
    split; [lia|]. split.
    + by rewrite <- level_accepted_theta_max.
    + intros l Hl. rewrite <- level_accepted_theta_max by done.
      rewrite <- (level_accepted_set_level _ _ _ b (-1)). by apply Hbelow.
Qed.
End level_by_theta_max.

Lemma sphere_index_double_ge (x y : R) :
  (y <= x)%R -> sphere_index.double_ge x y = true.
Proof.
  intros H. unfold sphere_index.double_ge, sphere_index.tolerance.
  destruct (Rle_dec _ _) as [|Hn]; [done|]. exfalso. apply Hn. lra.
Qed.

Lemma sphere_index_double_le (x y : R) :
  (x <= y)%R -> sphere_index.double_le x y = true.
Proof.
  intros H. unfold sphere_index.double_le, sphere_index.tolerance.
  destruct (Rle_dec _ _) as [|Hn]; [done|]. exfalso. apply Hn. lra.
Qed.

Lemma sphere_index_average_area (level : Z) :
  (0 <= sphere_index.average_area level)%R.
Proof.
  unfold sphere_index.average_area. pose proof PI_RGT_0 as Hpi.
  assert (0 <= IZR (4 ^ level))%R as Hd by (apply IZR_le; lia).
  unfold Rdiv. apply Rmult_le_pos; [lra|].
  destruct (Req_dec (6 * IZR (4 ^ level)) 0) as [->|Hne].
  - rewrite Rinv_0. lra.
  - left. apply Rinv_0_lt_compat. lra.
Qed.

Lemma find_level_by_theta_max_witness :
  let L := level_ (find_level sphere_index.MAX_LEVEL sphere_index.average_area
                     sphere_index.double_ge sphere_index.double_le wide_bin) in
  let fits level :=
    sphere_index.double_le (level_scale sphere_index.average_area level)
      (theta_max_ wide_bin) in
  (L = -1 /\ forall l, 0 <= l < sphere_index.MAX_LEVEL -> fits l = false)
  \/ (0 <= L < sphere_index.MAX_LEVEL /\ fits L = true /\
      forall l, 0 <= l < L -> fits l = false).
Proof.
  apply (find_level_by_theta_max sphere_index.MAX_LEVEL
           sphere_index.average_area sphere_index.double_ge
           sphere_index.double_le sphere_index_double_ge
           sphere_index_double_le wide_bin sphere_index_average_area).
  change (1 / 2 <= 3)%R. lra.
Defined.

(** ** The tests on the cosine and on the squared sine *)

Section cached_bounds.
Variables double_ge double_le : R -> R -> bool.
Variable DEG_TO_RAD : R.
Hypothesis double_ge_inclusive : forall x y : R, (y <= x)%R -> double_ge x y = true.
Hypothesis double_le_inclusive : forall x y : R, (x <= y)%R -> double_le x y = true.

(** X9.  On a bin that holds the cosines of its bounds, and whose bounds
    span angles of [0 .. PI] radians, an angle [theta] with
    [theta_min_ <= theta <= theta_max_] passes [is_within_bounds], and its
    cosine passes [is_within_cos_bounds]: the test on the cosine loses no
    pair that the test on the angle keeps. *)
Theorem cos_bounds_keep_the_angles (b : angular_bin) (theta : R) :
  bounds_cached DEG_TO_RAD b ->
  (0 <= DEG_TO_RAD)%R ->
  (0 <= theta_min_ b)%R -> (theta_max_ b * DEG_TO_RAD <= PI)%R ->
  (theta_min_ b <= theta <= theta_max_ b)%R ->
  is_within_bounds double_ge double_le theta b = true /\
  is_within_cos_bounds double_ge double_le (cos (theta * DEG_TO_RAD)) b = true.
Proof.
  intros (Hcmin & Hcmax & _) HD Hmin Hmax [Hlo Hhi].
  unfold is_within_bounds, is_within_cos_bounds.
  rewrite !double_ge_inclusive, !double_le_inclusive; try done.
  - rewrite Hcmax. apply cos_decr_1; try nra.
  - rewrite Hcmin. apply cos_decr_1; try nra.
Qed.

(** X10.  When the bounds span angles of [0 .. PI/2] radians, the squared
    sine of such an angle passes [is_within_sin2_bounds] as well. *)
Theorem sin2_bounds_keep_the_angles (b : angular_bin) (theta : R) :
  bounds_cached DEG_TO_RAD b ->
  (0 <= DEG_TO_RAD)%R ->
  (0 <= theta_min_ b)%R -> (theta_max_ b * DEG_TO_RAD <= PI / 2)%R ->
  (theta_min_ b <= theta <= theta_max_ b)%R ->
  is_within_sin2_bounds double_ge double_le
    (sin (theta * DEG_TO_RAD) * sin (theta * DEG_TO_RAD)) b = true.
Proof.
  intros (_ & _ & Hsmin & Hsmax) HD Hmin Hmax [Hlo Hhi].
  pose proof PI_RGT_0 as Hpi.
  assert (forall x y : R, (0 <= x)%R -> (x <= y)%R -> (y <= PI / 2)%R ->
            (sin x * sin x <= sin y * sin y)%R) as Hsin.
  { intros x y Hx Hxy Hy.
    assert (0 <= sin x)%R by (apply sin_ge_0; lra).
    assert (sin x <= sin y)%R by (apply sin_incr_1; lra).
    nra. }
  unfold is_within_sin2_bounds.
  rewrite double_ge_inclusive, double_le_inclusive; try done.
  - rewrite Hsmax. apply Hsin; nra.
  - rewrite Hsmin. apply Hsin; nra.
Qed.
End cached_bounds.

Lemma three_regions_cached : bounds_cached (PI / 180) three_regions.
Proof. by repeat split. Qed.

Lemma cos_bounds_keep_the_angles_witness :
  is_within_bounds sphere_index.double_ge sphere_index.double_le (3 / 2)
    three_regions = true /\
  is_within_cos_bounds sphere_index.double_ge sphere_index.double_le
    (cos (3 / 2 * (PI / 180))) three_regions = true.
Proof.
  pose proof PI_RGT_0 as Hpi.
  apply (cos_bounds_keep_the_angles sphere_index.double_ge
           sphere_index.double_le (PI / 180) sphere_index_double_ge
           sphere_index_double_le three_regions (3 / 2) three_regions_cached).
  - lra.
  - change (0 <= 1)%R. lra.
  - change (2 * (PI / 180) <= PI)%R. lra.
  - change (1 <= 3 / 2 <= 2)%R. lra.
Defined.

Lemma sin2_bounds_keep_the_angles_witness :
  is_within_sin2_bounds sphere_index.double_ge sphere_index.double_le
    (sin (3 / 2 * (PI / 180)) * sin (3 / 2 * (PI / 180))) three_regions = true.
Proof.
  pose proof PI_RGT_0 as Hpi.
  apply (sin2_bounds_keep_the_angles sphere_index.double_ge
           sphere_index.double_le (PI / 180) sphere_index_double_ge
           sphere_index_double_le three_regions (3 / 2) three_regions_cached).
  - lra.
  - change (0 <= 1)%R. lra.
  - change (2 * (PI / 180) <= PI / 2)%R. lra.
  - change (1 <= 3 / 2 <= 2)%R. lra.
Defined.

(** ** The means of the pair weights and counts over the regions *)

Lemma for_range_sum (g : Z -> outcome R) (w : Z -> R) (h : R -> R) (N : Z) :
  (forall j, 0 <= j < N -> g j = Ret (w j)) ->
  for_range 0 N (fun j acc => x ← g j; Ret (acc + h x)%R) 0%R
  = Ret (region_sum N (fun j => h (w j))).
Proof.
  intros Hg. unfold for_range, region_sum. rewrite Z.sub_0_r.
  rewrite (for_count_sum g w h) by (intros j Hj; apply Hg; lia).
  f_equal. ring.
Qed.

Lemma for_range_ext {St : Type} (f g : Z -> St -> outcome St) (N : Z) (s : St) :
  (forall j s, 0 <= j < N -> f j s = g j s) ->
  for_range 0 N f s = for_range 0 N g s.
Proof.
  intros H. unfold for_range. rewrite Z.sub_0_r.
  assert (forall count k s,
            (forall j s, k <= j < k + Z.of_nat count -> f j s = g j s) ->
            for_count count k f s = for_count count k g s) as Hloop.
  { induction count as [|m IH]; intros k s0 Hk; [reflexivity|].
    cbn [for_count]. rewrite Hk by lia. destruct (g k s0); try reflexivity.
    cbn. apply IH. intros j s1 Hj. apply Hk. lia. }
  apply Hloop. intros j s0 Hj. apply H. lia.
Qed.

Lemma region_sum_mean (N : Z) (f : Z -> R) :
  region_sum N (fun k => f k / (1 * IZR N))%R = (1 / IZR N * region_sum N f)%R.
Proof.
  unfold region_sum. rewrite <- sum_from_scale. apply sum_from_ext.
  intros j _. unfold Rdiv. rewrite !Rmult_1_l. ring.
Qed.

(** X11.  With [N > 0] regions whose pair weights and pair counts are
    [w k] and [c k], no count being zero: [mean_weight()] is (1/N) sum_k w(k), [mean_counter()]
    is (1/N) sum_k c(k), [mean_weighted_cross_correlation()] is
    (1/N) sum_k w(k)/c(k), the mean of what
    [weighted_cross_correlation(k)] returns, and
    [mean_weighted_cross_correlation_error()] is
    (N-1)/N * sqrt (sum_k (w(k)/c(k) - mean)^2), with the factor outside
    of the square root as in [mean_wtheta_error()]. *)
Theorem means_over_the_regions (b : angular_bin) (N : Z) (w : Z -> R)
    (c : Z -> Z) :
  n_region_ b = N -> 0 < N ->
  (forall k, 0 <= k < N ->
     pair_weight_at k b = Ret (w k) /\ pair_counts_at k b = Ret (c k)) ->
  (forall k, 0 <= k < N -> c k <> 0) ->
  let x k := (w k / IZR (c k))%R in
  let mean := (1 / IZR N * region_sum N x)%R in
  mean_weight b = Ret (1 / IZR N * region_sum N w)%R /\
  mean_counter b = Ret (1 / IZR N * region_sum N (fun k => IZR (c k)))%R /\
  (forall k, 0 <= k < N -> weighted_cross_correlation_region k b = Ret (x k)) /\
  mean_weighted_cross_correlation b = Ret mean /\
  mean_weighted_cross_correlation_error b
  = Ret ((IZR N - 1) / IZR N * sqrt (region_sum N (fun k => (x k - mean) ^ 2)))%R.
Proof.
  intros <- Hpos Hreg _ x mean.
  assert (forall k, 0 <= k < n_region_ b ->
            vec_at (pair_weight_region_ b) k = Ret (w k)) as Hw.
  { intros k Hk. destruct (Hreg k Hk) as [H _].
    unfold pair_weight_at in H. by rewrite region_getter_in_range in H. }
  assert (forall k, 0 <= k < n_region_ b ->
            vec_at (pair_counts_region_ b) k = Ret (c k)) as Hc.
  { intros k Hk. destruct (Hreg k Hk) as [_ H].
    unfold pair_counts_at in H. by rewrite region_getter_in_range in H. }
  assert (forall k, 0 <= k < n_region_ b ->
            weighted_cross_correlation_region k b = Ret (x k)) as Hx.
  { intros k Hk. unfold weighted_cross_correlation_region.
    assert ((k =? -1) = false) as -> by (apply Z.eqb_neq; lia).
    assert ((k <? n_region_ b) = true) as -> by (apply Z.ltb_lt; lia).
    by rewrite Hw, Hc. }
  assert (mean_weighted_cross_correlation b = Ret mean) as Hmean.
  { unfold mean_weighted_cross_correlation.
    rewrite (for_range_ext _
               (fun k acc => v ← Ret (x k);
                             Ret (acc + v / (1 * IZR (n_region_ b)))%R)).
    - rewrite (for_range_sum (fun k => Ret (x k)) x) by done.
      f_equal. apply region_sum_mean.
    - intros j acc Hj. rewrite Hw, Hc by done. cbn. f_equal.
      unfold x, Rdiv. ring. }
  split; [|split; [|split; [exact Hx|split; [exact Hmean|]]]].
  - unfold mean_weight.
    rewrite (for_range_sum (fun k => vec_at (pair_weight_region_ b) k) w
               (fun v => (v / (1 * IZR (n_region_ b)))%R)) by done.
    f_equal. apply region_sum_mean.
  - unfold mean_counter.
    rewrite (for_range_ext _
               (fun k acc => v ← Ret (IZR (c k));
                             Ret (acc + v / (1 * IZR (n_region_ b)))%R)).
    + rewrite (for_range_sum (fun k => Ret (IZR (c k)))
                 (fun k => IZR (c k))) by done.
      f_equal. apply (region_sum_mean _ (fun k => IZR (c k))).
    + intros j acc Hj. rewrite Hc by done. cbn. f_equal.
      unfold Rdiv. ring.
  - unfold mean_weighted_cross_correlation_error. rewrite Hmean, bind_Ret.
    rewrite (for_range_ext _
               (fun k acc => v ← Ret (x k);
                             Ret (acc + (mean - v) * (mean - v))%R)).
    + rewrite (for_range_sum (fun k => Ret (x k)) x
                 (fun v => ((mean - v) * (mean - v))%R)) by done.
      rewrite bind_Ret. destruct (Z.eqb_spec (n_region_ b) 0); [lia|]. f_equal.
      replace (region_sum (n_region_ b) (fun k => (x k - mean) ^ 2))%R
        with (region_sum (n_region_ b) (fun k => (mean - x k) * (mean - x k)))%R.
      * unfold Rdiv. ring.
      * apply sum_from_ext. intros j _. ring.
    + intros j acc Hj. by rewrite Hx.
Qed.

(** Three regions with the pair weights 2, 6, 12 over the pair counts
    1, 2, 3. *)
Definition weighted_bin : angular_bin :=
  set_pair_weight_region [2; 6; 12]%R
    (set_pair_counts_region [1; 2; 3] three_regions).

Definition weighted_bin_weight (k : Z) : R :=
  if k =? 0 then 2%R else if k =? 1 then 6%R else 12%R.

Definition weighted_bin_count (k : Z) : Z := k + 1.

Lemma means_over_the_regions_witness :
  let x k := (weighted_bin_weight k / IZR (weighted_bin_count k))%R in
  let mean := (1 / IZR 3 * region_sum 3 x)%R in
  mean_weight weighted_bin = Ret (1 / IZR 3 * region_sum 3 weighted_bin_weight)%R /\
  mean_counter weighted_bin
  = Ret (1 / IZR 3 * region_sum 3 (fun k => IZR (weighted_bin_count k)))%R /\
  (forall k, 0 <= k < 3 ->
     weighted_cross_correlation_region k weighted_bin = Ret (x k)) /\
  mean_weighted_cross_correlation weighted_bin = Ret mean /\
  mean_weighted_cross_correlation_error weighted_bin
  = Ret ((IZR 3 - 1) / IZR 3 * sqrt (region_sum 3 (fun k => (x k - mean) ^ 2)))%R.
Proof.
  apply (means_over_the_regions weighted_bin 3 weighted_bin_weight
           weighted_bin_count); [reflexivity | lia | |].
  - intros k Hk.
    assert (k = 0 \/ k = 1 \/ k = 2) as [-> | [-> | ->]] by lia;
      split; reflexivity.
  - intros k Hk. unfold weighted_bin_count. lia.
Defined.

(** ** The methods that reset one kind of sum *)

(** A loop that puts one vector to [z] at every region. *)
Lemma zero_loop {A : Type} (z : A) (get : angular_bin -> list A)
    (set : list A -> angular_bin -> angular_bin) (b0 : angular_bin) (n : Z) :
  (forall v b, get (set v b) = v) ->
  (forall v v' b, set v' (set v b) = set v' b) ->
  set (get b0) b0 = b0 ->
  vec_size (get b0) = n ->
  for_range 0 n (fun k b => v ← vec_update (fun _ => z) (get b) k; Ret (set v b)) b0
  = Ret (set (replicate (Z.to_nat n) z) b0).
Proof.
  intros Hget Hset Heta Hn.
  destruct (for_range_inv (fun k b =>
      exists v, b = set v b0 /\ updated (fun _ _ => z) k (get b0) v)
    (fun k b => v ← vec_update (fun _ => z) (get b) k; Ret (set v b))
    0 n b0) as (b' & E & v & -> & Hv).
  - unfold vec_size in Hn. lia.
  - exists (get b0). split; [by rewrite Heta|apply updated_start].
  - intros k s Hk (v & -> & Hv).
    destruct (lookup_lt_is_Some_2 (get b0) (Z.to_nat k)) as [x Hx].
    { unfold vec_size in Hn. lia. }
    destruct (updated_step (fun _ _ => z) (fun _ => z) k _ v x
                ltac:(lia) Hx eq_refl Hv) as (_ & v' & Hv' & Hv'').
    exists (set v' b0). split.
    + rewrite Hget, Hv'. cbn. by rewrite Hset.
    + by exists v'.
  - rewrite E. f_equal. f_equal. exact (updated_zero z n (get b0) v Hn Hv).
Qed.

Lemma zero_guard {A : Type} (z : A) (get : angular_bin -> list A)
    (set : list A -> angular_bin -> angular_bin) (b0 : angular_bin) (n : Z) :
  (forall v b, get (set v b) = v) ->
  (forall v v' b, set v' (set v b) = set v' b) ->
  set (get b0) b0 = b0 ->
  vec_size (get b0) = n ->
  (if 0 <? n
   then for_range 0 n
          (fun k b => v ← vec_update (fun _ => z) (get b) k; Ret (set v b)) b0
   else Ret b0)
  = Ret (set (replicate (Z.to_nat n) z) b0).
Proof.
  intros Hget Hset Heta Hn. destruct (Z.ltb_spec 0 n) as [Hpos|Hzero].
  - by apply zero_loop.
  - assert (n = 0) as -> by (unfold vec_size in Hn; lia).
    f_equal. rewrite <- Heta at 1. f_equal.
    destruct (get b0); [done|]. unfold vec_size in Hn. cbn in Hn. lia.
Qed.

(** X12.  On a bin whose per-region vectors have [n_region_] entries, each
    of the methods that reset one kind of sum returns, puts that sum to
    zero for the survey and for every region, and changes nothing else:
    [reset_weight()] the pair weights, [reset_counter()] the pair counts,
    [reset_pair_counts(c)] the sums of the counter [c], and
    [reset_pixel_wtheta()] the two pixel sums. *)
Theorem reset_one_kind_of_sum (b : angular_bin) (c : Counter) :
  regions_sized b ->
  let zeros := replicate (Z.to_nat (n_region_ b)) 0%R in
  reset_weight b = Ret (set_pair_weight_region zeros (set_pair_weight 0%R b)) /\
  reset_counter b
  = Ret (set_pair_counts_region (replicate (Z.to_nat (n_region_ b)) 0)
           (set_pair_count 0 b)) /\
  reset_pair_counts c b
  = Ret (set_counter_region c zeros (set_counter_sum c 0%R b)) /\
  reset_pixel_wtheta b
  = Ret (set_pixel_weight_region zeros
           (set_pixel_wtheta_region zeros
              (set_pixel_weight 0%R (set_pixel_wtheta 0%R b)))).
Proof.
  intros (Hpw & Hpc & Hgg & Hgr & Hrg & Hrr & Hpxt & Hpxw & _) zeros.
  split; [|split; [|split]].
  - unfold reset_weight.
    apply (zero_guard 0%R pair_weight_region_ set_pair_weight_region); done.
  - unfold reset_counter.
    apply (zero_guard 0 pair_counts_region_ set_pair_counts_region); done.
  - unfold reset_pair_counts.
    assert (n_region_ (set_counter_sum c 0%R b) = n_region_ b) as ->
      by (by destruct c).
    apply (zero_guard 0%R (counter_region c) (set_counter_region c)).
    + intros v b'. by destruct c.
    + intros v v' b'. by destruct c.
    + by destruct c.
    + by destruct c.
  - unfold reset_pixel_wtheta.
    set (b0 := set_pixel_weight 0%R _).
    change (n_region_ b0) with (n_region_ b).
    assert (0 <= n_region_ b) as Hn by (unfold vec_size in Hpw; lia).
    destruct (Z.ltb_spec 0 (n_region_ b)) as [Hpos|Hzero].
    + destruct (for_range_inv (fun k s => exists pxt pxw,
          s = set_pixel_weight_region pxw (set_pixel_wtheta_region pxt b0) /\
          updated (fun _ _ => 0%R) k (pixel_wtheta_region_ b) pxt /\
          updated (fun _ _ => 0%R) k (pixel_weight_region_ b) pxw)
        (fun k b =>
           v ← vec_update (fun _ => 0%R) (pixel_wtheta_region_ b) k;
           let b := set_pixel_wtheta_region v b in
           v ← vec_update (fun _ => 0%R) (pixel_weight_region_ b) k;
           Ret (set_pixel_weight_region v b))
        0 (n_region_ b) b0) as (b' & E & pxt & pxw & -> & U1 & U2).
      * done.
      * exists (pixel_wtheta_region_ b), (pixel_weight_region_ b).
        split; [reflexivity|]. split; apply updated_start.
      * intros k s Hk (pxt & pxw & -> & U1 & U2).
        cbn [pixel_wtheta_region_ set_pixel_weight_region
             set_pixel_wtheta_region].
        zero_region (pixel_wtheta_region_ b) U1.
        zero_region (pixel_weight_region_ b) U2.
        eexists. split; [reflexivity|]. exists v, v0. by repeat split.
      * etrans; [exact E|]. f_equal.
        by rewrite (updated_zero _ _ _ _ Hpxt U1), (updated_zero _ _ _ _ Hpxw U2).
    + assert (n_region_ b = 0) as Hz by lia.
      f_equal. subst zeros b0. unfold vec_size in *. rewrite Hz in *.
      cbn [Z.to_nat replicate]. destruct b. cbn in *.
      repeat match goal with
             | H : Z.of_nat (length ?l) = 0 |- _ =>
                 destruct l; [clear H | cbn in H; lia]
             end.
      reflexivity.
Qed.

Lemma reset_one_kind_of_sum_witness :
  let zeros := replicate (Z.to_nat (n_region_ weighted_bin)) 0%R in
  reset_weight weighted_bin
  = Ret (set_pair_weight_region zeros (set_pair_weight 0%R weighted_bin)) /\
  reset_counter weighted_bin
  = Ret (set_pair_counts_region
           (replicate (Z.to_nat (n_region_ weighted_bin)) 0)
           (set_pair_count 0 weighted_bin)) /\
  reset_pair_counts GAL_GAL weighted_bin
  = Ret (set_counter_region GAL_GAL zeros
           (set_counter_sum GAL_GAL 0%R weighted_bin)) /\
  reset_pixel_wtheta weighted_bin
  = Ret (set_pixel_weight_region zeros
           (set_pixel_wtheta_region zeros
              (set_pixel_weight 0%R (set_pixel_wtheta 0%R weighted_bin)))).
Proof.
  apply (reset_one_kind_of_sum weighted_bin GAL_GAL). by repeat split.
Defined.

(** ** The area of a bin *)

Section bin_area.
Variable DEG_TO_RAD : R.
Variable STRAD_TO_DEG2 : R.

(** X13.  For bins that hold the cosines of their bounds, with bounds
    between 0 and [PI] radians and [STRAD_TO_DEG2 >= 0]: [area()] is not
    negative when [theta_min_ <= theta_max_], and the areas of two bins
    that share a bound add up to the area of the bin that spans both (in
    real arithmetic). *)
Theorem area_of_adjacent_bins (inner outer both : angular_bin) :
  bounds_cached DEG_TO_RAD inner -> bounds_cached DEG_TO_RAD outer ->
  bounds_cached DEG_TO_RAD both ->
  (0 <= DEG_TO_RAD)%R -> (0 <= STRAD_TO_DEG2)%R ->
  (0 <= theta_min_ inner <= theta_max_ inner)%R ->
  (theta_max_ inner * DEG_TO_RAD <= PI)%R ->
  theta_min_ outer = theta_max_ inner ->
  theta_min_ both = theta_min_ inner -> theta_max_ both = theta_max_ outer ->
  (0 <= area STRAD_TO_DEG2 inner)%R /\
  area STRAD_TO_DEG2 both
  = (area STRAD_TO_DEG2 inner + area STRAD_TO_DEG2 outer)%R.
Proof.
  intros (Hi1 & Hi2 & _) (Ho1 & Ho2 & _) (Hb1 & Hb2 & _) HD HS Hin Hpi
    Hshare Hmin Hmax.
  pose proof PI_RGT_0 as Hpos. unfold area. split.
  - rewrite Hi1, Hi2.
    assert (cos (theta_max_ inner * DEG_TO_RAD)
            <= cos (theta_min_ inner * DEG_TO_RAD))%R
      by (apply cos_decr_1; nra).
    apply Rmult_le_pos; [|done]. apply Rmult_le_pos; [|lra].
    apply Rmult_le_pos; lra.
  - rewrite Hi1, Hi2, Ho1, Ho2, Hb1, Hb2, Hshare, Hmin, Hmax. ring.
Qed.
End bin_area.

Definition inner_bin : angular_bin := new_angular_bin (PI / 180) 1 2 0.
Definition outer_bin : angular_bin := new_angular_bin (PI / 180) 2 3 0.
Definition both_bin : angular_bin := new_angular_bin (PI / 180) 1 3 0.

Lemma area_of_adjacent_bins_witness :
  (0 <= area 3283 inner_bin)%R /\
  area 3283 both_bin = (area 3283 inner_bin + area 3283 outer_bin)%R.
Proof.
  pose proof PI_RGT_0 as Hpi.
  apply (area_of_adjacent_bins (PI / 180) 3283 inner_bin outer_bin both_bin);
    try (by repeat split); try reflexivity.
  - lra.
  - lra.
  - change (0 <= 1 <= 2)%R. lra.
  - change (2 * (PI / 180) <= PI)%R. lra.
Defined.

(** * Further properties of the region maps *)

Import RegionMap.

(** ** The resolution of the regions *)

Section region_resolution.
Variable PixelArea : Z -> R.
Variable HPixResolution : Z.

(** The resolutions that the [while] loop of [_FindRegionResolution] goes
    through: [HPixResolution] doubled [k] times. *)
Definition doubled (k : Z) : Z := HPixResolution * 2 ^ k.

Lemma resolution_loop_doubles (target_area : R) :
  forall (fuel : nat) (k : Z),
    0 < HPixResolution -> 0 <= k ->
    1024 <= doubled (k + Z.of_nat fuel - 1) ->
    (forall j, 0 <= j < k ->
       double_gt (PixelArea (doubled j)) target_area = true /\ doubled j < 1024) ->
    exists k',
      k <= k' /\
      resolution_loop PixelArea fuel target_area (doubled k) = Some (doubled k') /\
      (double_gt (PixelArea (doubled k')) target_area = false \/
       1024 <= doubled k') /\
      (forall j, 0 <= j < k' ->
         double_gt (PixelArea (doubled j)) target_area = true /\
         doubled j < 1024).
Proof.
  induction fuel as [|f IH]; intros k Hpos Hk Hfuel Hbelow.
  - exfalso. unfold doubled in Hfuel.
    destruct (decide (k = 0)) as [->|].
    + change (0 + Z.of_nat 0 - 1) with (-1) in Hfuel.
      rewrite Z.pow_neg_r in Hfuel by lia. lia.
    + replace (k + Z.of_nat 0 - 1) with (k - 1) in Hfuel by lia.
      destruct (Hbelow (k - 1)) as [_ Hlt]; [lia|]. unfold doubled in Hlt. lia.
  - cbn [resolution_loop].
    destruct (double_gt (PixelArea (doubled k)) target_area) eqn:Harea;
      cbn [andb].
    + destruct (Z.ltb_spec (doubled k) 1024) as [Hlt|Hge].
      * assert (wrap_unsigned 32 (Z.shiftl (doubled k) 1) = doubled (k + 1)) as ->.
        { unfold wrap_unsigned. rewrite Z.shiftl_mul_pow2 by lia.
          unfold doubled in *. rewrite Z.pow_add_r by lia.
          assert (0 < 2 ^ k) by (apply Z.pow_pos_nonneg; lia).
          rewrite Z.mod_small by nia. ring. }
        destruct (IH (k + 1)) as (k' & Hk' & E & Hstop & Hall); try lia.
        { replace (k + 1 + Z.of_nat f - 1) with (k + Z.of_nat (S f) - 1) by lia.
          done. }
        { intros j Hj. destruct (decide (j = k)) as [->|]; [done|].
          apply Hbelow. lia. }
        exists k'. split; [lia|]. done.
      * exists k. split; [lia|]. split; [done|]. split; [by right|done].
    + exists k. split; [lia|]. split; [done|]. split; [by left|done].
Qed.

(** X14.  [_FindRegionResolution(base_map, n_region, 0)], with
    [0 < HPixResolution <= 2048] and [n_region > 0]: the call returns.  The resolution is
    looked for among [HPixResolution] doubled 0, 1, 2, ... times: the
    first one whose pixel area is not above [Area() / (50 n_region)], or
    that has reached 1024.  It is then cut down to
    [base_map->MaxResolution()].  Nothing else of the map changes. *)
Theorem FindRegionResolution_by_area (base_map : BaseMap) (n_region : Z)
    (rm : RegionMap) :
  0 < HPixResolution <= 2048 ->
  0 < n_region ->
  let target_area := (Area base_map / IZR (50 * n_region))%R in
  exists k,
    0 <= k /\
    (double_gt (PixelArea (doubled k)) target_area = false \/
     1024 <= doubled k) /\
    (forall j, 0 <= j < k ->
       double_gt (PixelArea (doubled j)) target_area = true /\
       doubled j < 1024) /\
    doubled k <= 2048 /\
    _FindRegionResolution PixelArea HPixResolution base_map n_region 0 rm
    = Ret (set_region_resolution
             (Z.min (doubled k) (MaxResolution base_map)) rm).
Proof.
  intros Hres _ target_area.
  destruct (resolution_loop_doubles target_area 12 0) as (k & Hk & E & Hstop & Hall);
    try lia.
  { unfold doubled. change (0 + Z.of_nat 12 - 1) with 11.
    change (2 ^ 11) with 2048. lia. }
  assert (doubled 0 = HPixResolution) as H0 by (unfold doubled; lia).
  rewrite H0 in E.
  assert (doubled k <= 2048) as Hmax.
  { destruct (decide (k = 0)) as [->|]; [lia|].
    destruct (Hall (k - 1)) as [_ Hlt]; [lia|].
    unfold doubled in *. replace k with (k - 1 + 1) by lia.
    rewrite Z.pow_add_r by lia. lia. }
  exists k. split; [done|]. split; [done|]. split; [done|]. split; [done|].
  unfold _FindRegionResolution. cbn [Z.eqb]. fold target_area. rewrite E. cbn.
  assert ((2048 <? doubled k) = false) as -> by (apply Z.ltb_ge; lia).
  rewrite andb_false_r. cbn. f_equal. f_equal.
  destruct (Z.ltb_spec (MaxResolution base_map) (doubled k)); lia.
Qed.

(** [_FindRegionResolution] with a resolution given: above 2048 the call
    ends in [exit(1)], and otherwise it returns with the smaller of that
    resolution and [base_map->MaxResolution()]. *)
Lemma FindRegionResolution_given (base_map : BaseMap) (n_region : Z)
    (region_resolution : Z) (rm : RegionMap) :
  0 < region_resolution ->
  _FindRegionResolution PixelArea HPixResolution base_map n_region
    region_resolution rm
  = if 2048 <? region_resolution then Exit 1
    else Ret (set_region_resolution
                (Z.min region_resolution (MaxResolution base_map)) rm).
Proof.
  intros Hpos. unfold _FindRegionResolution.
  assert ((region_resolution =? 0) = false) as -> by (apply Z.eqb_neq; lia).
  cbn. destruct (Z.ltb_spec 2048 region_resolution) as [Hhi|Hlo].
  - assert ((256 <? region_resolution) = true) as -> by (apply Z.ltb_lt; lia).
    reflexivity.
  - rewrite andb_false_r. cbn. f_equal. f_equal.
    destruct (Z.ltb_spec (MaxResolution base_map) region_resolution); lia.
Qed.
End region_resolution.

Lemma FindRegionResolution_by_area_witness :
  let target_area := (Area example_map / IZR (50 * 2))%R in
  exists k,
    0 <= k /\
    (double_gt (IZR (doubled 4 k)) target_area = false \/ 1024 <= doubled 4 k) /\
    (forall j, 0 <= j < k ->
       double_gt (IZR (doubled 4 j)) target_area = true /\ doubled 4 j < 1024) /\
    doubled 4 k <= 2048 /\
    _FindRegionResolution (fun r => IZR r) 4 example_map 2 0 new_RegionMap
    = Ret (set_region_resolution
             (Z.min (doubled 4 k) (MaxResolution example_map)) new_RegionMap).
Proof.
  apply (FindRegionResolution_by_area (fun r => IZR r) 4 example_map 2
           new_RegionMap); lia.
Defined.

(** ** [InitializeRegions] *)

Section initialize_regions_more.
Variable PixelArea : Z -> R.
Variable HPixResolution : Z.
Variable Nx0 : Z.

(** X15.  [InitializeRegions] with a resolution above 2048 ends in
    [exit(1)], whatever the map and the number of regions. *)
Theorem InitializeRegions_resolution_above_2048 (stomp_map : BaseMap)
    (n_region region_resolution : Z) (rm : RegionMap) :
  2048 < region_resolution ->
  InitializeRegions PixelArea HPixResolution Nx0 stomp_map n_region
    region_resolution rm = Exit 1.
Proof.
  intros Hr. unfold InitializeRegions, assign_regions.
  rewrite FindRegionResolution_given by lia.
  by assert ((2048 <? region_resolution) = true) as -> by (apply Z.ltb_lt; lia).
Qed.

(** The loop that counts the pixels of each region returns when every
    stored index is a region. *)
Lemma check_entries_total (n_region : Z) (entries : list (Z * Z)) :
  Forall (fun iter => 0 <= iter.2 < n_region) entries ->
  forall counts,
    length counts = Z.to_nat n_region ->
    exists counts',
      for_each entries (fun iter region_count_check =>
        if iter.2 <? n_region
        then vec_update (fun c => wrap_unsigned 32 (c + 1)) region_count_check iter.2
        else Exit 2) counts = Ret counts'.
Proof.
  induction 1 as [|iter entries Hiter _ IH]; intros counts Hlen; cbn [for_each].
  - by exists counts.
  - assert ((iter.2 <? n_region) = true) as -> by (apply Z.ltb_lt; lia).
    destruct (vec_at_in_range counts iter.2) as [c Hc].
    { unfold vec_size. lia. }
    unfold vec_update. rewrite Hc. cbn. apply IH. by rewrite length_insert.
Qed.

Lemma check_regions_total (n_region : Z) (rm : RegionMap) :
  (forall key v, region_map_ rm !! key = Some v -> 0 <= v < n_region) ->
  exists counts, check_regions n_region rm = Ret counts.
Proof.
  intros H. apply check_entries_total.
  - apply Forall_forall. intros [key v] Hin.
    apply elem_of_map_entries in Hin. cbn. by eapply H.
  - by rewrite length_replicate.
Qed.

(** The loop that gives every pixel a region of its own, from [i] on. *)
Definition numbered (coverage_pix : list Pixel) (st : RegionMap * Z)
  : RegionMap * Z :=
  fold_left (fun '(rm, i) iter =>
    (set_region_map (<[Pixnum iter := i]> (region_map_ rm)) rm,
     wrap_signed 16 (i + 1))) coverage_pix st.

Lemma numbered_spec (coverage_pix : list Pixel) :
  forall (rm : RegionMap) (i : Z),
    0 <= i -> i + Z.of_nat (length coverage_pix) <= 32767 ->
    let rm' := (numbered coverage_pix (rm, i)).1 in
    region_area_ rm' = region_area_ rm /\
    n_region_ rm' = n_region_ rm /\
    region_resolution_ rm' = region_resolution_ rm /\
    (forall key v, region_map_ rm' !! key = Some v ->
       region_map_ rm !! key = Some v \/
       i <= v < i + Z.of_nat (length coverage_pix)) /\
    (forall key, key ∉ Pixnum <$> coverage_pix ->
       region_map_ rm' !! key = region_map_ rm !! key) /\
    (NoDup (Pixnum <$> coverage_pix) ->
     forall (j : nat) p, coverage_pix !! j = Some p ->
       region_map_ rm' !! Pixnum p = Some (i + Z.of_nat j)).
Proof.
  induction coverage_pix as [|p ps IH]; intros rm i Hi Hlen rm'.
  - subst rm'. cbn. repeat split; try done. by left.
  - subst rm'. cbn [numbered fold_left]. cbn [length] in Hlen.
    assert (wrap_signed 16 (i + 1) = i + 1) as ->.
    { unfold wrap_signed. change (2 ^ (16 - 1)) with 32768.
      change (2 ^ 16) with 65536. rewrite Z.mod_small by lia. lia. }
    destruct (IH (set_region_map (<[Pixnum p := i]> (region_map_ rm)) rm) (i + 1))
      as (Ha & Hn & Hr & Hv & Hk & Hd); [lia|lia|].
    fold (numbered ps
            (set_region_map (<[Pixnum p := i]> (region_map_ rm)) rm, i + 1)).
    split; [by rewrite Ha|]. split; [by rewrite Hn|]. split; [by rewrite Hr|].
    split; [|split].
    + intros key v Hkv. destruct (Hv key v Hkv) as [Hold|Hnew]; [|right; cbn [length]; lia].
      cbn in Hold. destruct (decide (key = Pixnum p)) as [->|Hne].
      * rewrite lookup_insert_eq in Hold. inversion Hold. right.
        cbn [length]. lia.
      * rewrite lookup_insert_ne in Hold by done. by left.
    + intros key Hkey. rewrite fmap_cons, not_elem_of_cons in Hkey.
      destruct Hkey as [Hne Hps]. rewrite Hk by done. cbn.
      by rewrite lookup_insert_ne.
    + intros Hnd j q Hq. rewrite fmap_cons, NoDup_cons in Hnd.
      destruct Hnd as [Hnotin Hnd]. destruct j as [|j]; cbn in Hq.
      * inversion Hq; subst q. rewrite Hk by done. cbn.
        rewrite lookup_insert_eq. f_equal. lia.
      * rewrite (Hd Hnd j q Hq). f_equal. lia.
Qed.

(** X16.  [InitializeRegions] for [n_region > 0] regions, at least as many
    as the map has pixels at the resolution of the regions (at most 32767
    pixels, each
    with a pixel number of its own): the call returns, and the pixel at
    position [j] of the coverage is the only one of region [j].  No area
    is stored for these regions: the stored areas are those that the map
    held before the call, and it is their number that the call returns
    and keeps as [n_region_].  On a map just constructed that number is 0,
    and [Initialized()] is false after the call. *)
Theorem InitializeRegions_one_region_per_pixel (stomp_map : BaseMap)
    (n_region region_resolution : Z) (rm rm0 : RegionMap) :
  _FindRegionResolution PixelArea HPixResolution stomp_map n_region
    region_resolution (ClearRegions rm) = Ret rm0 ->
  let coverage_pix := Coverage stomp_map (region_resolution_ rm0) in
  0 < n_region ->
  vec_size coverage_pix <= n_region ->
  vec_size coverage_pix <= 32767 ->
  NoDup (Pixnum <$> coverage_pix) ->
  Z.of_nat (size (region_area_ rm)) < 65536 ->
  exists rm',
    InitializeRegions PixelArea HPixResolution Nx0 stomp_map n_region
      region_resolution rm
    = Ret (Z.of_nat (size (region_area_ rm)), rm') /\
    (forall (j : nat) p, coverage_pix !! j = Some p ->
       (Region (Pixnum p) rm').1 = Z.of_nat j) /\
    (forall key, key ∉ Pixnum <$> coverage_pix -> (Region key rm').1 = -1) /\
    region_area_ rm' = region_area_ rm /\
    NRegion rm' = Z.of_nat (size (region_area_ rm)) /\
    (region_area_ rm = ∅ -> Initialized rm' = false).
Proof.
  intros Hres coverage_pix _ Hn Hmax Hnd Hareas.
  assert (region_map_ rm0 = ∅ /\ region_area_ rm0 = region_area_ rm) as [Hm0 Ha0].
  { unfold _FindRegionResolution in Hres.
    destruct (if region_resolution =? 0 then _ else _) as [r| | |];
      try discriminate Hres.
    cbn in Hres. destruct (_ && _); try discriminate Hres.
    cbn in Hres. by injection Hres as <-. }
  unfold vec_size in Hn, Hmax.
  destruct (numbered_spec coverage_pix rm0 0) as (Ha & Hnr & Hr & Hv & Hk & Hd);
    [lia|lia|].
  specialize (Hd Hnd).
  remember (numbered coverage_pix (rm0, 0)).1 as rm1 eqn:Erm1.
  assert (assign_regions PixelArea HPixResolution Nx0 stomp_map n_region
            region_resolution rm
          = Ret (vec_size coverage_pix, rm1)) as Hassign.
  { unfold assign_regions. rewrite Hres. cbn. fold coverage_pix.
    unfold one_region_per_pixel. fold (numbered coverage_pix (rm0, 0)).
    rewrite <- Erm1.
    unfold vec_size.
    destruct (Z.ltb_spec (Z.of_nat (length coverage_pix)) n_region) as [Hlt|Hge].
    - unfold wrap_unsigned.
      rewrite (Z.mod_small _ (2 ^ 32)) by lia.
      rewrite (Z.mod_small _ (2 ^ 16)) by lia.
      by rewrite Z.eqb_refl.
    - assert (n_region = Z.of_nat (length coverage_pix)) as -> by lia.
      by rewrite Z.eqb_refl. }
  destruct (check_regions_total (vec_size coverage_pix) rm1) as [counts Hcheck].
  { intros key v Hkv. destruct (Hv key v Hkv) as [Hold|Hnew].
    - by rewrite Hm0 in Hold.
    - unfold vec_size. lia. }
  eexists. split.
  - unfold InitializeRegions. rewrite Hassign. cbn. rewrite Hcheck. cbn.
    rewrite Ha, Ha0. unfold wrap_unsigned. rewrite Z.mod_small by lia.
    reflexivity.
  - cbn. split; [|split; [|split; [|split]]].
    + intros j p Hp. rewrite Region_lookup. cbn. rewrite (Hd j p Hp). cbn. lia.
    + intros key Hkey. rewrite Region_lookup. cbn.
      by rewrite (Hk key Hkey), Hm0.
    + by rewrite Ha, Ha0.
    + reflexivity.
    + intros Hempty. unfold Initialized. cbn. by rewrite Hempty.
Qed.
End initialize_regions_more.

Lemma InitializeRegions_resolution_above_2048_witness :
  InitializeRegions (fun _ => 1%R) 4 36 example_map 2 4096 new_RegionMap
  = Exit 1.
Proof.
  apply (InitializeRegions_resolution_above_2048 (fun _ => 1%R) 4 36
           example_map 2 4096 new_RegionMap). lia.
Defined.

Lemma example_resolution :
  _FindRegionResolution (fun _ => 1%R) 4 example_map 7 4
    (ClearRegions new_RegionMap)
  = Ret example_rm.
Proof. reflexivity. Qed.

Lemma example_coverage_distinct : NoDup (Pixnum <$> example_coverage).
Proof.
  change (NoDup [10; 11; 20; 21]).
  repeat (apply NoDup_cons; split;
          [rewrite ?elem_of_cons, elem_of_nil; lia|]).
  apply NoDup_nil_2.
Qed.

Lemma InitializeRegions_one_region_per_pixel_witness :
  exists rm',
    InitializeRegions (fun _ => 1%R) 4 36 example_map 7 4 new_RegionMap
    = Ret (Z.of_nat (size (region_area_ new_RegionMap)), rm') /\
    (forall (j : nat) p, example_coverage !! j = Some p ->
       (Region (Pixnum p) rm').1 = Z.of_nat j) /\
    (forall key, key ∉ Pixnum <$> example_coverage -> (Region key rm').1 = -1) /\
    region_area_ rm' = region_area_ new_RegionMap /\
    NRegion rm' = Z.of_nat (size (region_area_ new_RegionMap)) /\
    (region_area_ new_RegionMap = ∅ -> Initialized rm' = false).
Proof.
  apply (InitializeRegions_one_region_per_pixel (fun _ => 1%R) 4 36 example_map
           7 4 new_RegionMap example_rm example_resolution).
  - lia.
  - change (4 <= 7). lia.
  - change (4 <= 32767). lia.
  - exact example_coverage_distinct.
  - change (Z.of_nat (size (∅ : gmap Z R)) < 65536). rewrite map_size_empty. lia.
Defined.

(** *** The areas of an earlier call *)





Section initialize_regions_again.
Variable PixelArea : Z -> R.
Variable HPixResolution : Z.
Variable Nx0 : Z.

End initialize_regions_again.


(** ** The regions of another map *)

Section regions_of_another_map.
Variable SuperPix : Pixel -> Z -> Z.
Variable Coverage_fraction : BaseMap -> Z -> bool -> list Pixel.
Variable stomp_map : BaseMap.
Variable stomp_regions : RegionMap.

(** The region that [stomp_map.Region] returns for a pixel. *)
Definition region_of (p : Pixel) : Z :=
  (Region (SuperPix p (Resolution stomp_regions)) stomp_regions).1.

(** The loop of [InitializeRegions(base_map, stomp_map)] when it meets no
    pixel without a region. *)
Definition copied (pixels : list Pixel) (rm : RegionMap) : RegionMap :=
  fold_left (fun rm p =>
    set_region_map
      (<[SuperPix p (Resolution stomp_regions) := region_of p]> (region_map_ rm))
      rm) pixels rm.

Lemma copied_spec (pixels : list Pixel) :
  forall rm,
    region_area_ (copied pixels rm) = region_area_ rm /\
    n_region_ (copied pixels rm) = n_region_ rm /\
    region_resolution_ (copied pixels rm) = region_resolution_ rm /\
    (forall p, p ∈ pixels ->
       region_map_ (copied pixels rm) !! SuperPix p (Resolution stomp_regions)
       = Some (region_of p)) /\
    (forall key,
       key ∉ (fun p => SuperPix p (Resolution stomp_regions)) <$> pixels ->
       region_map_ (copied pixels rm) !! key = region_map_ rm !! key).
Proof.
  induction pixels as [|q qs IH] using rev_ind; intros rm.
  - cbn. repeat split; try done. intros p Hp. by apply elem_of_nil in Hp.
  - unfold copied. rewrite fold_left_app. cbn [fold_left]. fold (copied qs rm).
    destruct (IH rm) as (Ha & Hn & Hr & Hin & Hout).
    split; [done|]. split; [done|]. split; [done|]. split.
    + intros p Hp. cbn.
      destruct (decide (SuperPix p (Resolution stomp_regions)
                        = SuperPix q (Resolution stomp_regions))) as [E|Hne].
      * rewrite <- E, lookup_insert_eq. unfold region_of. by rewrite E.
      * rewrite lookup_insert_ne by done. apply Hin.
        apply elem_of_app in Hp as [Hp|Hp]; [done|].
        apply list_elem_of_singleton in Hp. by subst.
    + intros key Hkey. cbn. rewrite fmap_app, not_elem_of_app in Hkey.
      destruct Hkey as [Hqs Hq]. cbn in Hq.
      rewrite list_elem_of_singleton in Hq.
      rewrite lookup_insert_ne by done. by apply Hout.
Qed.

Definition from_body (iter : Pixel) (st : bool * RegionMap * RegionMap)
  : outcome (bool * RegionMap * RegionMap) :=
  let '(initialized_region_map, rm, stomp_regions) := st in
  let '(region, stomp_regions) :=
    Region (SuperPix iter (region_resolution_ rm)) stomp_regions in
  if negb (region =? -1) then
    Ret (initialized_region_map,
         set_region_map
           (<[SuperPix iter (region_resolution_ rm) := region]> (region_map_ rm))
           rm,
         stomp_regions)
  else Undefined.

Lemma from_body_lookup (p : Pixel) (i : bool) (rm sr : RegionMap) :
  from_body p (i, rm, sr)
  = let key := SuperPix p (region_resolution_ rm) in
    let region := default (-1) (region_map_ sr !! key) in
    if negb (region =? -1)
    then Ret (i, set_region_map (<[key := region]> (region_map_ rm)) rm, sr)
    else Undefined.
Proof. unfold from_body. by rewrite Region_lookup. Qed.

Lemma from_loop_copies (pixels : list Pixel) :
  forall rm,
    region_resolution_ rm = Resolution stomp_regions ->
    Forall (fun p => region_of p <> -1) pixels ->
    for_each pixels from_body (true, rm, stomp_regions)
    = Ret (true, copied pixels rm, stomp_regions).
Proof.
  induction pixels as [|p ps IH]; intros rm Hres Hall; [done|].
  apply Forall_cons in Hall as [Hp Hps].
  cbn [for_each]. rewrite from_body_lookup, Hres. cbn zeta.
  unfold region_of in Hp. rewrite Region_lookup in Hp. cbn [fst] in Hp.
  assert ((default (-1) (region_map_ stomp_regions
                         !! SuperPix p (Resolution stomp_regions)) =? -1) = false)
    as -> by (by apply Z.eqb_neq).
  cbn [negb]. rewrite bind_Ret. rewrite IH by done.
  unfold copied at 2. cbn [fold_left]. unfold region_of at 2.
  by rewrite Region_lookup.
Qed.

Lemma from_loop_undefined (pixels : list Pixel) :
  forall rm,
    region_resolution_ rm = Resolution stomp_regions ->
    Exists (fun p => region_of p = -1) pixels ->
    for_each pixels from_body (true, rm, stomp_regions) = Undefined.
Proof.
  induction pixels as [|p ps IH]; intros rm Hres Hex.
  - by apply Exists_nil in Hex.
  - cbn [for_each]. rewrite from_body_lookup, Hres. cbn zeta.
    destruct (Z.eqb_spec (default (-1) (region_map_ stomp_regions
                            !! SuperPix p (Resolution stomp_regions))) (-1))
      as [Hbad|Hgood]; [done|].
    cbn [negb]. rewrite bind_Ret. apply IH; [done|].
    apply Exists_cons in Hex as [Hp|Hps]; [|done].
    unfold region_of in Hp. rewrite Region_lookup in Hp. done.
Qed.

Lemma InitializeRegions_from_loop (rm : RegionMap) :
  InitializeRegions_from SuperPix Coverage_fraction stomp_map stomp_regions rm
  = st ← for_each
           (Coverage_fraction stomp_map (Resolution stomp_regions) false)
           from_body
           (true,
            set_n_region (NRegion stomp_regions)
              (set_region_resolution (Resolution stomp_regions)
                 (if negb (bool_decide (region_map_ rm = ∅))
                  then set_region_map ∅ rm else rm)),
            stomp_regions);
    Ret (st.1.1,
         if negb st.1.1
         then set_n_region (wrap_unsigned 16 (-1))
                (set_region_resolution 0 st.1.2)
         else st.1.2,
         st.2).
Proof.
  unfold InitializeRegions_from. cbn zeta.
  match goal with
  | |- mbind _ ?loop = mbind _ ?loop' => change loop with loop'
  end.
  destruct (for_each _ from_body _) as [[[i r] sr]| | |]; done.
Qed.

(** X18.  [InitializeRegions(base_map, stomp_map)] when [stomp_map] has a
    region for every pixel of its coverage at its region resolution: the
    call returns true; each of those pixels has in the map at hand the
    region it has in [stomp_map], and no other key has a region; the
    resolution and the number of regions are those of [stomp_map].  The
    areas of the regions are not taken over: [region_area_] stays as it
    was before the call. *)
Theorem InitializeRegions_from_copies (rm : RegionMap) :
  let resolution := Resolution stomp_regions in
  let coverage_pix := Coverage_fraction stomp_map resolution false in
  Forall (fun p => region_of p <> -1) coverage_pix ->
  exists rm',
    InitializeRegions_from SuperPix Coverage_fraction stomp_map stomp_regions rm
    = Ret (true, rm', stomp_regions) /\
    (forall p, p ∈ coverage_pix ->
       (Region (SuperPix p resolution) rm').1 = region_of p) /\
    (forall key, key ∉ (fun p => SuperPix p resolution) <$> coverage_pix ->
       (Region key rm').1 = -1) /\
    Resolution rm' = resolution /\
    NRegion rm' = NRegion stomp_regions /\
    region_area_ rm' = region_area_ rm.
Proof.
  intros resolution coverage_pix Hall. subst resolution.
  set (rm0 := set_n_region (NRegion stomp_regions)
                (set_region_resolution (Resolution stomp_regions)
                   (if negb (bool_decide (region_map_ rm = ∅))
                    then set_region_map ∅ rm else rm))).
  assert (region_map_ rm0 = ∅ /\ region_area_ rm0 = region_area_ rm) as [Hm0 Ha0].
  { subst rm0. cbn. case_bool_decide as He; cbn; [by rewrite He|done]. }
  destruct (copied_spec coverage_pix rm0) as (Ha & Hn & Hr & Hin & Hout).
  exists (copied coverage_pix rm0). split.
  - rewrite InitializeRegions_from_loop. fold rm0. fold coverage_pix.
    by rewrite from_loop_copies.
  - split; [|split; [|split; [|split]]].
    + intros p Hp. rewrite Region_lookup. cbn [fst]. by rewrite (Hin p Hp).
    + intros key Hkey. rewrite Region_lookup. cbn [fst].
      by rewrite (Hout key Hkey), Hm0.
    + exact Hr.
    + exact Hn.
    + by rewrite Ha.
Qed.

(** X19.  [InitializeRegions(base_map, stomp_map)] when some pixel of the
    coverage of [stomp_map] has no region in it: the body of the loop
    puts the iterator to [coverage_pix.end()] and the loop then
    increments it, which is undefined; the call does not get to return
    false. *)
Theorem InitializeRegions_from_missing_region (rm : RegionMap) :
  let resolution := Resolution stomp_regions in
  let coverage_pix := Coverage_fraction stomp_map resolution false in
  Exists (fun p => region_of p = -1) coverage_pix ->
  InitializeRegions_from SuperPix Coverage_fraction stomp_map stomp_regions rm
  = Undefined.
Proof.
  intros resolution coverage_pix Hex. subst resolution.
  rewrite InitializeRegions_from_loop. fold coverage_pix.
  by rewrite from_loop_undefined.
Qed.
End regions_of_another_map.

(** The example map with its two regions, and the same without regions. *)
Definition example_regions : RegionMap :=
  {| region_map_ := {[10 := 0; 11 := 0; 20 := 1; 21 := 1]};
     region_area_ := {[0 := 4%R; 1 := 4%R]};
     n_region_ := 2; region_resolution_ := 4 |}.

Definition example_SuperPix (p : Pixel) (resolution : Z) : Z := Pixnum p.

Definition example_Coverage_fraction (m : BaseMap) (resolution : Z)
    (calculate_fraction : bool) : list Pixel :=
  Coverage m resolution.

Lemma InitializeRegions_from_copies_witness :
  exists rm',
    InitializeRegions_from example_SuperPix example_Coverage_fraction
      example_map example_regions new_RegionMap
    = Ret (true, rm', example_regions) /\
    (forall p, p ∈ example_coverage ->
       (Region (example_SuperPix p 4) rm').1
       = region_of example_SuperPix example_regions p) /\
    (forall key, key ∉ (fun p => example_SuperPix p 4) <$> example_coverage ->
       (Region key rm').1 = -1) /\
    Resolution rm' = 4 /\
    NRegion rm' = NRegion example_regions /\
    region_area_ rm' = region_area_ new_RegionMap.
Proof.
  apply (InitializeRegions_from_copies example_SuperPix
           example_Coverage_fraction example_map example_regions new_RegionMap).
  change (Forall (fun p => region_of example_SuperPix example_regions p <> -1)
            example_coverage).
  repeat (apply Forall_cons; split; [by vm_compute|]). apply Forall_nil_2.
Defined.

Lemma InitializeRegions_from_missing_region_witness :
  InitializeRegions_from example_SuperPix example_Coverage_fraction
    example_map example_rm new_RegionMap
  = Undefined.
Proof.
  apply (InitializeRegions_from_missing_region example_SuperPix
           example_Coverage_fraction example_map example_rm new_RegionMap).
  apply Exists_cons_hd. by vm_compute.
Defined.

(** ** The stripes and the sections *)

Lemma increasing_of_sorted (l : list Z) :
  StronglySorted Z.le l -> NoDup l -> StronglySorted Z.lt l.
Proof.
  induction 1 as [|x l Hl IH Hx]; intros Hnd; [constructor|].
  apply NoDup_cons in Hnd as [Hnotin Hnd].
  constructor; [by apply IH|].
  rewrite Forall_forall in Hx. apply Forall_forall. intros y Hy.
  specialize (Hx y Hy). assert (x <> y) by (intros ->; done). lia.
Qed.

Lemma _FindUniqueStripes_increasing (coverage_pix : list Pixel) (rm : RegionMap) :
  StronglySorted Z.lt (_FindUniqueStripes coverage_pix rm).
Proof.
  apply increasing_of_sorted; [|apply _FindUniqueStripes_spec].
  unfold _FindUniqueStripes. apply StronglySorted_merge_sort; apply _.
Qed.

(** A section of at least one and at most [region_width] stripes. *)
Definition section_within (region_width : Z) (s : section) : Prop :=
  min_stripe s <= max_stripe s /\ max_stripe s - min_stripe s < region_width.

Definition widths_inv (region_width : Z) (c : section) (t : Z)
    (st : list section * Z * Z) : Prop :=
  let '(sv, j, section_iter) := st in
  j = Z.of_nat (length sv) - 1 /\
  Forall (section_within region_width) sv /\
  1 <= section_iter <= region_width /\
  (t = min_stripe c -> section_iter = region_width) /\
  (min_stripe c < t ->
   exists init last, sv = init ++ [last] /\
     max_stripe last - min_stripe last + 1 = section_iter /\
     max_stripe last = t - 1).

Lemma break_section_widths (region_width : Z) (c : section)
    (sv0 : list section) (j0 : Z) :
  1 <= region_width ->
  j0 = Z.of_nat (length sv0) - 1 ->
  Forall (section_within region_width) sv0 ->
  forall sv j,
    break_section region_width c (sv0, j0) = Ret (sv, j) ->
    j = Z.of_nat (length sv) - 1 /\ Forall (section_within region_width) sv.
Proof.
  intros Hw Hj0 Hsv0 sv j. unfold break_section.
  destruct (decide (min_stripe c <= max_stripe c + 1)) as [Hle|Hempty].
  - destruct (for_range_inv (widths_inv region_width c)
                (fun stripe_iter '(sectionVec, j, section_iter) =>
                   if section_iter =? region_width then
                     Ret (sectionVec ++ [{| min_stripe := stripe_iter;
                                            max_stripe := stripe_iter |}],
                          j + 1, 1)
                   else
                     sv ← vec_update (set_max_stripe stripe_iter) sectionVec j;
                     Ret (sv, j, section_iter + 1))
                (min_stripe c) (max_stripe c + 1) (sv0, j0, region_width) Hle)
      as ([[sv1 j1] si] & Hloop & Hj & Hall & _).
    + split; [exact Hj0|]. split; [exact Hsv0|]. split; [lia|].
      split; [done|lia].
    + intros t [[sv2 j2] si2] Ht (Hj & Hall & Hsi & Hfirst & Hlast).
      destruct (Z.eqb_spec si2 region_width) as [Hcut|Hgo].
      * eexists. split; [reflexivity|].
        split; [rewrite length_app; cbn; lia|]. split.
        -- apply Forall_app. split; [done|].
           apply Forall_singleton. split; cbn; lia.
        -- split; [lia|]. split; [lia|]. intros _.
           exists sv2, {| min_stripe := t; max_stripe := t |}. cbn.
           split; [done|lia].
      * destruct (decide (t = min_stripe c)) as [Heq|Hne];
          [by specialize (Hfirst Heq)|].
        destruct Hlast as (init & last & -> & Hsize & Hmax); [lia|].
        rewrite (vec_update_last _ _ _ _ Hj).
        cbn [mbind outcome_mbind outcome_bind].
        apply Forall_app in Hall as [Hinit Hlast].
        apply Forall_singleton in Hlast as [Hle' Hwide].
        eexists. split; [reflexivity|].
        split; [rewrite !length_app in *; cbn in *; lia|]. split.
        -- apply Forall_app. split; [done|].
           apply Forall_singleton. split; cbn; lia.
        -- split; [lia|]. split; [lia|]. intros _.
           exists init, (set_max_stripe t last). cbn. split; [done|]. lia.
    + rewrite Hloop. cbn [mbind outcome_mbind outcome_bind].
      intros E. injection E as <- <-. done.
  - unfold for_range.
    replace (Z.to_nat (max_stripe c + 1 - min_stripe c)) with 0%nat by lia.
    cbn. intros E. injection E as <- <-. done.
Qed.

Lemma break_sections_widths (region_width : Z) (cs : list section) :
  1 <= region_width ->
  forall sv, break_sections region_width cs [] = Ret sv ->
             Forall (section_within region_width) sv.
Proof.
  intros Hw sv. unfold break_sections.
  assert (forall cs (st : list section * Z) st',
            st.2 = Z.of_nat (length st.1) - 1 ->
            Forall (section_within region_width) st.1 ->
            for_each cs (break_section region_width) st = Ret st' ->
            Forall (section_within region_width) st'.1) as Hloop.
  { clear cs. induction cs as [|c cs IH]; intros [sv0 j0] st' Hj Hall Hrun.
    - cbn in Hrun. by injection Hrun as <-.
    - cbn [for_each] in Hrun.
      destruct (break_section region_width c (sv0, j0)) as [[sv1 j1]| | |] eqn:E;
        try discriminate Hrun.
      cbn in Hrun, Hj, Hall.
      destruct (break_section_widths region_width c sv0 j0 Hw Hj Hall sv1 j1 E)
        as [Hj1 Hall1].
      by apply (IH (sv1, j1) st'). }
  destruct (for_each cs _ _) as [[sv1 j1]| | |] eqn:E; try discriminate.
  cbn. intros H. injection H as <-.
  by apply (Hloop cs ([], -1) (sv1, j1)).
Qed.

Lemma section_width_range (Nx0 : Z) (base_map_area : R) (n_region : Z)
    (rm : RegionMap) (region_width : Z) :
  section_width Nx0 base_map_area n_region rm = Ret region_width ->
  1 <= region_width <= 255.
Proof.
  unfold section_width, double_to_uint8. destruct (decide _) as [Hr|]; [|done].
  cbn. set (t := double_truncate _) in *.
  destruct (Z.eqb_spec t 0); intros E; injection E as <-; lia.
Qed.

Section sections.
Variable Nx0 : Z.

(** X20.  On a coverage that is not empty, for [n_region > 0] and an area
    that is not negative, and when the width of the regions in stripes is
    one that the conversion to [uint8_t] defines:
    [_FindUniqueStripes] gives the stripes of the pixels of the coverage
    in increasing order, each once; [_FindSections] returns, and its
    sections, one after the other, are made of these stripes in that
    order: every section is a run of consecutive stripes, at least one
    and at most [region_width] of them, with [1 <= region_width <= 255]. *)
Theorem FindSections_sections (coverage_pix : list Pixel) (base_map_area : R)
    (n_region : Z) (rm : RegionMap) (region_width : Z) :
  coverage_pix <> [] ->
  0 < n_region -> (0 <= base_map_area)%R ->
  section_width Nx0 base_map_area n_region rm = Ret region_width ->
  let unique_stripes := _FindUniqueStripes coverage_pix rm in
  StronglySorted Z.lt unique_stripes /\
  (forall s, s ∈ unique_stripes <->
     exists p, p ∈ coverage_pix /\ Stripe p (region_resolution_ rm) = s) /\
  1 <= region_width <= 255 /\
  exists sectionVec,
    _FindSections Nx0 unique_stripes base_map_area n_region [] rm
    = Ret sectionVec /\
    sections_stripes sectionVec = unique_stripes /\
    Forall (section_within region_width) sectionVec.
Proof.
  intros Hne _ _ Hwidth unique_stripes.
  pose proof (section_width_range _ _ _ _ _ Hwidth) as Hw.
  split; [apply _FindUniqueStripes_increasing|].
  split; [apply _FindUniqueStripes_spec|]. split; [exact Hw|].
  assert (unique_stripes <> []) as Hus.
  { destruct coverage_pix as [|p ps]; [done|].
    assert (Stripe p (region_resolution_ rm) ∈ unique_stripes) as Hin.
    { apply _FindUniqueStripes_spec. exists p. split; [left|done]. }
    intros E. rewrite E in Hin. by apply elem_of_nil in Hin. }
  destruct (_FindSections_stripes Nx0 unique_stripes base_map_area n_region rm
              region_width Hus Hwidth) as (sv & Hrun & Hst).
  exists sv. split; [exact Hrun|]. split; [exact Hst|].
  unfold _FindSections in Hrun.
  destruct (contiguous_sections unique_stripes) as [cs| | |];
    try discriminate Hrun.
  cbn [mbind outcome_mbind outcome_bind] in Hrun. rewrite Hwidth in Hrun.
  cbn [mbind outcome_mbind outcome_bind] in Hrun.
  apply (break_sections_widths region_width cs); [lia|exact Hrun].
Qed.
End sections.

Lemma FindSections_sections_witness :
  let unique_stripes := _FindUniqueStripes example_coverage example_rm in
  StronglySorted Z.lt unique_stripes /\
  (forall s, s ∈ unique_stripes <->
     exists p, p ∈ example_coverage /\
               Stripe p (region_resolution_ example_rm) = s) /\
  1 <= 1 <= 255 /\
  exists sectionVec,
    _FindSections 36 unique_stripes 8 2 [] example_rm = Ret sectionVec /\
    sections_stripes sectionVec = unique_stripes /\
    Forall (section_within 1) sectionVec.
Proof.
  apply (FindSections_sections 36 example_coverage 8 2 example_rm 1);
    [done | lia | lra | exact example_section_width].
Defined.

(** ** The pixels of a region *)

Lemma map_entries_keys_increasing {V : Type} (m : gmap Z V) :
  StronglySorted Z.lt (map_entries m).*1.
Proof.
  apply increasing_of_sorted.
  - apply (StronglySorted_fmap fst key_le Z.le); [by intros x y|].
    unfold map_entries. apply StronglySorted_merge_sort.
    + intros x y z. unfold key_le. lia.
    + intros x y. unfold key_le. lia.
  - unfold map_entries. rewrite merge_sort_Permutation.
    apply NoDup_fst_map_to_list.
Qed.

Section region_pixels.
Variable Pixel_of : Z -> Z -> R -> Pixel.

Lemma RegionArea_pixels_filter (region_index : Z) (rm : RegionMap) :
  RegionArea_pixels Pixel_of region_index rm
  = (fun iter : Z * Z => Pixel_of (Resolution rm) iter.1 1%R)
    <$> filter (fun iter : Z * Z => iter.2 = region_index)
          (map_entries (region_map_ rm)).
Proof.
  unfold RegionArea_pixels.
  assert (forall (l : list (Z * Z)) (pix : list Pixel),
            fold_left (fun pix iter =>
              if iter.2 =? region_index
              then pix ++ [Pixel_of (Resolution rm) iter.1 1%R]
              else pix) l pix
            = pix ++ ((fun iter : Z * Z => Pixel_of (Resolution rm) iter.1 1%R)
                      <$> filter (fun iter : Z * Z => iter.2 = region_index) l))
    as Hfold.
  { induction l as [|iter l IH]; intros pix.
    - cbn. by rewrite app_nil_r.
    - cbn [fold_left]. rewrite IH. rewrite filter_cons.
      destruct (Z.eqb_spec iter.2 region_index) as [E|Hne].
      + rewrite decide_True by done. rewrite fmap_cons, <- app_assoc. done.
      + by rewrite decide_False by done. }
  by rewrite Hfold.
Qed.

(** X21.  [RegionArea(region_index, pix)] fills [pix] with one pixel
    [Pixel(Resolution(), key, 1.0)] for each key of the map that has the
    region [region_index], and with nothing else; the keys come in
    increasing order. *)
Theorem RegionArea_pixels_of_the_region (region_index : Z) (rm : RegionMap) :
  exists keys : list Z,
    RegionArea_pixels Pixel_of region_index rm
    = (fun key => Pixel_of (Resolution rm) key 1%R) <$> keys /\
    StronglySorted Z.lt keys /\
    forall key, key ∈ keys <-> region_map_ rm !! key = Some region_index.
Proof.
  exists ((filter (fun iter : Z * Z => iter.2 = region_index)
             (map_entries (region_map_ rm))).*1).
  split; [|split].
  - rewrite RegionArea_pixels_filter. by rewrite <- list_fmap_compose.
  - pose proof (map_entries_keys_increasing (region_map_ rm)) as Hs.
    induction (map_entries (region_map_ rm)) as [|iter l IH]; [constructor|].
    rewrite fmap_cons in Hs. apply StronglySorted_inv in Hs as [Hl Hx].
    rewrite filter_cons. destruct (decide _); [|by apply IH].
    rewrite fmap_cons. constructor; [by apply IH|].
    rewrite Forall_forall in Hx. apply Forall_forall. intros y Hy.
    apply Hx. apply list_elem_of_fmap in Hy as (entry & -> & He).
    apply list_elem_of_filter in He as [_ He]. by apply list_elem_of_fmap_2.
  - intros key. rewrite list_elem_of_fmap. split.
    + intros ([k v] & -> & Hin). apply list_elem_of_filter in Hin as [Hv Hin].
      cbn in Hv. subst v. by apply elem_of_map_entries in Hin.
    + intros Hkey. exists (key, region_index). split; [done|].
      apply list_elem_of_filter. split; [done|]. by apply elem_of_map_entries.
Qed.
End region_pixels.

(** ** The regions that a call uses *)

Lemma regionate_run_used u m a N start (rm : RegionMap) pixels :
  0 <= start < N -> N <= 255 ->
  (forall k, start <= k -> region_area_ rm !! k = None) ->
  let st := regionate_run u m a N pixels
              (rm, {| region_area := 0%R; running_area := 0%R; n_pixel := 0;
                      region_iter := start |}) in
  Z.of_nat (size (region_area_ st.1))
  = Z.of_nat (size (region_area_ rm)) + (region_iter st.2 - start) /\
  (forall k, start <= k < region_iter st.2 -> is_Some (region_area_ st.1 !! k)) /\
  (forall key v, region_map_ st.1 !! key = Some v ->
     region_map_ rm !! key = Some v \/ start <= v <= region_iter st.2).
Proof.
  intros Hstart HN Hclosed. induction pixels as [|p pixels IH] using rev_ind.
  - cbn. split; [lia|]. split; [intros k Hk; lia|]. intros key v Hv. by left.
  - cbn zeta in *. rewrite regionate_run_snoc.
    pose proof (regionate_run_invariant u m a N start rm pixels Hstart HN)
      as [_ Hiter].
    pose proof (regionate_run_areas u m a N start rm pixels Hstart HN Hclosed)
      as (_ & Hopen & _).
    cbn zeta in *.
    destruct (regionate_run u m a N pixels _) as [rm1 l]. cbn [fst snd] in *.
    destruct IH as (Hsize & Hused & Hvals). unfold regionate_pixel.
    destruct (_ || _) eqn:Htest; cbn [fst snd region_area_ region_map_
      set_region_map set_region_area running_area region_area region_iter].
    + split; [exact Hsize|]. split; [exact Hused|].
      intros key v Hv. destruct (decide (key = Pixnum p)) as [->|Hne].
      * rewrite lookup_insert_eq in Hv. inversion Hv. right. lia.
      * rewrite lookup_insert_ne in Hv by done. by apply Hvals.
    + apply orb_false_elim in Htest as [_ Hlast]. apply Z.eqb_neq in Hlast.
      assert (wrap_signed 16 (region_iter l + 1) = region_iter l + 1) as ->.
      { unfold wrap_signed. rewrite Z.mod_small; lia. }
      split; [|split].
      * rewrite map_size_insert_None by (apply Hopen; lia). lia.
      * intros k Hk. destruct (decide (k = region_iter l)) as [->|Hne].
        -- rewrite lookup_insert_eq. eauto.
        -- rewrite lookup_insert_ne by done. apply Hused. lia.
      * intros key v Hv. destruct (decide (key = Pixnum p)) as [->|Hne].
        -- rewrite lookup_insert_eq in Hv. inversion Hv. right. lia.
        -- rewrite lookup_insert_ne in Hv by done.
           destruct (Hvals key v Hv) as [?|?]; [by left|right; lia].
Qed.

Section initialize_regions_regionates.
Variable PixelArea : Z -> R.
Variable HPixResolution : Z.
Variable Nx0 : Z.

(** X22.  [InitializeRegions] for fewer regions than the map has pixels
    at the resolution of the regions, with [0 < n_region <= 255], on a map
    without stored areas and with an area that is not negative, and when the width of the regions in stripes is
    one that the conversion to [uint8_t] defines: the call returns, with a
    number [n] of regions from 1 to [n_region] (the sweep may use fewer
    regions than were asked for).  That number is what [NRegion()]
    returns afterwards, [Initialized()] is true, the regions with a stored
    area are [0 .. n-1], and every pixel of the coverage, as every key of
    the map, has a region of [0 .. n-1]. *)
Theorem InitializeRegions_regionates (stomp_map : BaseMap)
    (n_region region_resolution : Z) (rm rm0 : RegionMap) (region_width : Z) :
  _FindRegionResolution PixelArea HPixResolution stomp_map n_region
    region_resolution (ClearRegions rm) = Ret rm0 ->
  let coverage_pix := Coverage stomp_map (region_resolution_ rm0) in
  0 < n_region <= 255 ->
  n_region < vec_size coverage_pix ->
  region_area_ rm = ∅ ->
  (0 <= Area stomp_map)%R ->
  section_width Nx0 (Area stomp_map) n_region rm0 = Ret region_width ->
  exists n rm',
    InitializeRegions PixelArea HPixResolution Nx0 stomp_map n_region
      region_resolution rm = Ret (n, rm') /\
    1 <= n <= n_region /\
    NRegion rm' = n /\ Initialized rm' = true /\
    (forall k, is_Some (region_area_ rm' !! k) <-> 0 <= k < n) /\
    (forall p, p ∈ coverage_pix -> 0 <= (Region (Pixnum p) rm').1 < n) /\
    (forall key v, region_map_ rm' !! key = Some v -> 0 <= v < n).
Proof.
  intros Hres coverage_pix HN Hsize Hfresh _ Hwidth.
  assert (region_map_ rm0 = ∅ /\ region_area_ rm0 = ∅) as [Hm0 Ha0].
  { unfold _FindRegionResolution in Hres.
    destruct (if region_resolution =? 0 then _ else _) as [r| | |];
      try discriminate Hres.
    cbn in Hres. destruct (_ && _); try discriminate Hres.
    cbn in Hres. by injection Hres as <-. }
  assert (coverage_pix <> []) as Hne.
  { intros E. unfold vec_size in Hsize. rewrite E in Hsize.
    cbn [length] in Hsize. lia. }
  destruct (_FindUniqueStripes_spec coverage_pix rm0) as [Hnodup Hmem].
  assert (_FindUniqueStripes coverage_pix rm0 <> []) as Hstripes_ne.
  { destruct coverage_pix as [|p cov]; [done|].
    assert (Stripe p (region_resolution_ rm0)
            ∈ _FindUniqueStripes (p :: cov) rm0) as Hin.
    { apply Hmem. exists p. split; [apply elem_of_cons; by left|done]. }
    intros Hnil. rewrite Hnil in Hin. by apply elem_of_nil in Hin. }
  destruct (_FindSections_stripes Nx0 _ (Area stomp_map) n_region rm0
              region_width Hstripes_ne Hwidth)
    as (sectionVec & Hsections & Hstripes).
  assert (visited rm0 sectionVec coverage_pix ≡ₚ coverage_pix) as Hperm.
  { apply visited_Permutation; rewrite Hstripes; [exact Hnodup|].
    intros p Hp. apply Hmem. eauto. }
  assert (wrap_unsigned 8 n_region = n_region) as Hw8.
  { unfold wrap_unsigned. apply Z.mod_small. lia. }
  assert (assign_regions PixelArea HPixResolution Nx0 stomp_map n_region
            region_resolution rm
          = Ret (n_region,
                 _Regionate PixelArea coverage_pix sectionVec n_region 0 rm0))
    as Hassign.
  { unfold assign_regions. rewrite Hres. cbn. fold coverage_pix.
    assert ((vec_size coverage_pix <? n_region) = false) as ->
      by (apply Z.ltb_ge; lia).
    assert ((n_region =? vec_size coverage_pix) = false) as ->
      by (apply Z.eqb_neq; lia).
    fold (wrap_unsigned 8 n_region). rewrite Hw8, Hsections. reflexivity. }
  set (u := PixelArea (region_resolution_ rm0)) in *.
  pose proof (_Regionate_run PixelArea coverage_pix sectionVec n_region 0 rm0)
    as Hrun. cbn zeta in Hrun. fold u in Hrun.
  set (mean := (weighted_area u coverage_pix / IZR (vec_size coverage_pix))%R) in *.
  set (target := (weighted_area u coverage_pix / IZR n_region)%R) in *.
  destruct (regionate_run_areas u mean target n_region 0 rm0
              (visited rm0 sectionVec coverage_pix))
    as (_ & Hopen & Hkeys & Hmap); [lia|lia|by intros k _; rewrite Ha0|].
  destruct (regionate_run_used u mean target n_region 0 rm0
              (visited rm0 sectionVec coverage_pix))
    as (Hcount & Hused & Hvals); [lia|lia|by intros k _; rewrite Ha0|].
  destruct (regionate_run_invariant u mean target n_region 0 rm0
              (visited rm0 sectionVec coverage_pix))
    as (_ & Hiter); [lia|lia|].
  cbn zeta in *.
  destruct (regionate_run u mean target n_region _ _) as [rm1 l] eqn:Hst.
  cbn [fst snd] in *.
  set (rm2 := _Regionate PixelArea coverage_pix sectionVec n_region 0 rm0) in *.
  assert (region_map_ rm2 = region_map_ rm1) as Hmap2 by (by rewrite Hrun).
  assert (region_area_ rm2
          = <[region_iter l := running_area l]> (region_area_ rm1)) as Harea2
    by (by rewrite Hrun).
  assert (forall key v, region_map_ rm2 !! key = Some v ->
                        0 <= v < region_iter l + 1) as Hrange.
  { intros key v Hv. rewrite Hmap2 in Hv.
    destruct (Hvals key v Hv) as [Hold|?]; [|lia].
    by rewrite Hm0 in Hold. }
  assert (Z.of_nat (size (region_area_ rm2)) = region_iter l + 1) as Hsz.
  { rewrite Harea2, map_size_insert_None by (apply Hopen; lia).
    rewrite Ha0, map_size_empty in Hcount. lia. }
  destruct (check_regions_total n_region rm2) as [counts Hcheck].
  { intros key v Hv. specialize (Hrange key v Hv). lia. }
  exists (region_iter l + 1),
    (set_n_region (wrap_unsigned 16 (Z.of_nat (size (region_area_ rm2)))) rm2).
  assert (wrap_unsigned 16 (Z.of_nat (size (region_area_ rm2)))
          = region_iter l + 1) as Hn.
  { rewrite Hsz. unfold wrap_unsigned. apply Z.mod_small. lia. }
  split.
  - unfold InitializeRegions. rewrite Hassign. cbn. rewrite Hcheck. cbn.
    by rewrite Hn.
  - split; [lia|]. split; [exact Hn|]. split.
    { unfold Initialized. cbn. rewrite Hn. apply Z.ltb_lt. lia. }
    split; [|split].
    + intros k. cbn. rewrite Harea2. split.
      * intros Hk. destruct (decide (region_iter l = k)) as [<-|Hne']; [lia|].
        rewrite lookup_insert_ne in Hk by done.
        destruct (Hkeys k Hk) as [Hold|Hin]; [|lia].
        rewrite Ha0, lookup_empty in Hold. by destruct Hold.
      * intros Hk. destruct (decide (region_iter l = k)) as [<-|Hne'].
        -- rewrite lookup_insert_eq. eauto.
        -- rewrite lookup_insert_ne by done. apply Hused. lia.
    + intros p Hp. rewrite Region_lookup. cbn.
      destruct (Hmap p) as (r & Hr & _); [by rewrite Hperm|].
      rewrite Hmap2, Hr. cbn. apply (Hrange (Pixnum p)). by rewrite Hmap2.
    + intros key v Hv. cbn in Hv. by apply (Hrange key).
Qed.
End initialize_regions_regionates.

Lemma example_resolution_2 :
  _FindRegionResolution (fun _ => 2%R) 4 example_map 2 4
    (ClearRegions new_RegionMap)
  = Ret example_rm.
Proof. reflexivity. Qed.

Lemma InitializeRegions_regionates_witness :
  exists n rm',
    InitializeRegions (fun _ => 2%R) 4 36 example_map 2 4 new_RegionMap
    = Ret (n, rm') /\
    1 <= n <= 2 /\
    NRegion rm' = n /\ Initialized rm' = true /\
    (forall k, is_Some (region_area_ rm' !! k) <-> 0 <= k < n) /\
    (forall p, p ∈ example_coverage -> 0 <= (Region (Pixnum p) rm').1 < n) /\
    (forall key v, region_map_ rm' !! key = Some v -> 0 <= v < n).
Proof.
  apply (InitializeRegions_regionates (fun _ => 2%R) 4 36 example_map 2 4
           new_RegionMap example_rm 1 example_resolution_2).
  - lia.
  - change (2 < 4). lia.
  - reflexivity.
  - change (0 <= 8)%R. lra.
  - exact example_section_width.
Defined.
